(** * dronealgo-ota: release server and update agent

    A shallow embedding of the OTA platform's Go sources and the proofs of
    its specification's claims.

    - [ServerMain]     the net/http release server (package main:
                       handlePublish, handleCheck, handleDownload, saveStore,
                       loadStore and the start-up of main);
    - [ControllerOld]  the first revision of the gin file controller
                       (FileController.Publish, with saveStore);
    - [Controller]     the current revision of the gin file controller
                       (Publish, Check, InitStore, loadStore, saveStore);
    - [GinMain]        the start-up of main of the gin server;
    - [isNewer]        the version comparator, the same text in both servers;
    - [Agent]          the device agent (runOnce, downloadToFile, verifySha256,
                       startAlgorithm, stopAlgorithm, restartAlgorithm and the
                       loop of main).

    Go library functions the sources call are embedded in [GoLib]:
    crypto/sha256 and encoding/hex in full, strings.TrimSpace, strings.Split,
    strings.SplitN and strings.TrimPrefix, strconv.Atoi with a 64-bit int,
    path.Base, filepath.Join and filepath.Dir.

    Conventions. A handler or agent function is a function of the process
    state in the monad [SE] (state, early return). What the network, the disk
    and the payload process answer is an argument: a record that says which
    calls fail and with what error. The disk is a finite map from path names
    to entries; a path is the name filepath.Join builds, without lexical
    cleaning. Log lines are not modelled. *)

From Stdlib Require Import ZArith List Lia Bool.
From Stdlib Require Import Strings.Ascii Strings.String Strings.Byte.
From stdpp Require Import gmap strings list fin_maps.

Local Open Scope Z_scope.

(* ===================================================================== *)
(** * Go library functions used by the sources *)
(* ===================================================================== *)

Module GoLib.

(** ** Bytes *)

Definition byte_to_Z (b : byte) : Z := Z.of_N (Byte.to_N b).

Definition byte_of_Z (z : Z) : byte :=
  match Byte.of_N (Z.to_N (z mod 256)) with
  | Some b => b
  | None => Byte.x00
  end.

(** [[]byte(s)] and [string(b)]. *)
Definition bytes_of_string (s : string) : list byte := String.list_byte_of_string s.
Definition string_of_bytes (b : list byte) : string := String.string_of_list_byte b.

(** ** crypto/sha256 (FIPS 180-4), on 32-bit words written as [Z] with the
    wrap-around explicit. *)

Definition u32 (x : Z) : Z := x mod 2 ^ 32.

Definition add32 (x y : Z) : Z := u32 (x + y).

(** [bits.RotateLeft32(x, -n)] *)
Definition rotr (n x : Z) : Z :=
  Z.lor (Z.shiftr x n) (u32 (Z.shiftl x (32 - n))).

(** [^x] on a uint32 *)
Definition not32 (x : Z) : Z := 2 ^ 32 - 1 - x.

(** The round constants and the initial hash value are, by FIPS 180-4, the
    first 32 bits of the fractional parts of the cube roots of the first 64
    primes and of the square roots of the first 8; the tables of
    crypto/sha256 are computed here from that definition. *)

Definition divides (d n : Z) : bool := n mod d =? 0.

(** The first [count] primes, by trial division by those found so far. *)
Fixpoint primes_from (fuel count : nat) (candidate : Z) (found : list Z) : list Z :=
  match fuel, count with
  | O, _ | _, O => found
  | S fuel', S count' =>
      if existsb (fun q => divides q candidate) found
      then primes_from fuel' count (candidate + 1) found
      else primes_from fuel' count' (candidate + 1) (found ++ [candidate])
  end.

Definition first_primes (count : nat) : list Z := primes_from 400 count 2 [].

(** The integer cube root, one bit at a time from bit [k - 1] down. *)
Fixpoint cube_root_bits (k : nat) (n r : Z) : Z :=
  match k with
  | O => r
  | S k' =>
      let c := r + 2 ^ Z.of_nat k' in
      cube_root_bits k' n (if c * c * c <=? n then c else r)
  end.

Definition cube_root (n : Z) : Z := cube_root_bits 40 n 0.

Definition _K : list Z :=
  Eval vm_compute in map (fun q => cube_root (q * 2 ^ 96) mod 2 ^ 32) (first_primes 64).

Definition init_h : list Z :=
  Eval vm_compute in map (fun q => Z.sqrt (q * 2 ^ 64) mod 2 ^ 32) (first_primes 8).

Definition word_at (ws : list Z) (i : nat) : Z := nth i ws 0.

(** [w[i] = uint32(p[j])<<24 | uint32(p[j+1])<<16 | uint32(p[j+2])<<8 | uint32(p[j+3])] *)
Fixpoint be_words (n : nat) (p : list Z) : list Z :=
  match n with
  | O => []
  | S n' =>
      match p with
      | b0 :: b1 :: b2 :: b3 :: rest =>
          Z.lor (Z.lor (Z.lor (Z.shiftl b0 24) (Z.shiftl b1 16)) (Z.shiftl b2 8)) b3
            :: be_words n' rest
      | _ => []
      end
  end.

(** The message schedule: [w[i] = t1 + w[i-7] + t2 + w[i-16]] for [16 <= i < 64]. *)
Fixpoint schedule (k : nat) (ws : list Z) : list Z :=
  match k with
  | O => ws
  | S k' =>
      let i := List.length ws in
      let v1 := word_at ws (i - 2) in
      let t1 := Z.lxor (Z.lxor (rotr 17 v1) (rotr 19 v1)) (Z.shiftr v1 10) in
      let v2 := word_at ws (i - 15) in
      let t2 := Z.lxor (Z.lxor (rotr 7 v2) (rotr 18 v2)) (Z.shiftr v2 3) in
      schedule k' (ws ++ [add32 (add32 (add32 t1 (word_at ws (i - 7))) t2)
                                (word_at ws (i - 16))])
  end.

Record regs := Regs { ra : Z; rb : Z; rc : Z; rd : Z; re : Z; rf : Z; rg : Z; rh : Z }.

Definition round (r : regs) (k w : Z) : regs :=
  let '(Regs a b c d e f g h) := r in
  let t1 := add32 (add32 (add32 (add32 h
              (Z.lxor (Z.lxor (rotr 6 e) (rotr 11 e)) (rotr 25 e)))
              (Z.lxor (Z.land e f) (Z.land (not32 e) g))) k) w in
  let t2 := add32 (Z.lxor (Z.lxor (rotr 2 a) (rotr 13 a)) (rotr 22 a))
                  (Z.lxor (Z.lxor (Z.land a b) (Z.land a c)) (Z.land b c)) in
  Regs (add32 t1 t2) a b c (add32 d t1) e f g.

Fixpoint rounds (r : regs) (ks ws : list Z) : regs :=
  match ks, ws with
  | k :: ks', w :: ws' => rounds (round r k w) ks' ws'
  | _, _ => r
  end.

Definition regs_of (h : list Z) : regs :=
  Regs (word_at h 0) (word_at h 1) (word_at h 2) (word_at h 3)
       (word_at h 4) (word_at h 5) (word_at h 6) (word_at h 7).

(** One 64-byte chunk of [blockGeneric]. *)
Definition block (h : list Z) (chunk : list Z) : list Z :=
  let ws := schedule 48 (be_words 16 chunk) in
  let '(Regs a b c d e f g hh) := rounds (regs_of h) _K ws in
  [ add32 (word_at h 0) a; add32 (word_at h 1) b; add32 (word_at h 2) c;
    add32 (word_at h 3) d; add32 (word_at h 4) e; add32 (word_at h 5) f;
    add32 (word_at h 6) g; add32 (word_at h 7) hh ].

Fixpoint blocks (n : nat) (h : list Z) (p : list Z) : list Z :=
  match n with
  | O => h
  | S n' => blocks n' (block h (firstn 64 p)) (skipn 64 p)
  end.

(** Big-endian bytes of a [k]-byte unsigned integer. *)
Fixpoint be_bytes (k : nat) (x : Z) : list Z :=
  match k with
  | O => []
  | S k' => (Z.shiftr x (8 * Z.of_nat k')) mod 256 :: be_bytes k' x
  end.

(** [digest.checkSum]: 0x80, zeros up to 56 mod 64, then the bit length. *)
Definition pad (msg : list Z) : list Z :=
  let len := Z.of_nat (List.length msg) in
  let zeros := Z.to_nat ((55 - len) mod 64) in
  msg ++ [0x80] ++ repeat 0 zeros ++ be_bytes 8 (8 * len).

(** [h := sha256.New(); h.Write(data); h.Sum(nil)] *)
Definition sha256_Sum (data : list byte) : list byte :=
  let p := pad (map byte_to_Z data) in
  let h := blocks (List.length p / 64) init_h p in
  map byte_of_Z (flat_map (be_bytes 4) h).

(** ** encoding/hex *)

Definition hextable : string := "0123456789abcdef".

Definition hex_digit (n : Z) : ascii :=
  match String.get (Z.to_nat n) hextable with
  | Some c => c
  | None => "0"%char
  end.

(** [hex.EncodeToString] *)
Fixpoint hex_EncodeToString (src : list byte) : string :=
  match src with
  | [] => ""
  | v :: rest =>
      String (hex_digit (Z.shiftr (byte_to_Z v) 4))
        (String (hex_digit (Z.land (byte_to_Z v) 0x0f)) (hex_EncodeToString rest))
  end.

Definition sha256_hex (data : list byte) : string :=
  hex_EncodeToString (sha256_Sum data).

(** ** strings *)

Definition code (c : ascii) : Z := Z.of_N (N_of_ascii c).

Fixpoint drop_bytes (n : nat) (s : string) : string :=
  match n, s with
  | S n', String _ s' => drop_bytes n' s'
  | _, _ => s
  end.

Fixpoint rev_string (acc s : string) : string :=
  match s with
  | EmptyString => acc
  | String c s' => rev_string (String c acc) s'
  end.

(** [unicode.IsSpace] on the UTF-8 encoding: the three bytes [b0 b1 b2] encode
    U+1680, U+2000..U+200A, U+2028, U+2029, U+202F, U+205F or U+3000. *)
Definition is_space3 (b0 b1 b2 : Z) : bool :=
  ((b0 =? 0xE1) && (b1 =? 0x9A) && (b2 =? 0x80))
  || ((b0 =? 0xE2) && (b1 =? 0x80)
        && (((0x80 <=? b2) && (b2 <=? 0x8A)) || (b2 =? 0xA8) || (b2 =? 0xA9) || (b2 =? 0xAF)))
  || ((b0 =? 0xE2) && (b1 =? 0x81) && (b2 =? 0x9F))
  || ((b0 =? 0xE3) && (b1 =? 0x80) && (b2 =? 0x80)).

(** U+0085 and U+00A0. *)
Definition is_space2 (b0 b1 : Z) : bool :=
  (b0 =? 0xC2) && ((b1 =? 0x85) || (b1 =? 0xA0)).

(** [asciiSpace]: '\t', '\n', '\v', '\f', '\r', ' '. *)
Definition is_space1 (b0 : Z) : bool :=
  ((9 <=? b0) && (b0 <=? 13)) || (b0 =? 32).

(** Size in bytes of the white-space rune [s] starts with, 0 if there is none. *)
Definition leading_space (s : string) : nat :=
  match s with
  | String c0 (String c1 (String c2 _)) =>
      if is_space1 (code c0) then 1%nat
      else if is_space2 (code c0) (code c1) then 2%nat
      else if is_space3 (code c0) (code c1) (code c2) then 3%nat else 0%nat
  | String c0 (String c1 _) =>
      if is_space1 (code c0) then 1%nat
      else if is_space2 (code c0) (code c1) then 2%nat else 0%nat
  | String c0 _ => if is_space1 (code c0) then 1%nat else 0%nat
  | EmptyString => 0%nat
  end.

(** The same for the rune a string ends with, read on the reversed string. *)
Definition trailing_space (r : string) : nat :=
  match r with
  | String c0 (String c1 (String c2 _)) =>
      if is_space1 (code c0) then 1%nat
      else if is_space2 (code c1) (code c0) then 2%nat
      else if is_space3 (code c2) (code c1) (code c0) then 3%nat else 0%nat
  | String c0 (String c1 _) =>
      if is_space1 (code c0) then 1%nat
      else if is_space2 (code c1) (code c0) then 2%nat else 0%nat
  | String c0 _ => if is_space1 (code c0) then 1%nat else 0%nat
  | EmptyString => 0%nat
  end.

Fixpoint trim_with (width : string -> nat) (fuel : nat) (s : string) : string :=
  match fuel with
  | O => s
  | S fuel' =>
      match width s with
      | O => s
      | n => trim_with width fuel' (drop_bytes n s)
      end
  end.

(** [strings.TrimSpace] *)
Definition strings_TrimSpace (s : string) : string :=
  let l := trim_with leading_space (String.length s) s in
  let r := rev_string "" l in
  rev_string "" (trim_with trailing_space (String.length r) r).

(** [strings.HasPrefix] *)
Fixpoint strings_HasPrefix (s pre : string) {struct pre} : bool :=
  match pre with
  | EmptyString => true
  | String a pre' =>
      match s with
      | EmptyString => false
      | String b s' => Ascii.eqb a b && strings_HasPrefix s' pre'
      end
  end.

(** [strings.TrimPrefix] *)
Definition strings_TrimPrefix (s pre : string) : string :=
  if strings_HasPrefix s pre then drop_bytes (String.length pre) s else s.

(** [strings.SplitN(s, sep, n)] for a one-byte separator and [n >= 0]: at most
    [n] fields, the last one holding the unsplit rest. *)
Fixpoint strings_SplitN (s : string) (sep : ascii) (n : nat) : list string :=
  match n with
  | O => []
  | S O => [s]
  | S n' =>
      match s with
      | EmptyString => [EmptyString]
      | String c s' =>
          if Ascii.eqb c sep then EmptyString :: strings_SplitN s' sep n'
          else match strings_SplitN s' sep n with
               | h :: t => String c h :: t
               | [] => [String c EmptyString]
               end
      end
  end.

(** [strings.Split(s, sep)] for a one-byte separator. *)
Fixpoint strings_Split (s : string) (sep : ascii) : list string :=
  match s with
  | EmptyString => [EmptyString]
  | String c s' =>
      if Ascii.eqb c sep then EmptyString :: strings_Split s' sep
      else match strings_Split s' sep with
           | h :: t => String c h :: t
           | [] => [String c EmptyString]
           end
  end.

(** ** strconv *)

Inductive NumError := ErrSyntax | ErrRange.

Definition is_digit (c : ascii) : bool := (48 <=? code c) && (code c <=? 57).

Definition maxUint64 : Z := 2 ^ 64 - 1.
Definition maxInt64 : Z := 2 ^ 63 - 1.

(** The digit loop of [strconv.ParseUint(s, 10, 64)]. *)
Fixpoint parseUint_loop (s : string) (n : Z) : Z * option NumError :=
  match s with
  | EmptyString => (n, None)
  | String c s' =>
      if is_digit c then
        let d := code c - 48 in
        if maxUint64 / 10 + 1 <=? n then (maxUint64, Some ErrRange)
        else
          let n10 := n * 10 in
          let n1 := (n10 + d) mod 2 ^ 64 in
          if (n1 <? n10) || (maxUint64 <? n1) then (maxUint64, Some ErrRange)
          else parseUint_loop s' n1
      else (0, Some ErrSyntax)
  end.

Definition strconv_ParseUint (s : string) : Z * option NumError :=
  match s with
  | EmptyString => (0, Some ErrSyntax)
  | _ => parseUint_loop s 0
  end.

(** [strconv.ParseInt(s, 10, 0)] with a 64-bit [int]. *)
Definition strconv_ParseInt (s : string) : Z * option NumError :=
  match s with
  | EmptyString => (0, Some ErrSyntax)
  | String c rest =>
      let neg := Ascii.eqb c "-" in
      let s1 := if Ascii.eqb c "+" || neg then rest else s in
      match strconv_ParseUint s1 with
      | (_, Some ErrSyntax) => (0, Some ErrSyntax)
      | (un, _) =>
          let cutoff := 2 ^ 63 in
          if negb neg && (cutoff <=? un) then (cutoff - 1, Some ErrRange)
          else if neg && (cutoff <? un) then (- cutoff, Some ErrRange)
          else (if neg then - un else un, None)
      end
  end.

(** The fast path of [strconv.Atoi]: sign, then digits. *)
Fixpoint atoi_digits (s : string) (n : Z) : option Z :=
  match s with
  | EmptyString => Some n
  | String ch s' =>
      let d := (code ch - 48) mod 256 in
      if 9 <? d then None else atoi_digits s' (n * 10 + d)
  end.

(** [strconv.Atoi] with a 64-bit [int]. *)
Definition strconv_Atoi (s : string) : Z * option NumError :=
  let sLen := Z.of_nat (String.length s) in
  if (0 <? sLen) && (sLen <? 19) then
    match s with
    | EmptyString => (0, Some ErrSyntax)
    | String c rest =>
        let signed := Ascii.eqb c "-" || Ascii.eqb c "+" in
        let s1 := if signed then rest else s in
        if signed && (Z.of_nat (String.length s1) <? 1) then (0, Some ErrSyntax)
        else match atoi_digits s1 0 with
             | None => (0, Some ErrSyntax)
             | Some n => (if Ascii.eqb c "-" then - n else n, None)
             end
    end
  else strconv_ParseInt s.

(** ** path and path/filepath

    Paths are names: [filepath.Join] is modelled on elements that need no
    lexical cleaning (no empty, dot or dot-dot segments inside an element);
    an empty element is skipped as in Go. *)

Definition filepath_Join (dir name : string) : string :=
  match dir, name with
  | EmptyString, _ => name
  | _, EmptyString => dir
  | _, _ => dir +:+ "/" +:+ name
  end.

Fixpoint drop_slashes (r : string) : string :=
  match r with
  | String c r' => if Ascii.eqb c "/" then drop_slashes r' else r
  | EmptyString => r
  end.

Fixpoint until_slash (r : string) : string :=
  match r with
  | String c r' => if Ascii.eqb c "/" then EmptyString else String c (until_slash r')
  | EmptyString => EmptyString
  end.

(** [path.Base]: the last element, trailing slashes removed; read on the
    reversed path. *)
Definition path_Base (p : string) : string :=
  match p with
  | EmptyString => "."
  | _ =>
      match drop_slashes (rev_string "" p) with
      | EmptyString => "/"
      | r => rev_string "" (until_slash r)
      end
  end.

Fixpoint after_slash (r : string) : option string :=
  match r with
  | String c r' => if Ascii.eqb c "/" then Some r' else after_slash r'
  | EmptyString => None
  end.

(** [filepath.Dir]: all but the last element, trailing slashes removed. *)
Definition filepath_Dir (p : string) : string :=
  match after_slash (rev_string "" p) with
  | None => "."
  | Some r =>
      match drop_slashes r with
      | EmptyString => "/"
      | d => rev_string "" d
      end
  end.

End GoLib.

Import GoLib.

(* ===================================================================== *)
(** * State and early return: the monad the handlers and the agent run in *)
(* ===================================================================== *)

(** A Go function that mutates process state and either returns early (with
    an error, or after writing a failure response) or goes on: state [S],
    early exit [E]. *)
Section StateExit.
Context {S E : Type}.

Definition SE (A : Type) : Type := S -> S * (E + A).

Definition ret {A} (a : A) : SE A := fun s => (s, inr a).

Definition bind {A B} (m : SE A) (k : A -> SE B) : SE B :=
  fun s => match m s with
           | (s', inl e) => (s', inl e)
           | (s', inr a) => k a s'
           end.

Definition exit_with {A} (e : E) : SE A := fun s => (s, inl e).

Definition get : SE S := fun s => (s, inr s).

Definition modify (f : S -> S) : SE unit := fun s => (f s, inr tt).
End StateExit.

Notation "x <- m ;; k" := (bind m (fun x => k))
  (at level 100, m at next level, right associativity).
Notation "m ;; k" := (bind m (fun _ => k))
  (at level 100, right associativity).

(* ===================================================================== *)
(** * Data model of the release server *)
(* ===================================================================== *)

Record Release := mkRelease {
  Version : string;
  Channel : string;
  URL : string;
  Sha256 : string;
  Notes : string;
  CreatedAt : Z;
  FilePath : string
}.

#[global] Instance Release_eq_dec : EqDecision Release.
Proof. solve_decision. Defined.

Record Store := mkStore {
  ReleasesByVersion : gmap string Release;
  LatestByChannel : gmap string string
}.

#[global] Instance Store_eq_dec : EqDecision Store.
Proof. solve_decision. Defined.

(** The server process and the disk it writes: the in-memory [store], the
    directories and artifact files created under [artDir], and what opening
    and decoding [storeFile] yields ([inl e]: the error of [os.Open] or of
    [Decode]). *)
Record Server := mkServer {
  store : Store;
  dirs : gset string;
  files : gmap string (list byte);
  storeFile_content : string + Store
}.

Definition dataDir : string := "../../data".
Definition artDir : string := "../../artifacts".
Definition storeFile : string := filepath_Join dataDir "releases.json".

Definition empty_store : Store := mkStore ∅ ∅.

(** The process as [main] starts it on a fresh disk. *)
Definition fresh_server : Server :=
  mkServer empty_store ∅ ∅ (inl "open ../../data/releases.json: no such file or directory").

Definition set_store (st : Store) (w : Server) : Server :=
  mkServer st (dirs w) (files w) (storeFile_content w).
Definition set_dirs (d : gset string) (w : Server) : Server :=
  mkServer (store w) d (files w) (storeFile_content w).
Definition set_files (f : gmap string (list byte)) (w : Server) : Server :=
  mkServer (store w) (dirs w) f (storeFile_content w).
Definition set_storeFile (c : string + Store) (w : Server) : Server :=
  mkServer (store w) (dirs w) (files w) c.

(** [FilePath] carries the tag [json:"-"]: the encoder leaves it out and the
    decoder gives it the zero value. *)
Definition json_Release (r : Release) : Release :=
  mkRelease (Version r) (Channel r) (URL r) (Sha256 r) (Notes r) (CreatedAt r) "".

(** What [json.NewDecoder(f).Decode] reads back from
    [json.NewEncoder(f).Encode(store)] (strings taken as valid UTF-8, which
    the encoder leaves as they are). *)
Definition json_Store (st : Store) : Store :=
  mkStore (json_Release <$> ReleasesByVersion st) (LatestByChannel st).

(** HTTP status codes of net/http. *)
Definition StatusOK : Z := 200.
Definition StatusBadRequest : Z := 400.
Definition StatusNotFound : Z := 404.
Definition StatusMethodNotAllowed : Z := 405.
Definition StatusInternalServerError : Z := 500.

(** The bodies the handlers write: the text of [http.Error], the JSON object
    of [ResponseFailure], a release, the answer of a check. *)
Inductive Body :=
| TextBody (msg : string)
| FailureBody (code : Z) (msg detail : string)
| ReleaseBody (rel : Release)
| CheckBody (update_available : bool) (latest : option Release) (message : string).

(** What a handler writes to its response writer: a status with a body, or
    the [Content-Disposition] header followed by [http.ServeFile(w, r, name)],
    which answers the request from the file [name]. *)
Inductive Write :=
| Wrote (status : Z) (body : Body)
| ServeFile (disposition : string) (name : string).

(** A request being served: the process and the writes made so far. *)
Record Conn := mkConn { world : Server; out : list Write }.

(** How a handler stops before its last statement. *)
Inductive Exit := Return | Panic.

Definition Handler (A : Type) : Type := @SE Conn Exit A.

Definition write (code : Z) (b : Body) : Handler unit :=
  modify (fun c => mkConn (world c) (out c ++ [Wrote code b])).

Definition on_world (f : Server -> Server) : Handler unit :=
  modify (fun c => mkConn (f (world c)) (out c)).

Definition the_world : Handler Server := c <- get ;; ret (world c).

Definition return_ {A} : Handler A := exit_with Return.

(** [http.Error(w, msg, code)] *)
Definition http_Error (msg : string) (code : Z) : Handler unit := write code (TextBody msg).

(** The outcome of serving one request. *)
Record Served := mkServed { after : Server; response : list Write; panicked : bool }.

Definition serve {A} (h : Handler A) (w : Server) : Served :=
  match h (mkConn w []) with
  | (c, inl Panic) => mkServed (world c) (out c) true
  | (c, _) => mkServed (world c) (out c) false
  end.

(** The status line the client receives: that of the first write. *)
Definition final_status (r : Served) : option Z :=
  match response r with
  | Wrote code _ :: _ => Some code
  | _ => None
  end.

(** ** Operating-system calls of the handlers. The environment decides which
    of them fail ([Some msg]: the error returned). *)

Definition os_MkdirAll (fault : option string) (p : string) : Handler (option string) :=
  match fault with
  | Some e => ret (Some e)
  | None => on_world (fun w => set_dirs ({[p]} ∪ dirs w) w) ;; ret None
  end.

(** [os.Create]: the file exists and is empty afterwards. *)
Definition os_Create (fault : option string) (p : string) : Handler (option string) :=
  match fault with
  | Some e => ret (Some e)
  | None => on_world (fun w => set_files (<[p := []]> (files w)) w) ;; ret None
  end.

(** The bytes a reader opened on [p] yields. *)
Definition read_file (p : string) : Handler (list byte) :=
  w <- the_world ;; ret (default [] (files w !! p)).

(** [io.Copy(io.MultiWriter(dst, h), src)]: every byte read from [src] goes to
    the file [dstPath] and to the hash; a fault stops the copy after [n]
    bytes. The result is the bytes written and the error. *)
Definition io_Copy (fault : option (nat * string)) (dstPath : string) (src : list byte)
  : Handler (list byte * option string) :=
  let written := match fault with Some (n, _) => firstn n src | None => src end in
  on_world (fun w => set_files (<[dstPath := written]> (files w)) w) ;;
  ret (written, snd <$> fault).

(** Per-request environment of [publish]: the clock, and the error, if any,
    of [os.MkdirAll(vDir)], [os.Create(dstPath)], [os.Open(dstPath)],
    [fileHeader.Open()], [io.Copy] (with the number of bytes copied before
    it), and in [saveStore] of [os.MkdirAll] and of the steps that write and
    rename the snapshot. *)
Record PublishEnv := mkPublishEnv {
  now : Z;
  mkdirall_err : option string;
  create_err : option string;
  reopen_err : option string;
  upload_open_err : option string;
  copy_fault : option (nat * string);
  save_mkdir_err : option string;
  save_err : option string
}.

Record Upload := mkUpload { Filename : string; content : list byte }.

(** A publish request as the form accessors present it: the method, the
    error of [ParseMultipartForm], the values of [version], [channel] and
    [notes], and the [file] part or the error of [FormFile]. *)
Record PublishReq := mkPublishReq {
  Method : string;
  multipart_err : option string;
  form_version : string;
  form_channel : string;
  form_notes : string;
  form_file : string + Upload
}.

(** A check request: the query parameters present in the URL. *)
Record CheckReq := mkCheckReq {
  query_channel : option string;
  query_current : option string;
  query_device_id : option string
}.

(** What [main] has come to once its start-up is over: it serves requests,
    or the process has ended ([log.Fatal], or a return from [main]). *)
Inductive Started :=
| Serving (w : Server)
| Exited (w : Server).

(** What the start-up of the net/http server meets: the error, if any, of
    [os.MkdirAll(dataDir)] and of [os.MkdirAll(artDir)], and what a [Decode]
    that ends in an error has stored in the store by then (nothing when the
    file cannot be opened or is not JSON). *)
Record StartEnv := mkStartEnv {
  data_mkdir_err : option string;
  art_mkdir_err : option string;
  decoded_before_error : Store -> Store
}.

(* ===================================================================== *)
(** * Version comparator *)
(* ===================================================================== *)

(** The closure [parse] of [isNewer]. [None] is a run-time panic (index out
    of range). *)
Definition parse (s : string) : option (Z * Z * Z) :=
  match strings_SplitN s "-" 2 with
  | [] => None
  | s :: _ =>
      let parts := strings_Split s "." in
      let get (i : nat) : option Z :=
        if (List.length parts <=? i)%nat then Some 0
        else match nth_error parts i with
             | Some p => Some (fst (strconv_Atoi p))
             | None => None
             end in
      match get 0%nat, get 1%nat, get 2%nat with
      | Some maj, Some min, Some pat => Some (maj, min, pat)
      | _, _, _ => None
      end
  end.

(** [isNewer] (the same text in the net/http server and in the controller). *)
Definition isNewer (a b : string) : option bool :=
  match parse a, parse b with
  | Some (amaj, amin, apat), Some (bmaj, bmin, bpat) =>
      if negb (amaj =? bmaj) then Some (amaj >? bmaj)
      else if negb (amin =? bmin) then Some (amin >? bmin)
      else Some (apat >? bpat)
  | _, _ => None
  end.

(* ===================================================================== *)
(** * The net/http release server (package main) *)
(* ===================================================================== *)

Module ServerMain.

(** [saveStore]: write the encoded store to [storeFile + ".tmp"], then rename
    it over [storeFile]. A failure of [os.Create], [Encode] or [os.Rename]
    leaves [storeFile] as it was. *)
Definition saveStore (fault : option string) : Handler (option string) :=
  match fault with
  | Some e => ret (Some e)
  | None =>
      on_world (fun w => set_storeFile (inr (json_Store (store w))) w) ;; ret None
  end.

(** [dec.Decode(store)] of a snapshot that decodes, both members being JSON
    objects as [saveStore] writes them: the maps of the store are reused, the
    keys of the snapshot are set in them and their other keys stay. *)
Definition decode_into (snapshot st : Store) : Store :=
  mkStore (ReleasesByVersion snapshot ∪ ReleasesByVersion st)
          (LatestByChannel snapshot ∪ LatestByChannel st).

(** [loadStore] decodes into the store of the process itself; [partial] is
    what a [Decode] that fails has stored by then. *)
Definition loadStore (partial : Store -> Store) : Handler (option string) :=
  w <- the_world ;;
  match storeFile_content w with
  | inl e => on_world (fun w => set_store (partial (store w)) w) ;; ret (Some e)
  | inr snapshot => on_world (fun w => set_store (decode_into snapshot (store w)) w) ;; ret None
  end.

Definition handlePublish (env : PublishEnv) (r : PublishReq) : Handler unit :=
  (if negb (String.eqb (Method r) "POST")
   then http_Error "POST only" StatusMethodNotAllowed ;; return_
   else ret tt) ;;
  match multipart_err r with
  | Some e => http_Error e StatusBadRequest ;; return_
  | None => ret tt
  end ;;
  let version := strings_TrimSpace (form_version r) in
  (if String.eqb version ""
   then http_Error "missing version" StatusBadRequest ;; return_
   else ret tt) ;;
  let channel := if String.eqb (form_channel r) "" then "stable" else form_channel r in
  let notes := form_notes r in
  file <- match form_file r with
          | inl e => http_Error ("missing file: " +:+ e) StatusBadRequest ;; return_
          | inr f => ret f
          end ;;
  (* Save artifact *)
  let vDir := filepath_Join artDir version in
  err <- os_MkdirAll (mkdirall_err env) vDir ;;
  match err with
  | Some e => http_Error e StatusInternalServerError ;; return_
  | None => ret tt
  end ;;
  let dstPath := filepath_Join vDir "algorithm" in
  err <- os_Create (create_err env) dstPath ;;
  match err with
  | Some e => http_Error ("create dst: " +:+ e) StatusInternalServerError ;; return_
  | None => ret tt
  end ;;
  copied <- io_Copy (copy_fault env) dstPath (content file) ;;
  let hashed := fst copied in
  match snd copied with
  | Some e => http_Error ("save file: " +:+ e) StatusInternalServerError ;; return_
  | None => ret tt
  end ;;
  let sum := hex_EncodeToString (sha256_Sum hashed) in
  let url := "/download/" +:+ version in
  let rel := mkRelease version channel url sum notes (now env) dstPath in
  on_world (fun w =>
    set_store (mkStore (<[version := rel]> (ReleasesByVersion (store w)))
                       (<[channel := version]> (LatestByChannel (store w)))) w) ;;
  err <- saveStore (save_err env) ;;
  match err with
  | Some e => http_Error ("save metadata: " +:+ e) StatusInternalServerError ;; return_
  | None => ret tt
  end ;;
  write StatusOK (ReleaseBody rel).

Definition handleCheck (r : CheckReq) : Handler unit :=
  let channel := default "" (query_channel r) in
  let channel := if String.eqb channel "" then "stable" else channel in
  let current := default "" (query_current r) in
  w <- the_world ;;
  match LatestByChannel (store w) !! channel with
  | None => http_Error "no release in channel" StatusNotFound ;; return_
  | Some latestVersion =>
      let latest := ReleasesByVersion (store w) !! latestVersion in
      newer <- (if String.eqb current "" then ret true
                else match latest with
                     | None => exit_with Panic            (* latest.Version on nil *)
                     | Some l =>
                         match isNewer (Version l) current with
                         | Some b => ret b
                         | None => exit_with Panic
                         end
                     end) ;;
      if newer : bool
      then write StatusOK (CheckBody true latest "new version available")
      else write StatusOK (CheckBody false latest "up to date")
  end.

Section Download.
(** [strconv.Quote] *)
Variable strconv_Quote : string -> string.

(** [path] is [r.URL.Path]. *)
Definition handleDownload (path : string) : Handler unit :=
  (* /download/<version> *)
  let parts := strings_Split (strings_TrimPrefix path "/download/") "/" in
  version <- match parts with
             | [] => http_Error "version required" StatusBadRequest ;; return_
             | p0 :: _ =>
                 if String.eqb p0 ""
                 then http_Error "version required" StatusBadRequest ;; return_
                 else ret p0
             end ;;
  w <- the_world ;;
  match ReleasesByVersion (store w) !! version with
  | None => http_Error "unknown version" StatusNotFound ;; return_
  | Some rel =>
      (* Serve file *)
      modify (fun c => mkConn (world c)
        (out c ++ [ServeFile ("attachment; filename=" +:+ strconv_Quote (path_Base (FilePath rel)))
                             (FilePath rel)]))
  end.
End Download.

(** [main] up to [http.ListenAndServe], in a new process on the disk of
    [disk]: the package variable [store] starts with two empty maps. *)
Definition main (env : StartEnv) (disk : Server) : Started :=
  let w := set_store empty_store disk in
  match data_mkdir_err env with
  | Some _ => Exited w                                   (* log.Fatal(err) *)
  | None =>
      let w := set_dirs ({[dataDir]} ∪ dirs w) w in
      match art_mkdir_err env with
      | Some _ => Exited w                               (* log.Fatal(err) *)
      | None =>
          let w := set_dirs ({[artDir]} ∪ dirs w) w in
          (* the error of loadStore is only logged *)
          Serving (after (serve (loadStore (decoded_before_error env)) w))
      end
  end.

End ServerMain.

(* ===================================================================== *)
(** * The gin controllers (package controller) *)
(* ===================================================================== *)

Inductive ErrCode := OK | ErrParam | ErrInternal.

Definition errSpec (e : ErrCode) : Z * string :=
  match e with
  | OK => (StatusOK, "OK")
  | ErrParam => (StatusBadRequest, "Bad Request")
  | ErrInternal => (StatusInternalServerError, "Internal Server Error")
  end.

(** [BaseController.ResponseFailure]: one JSON write; [g.Abort()] stops the
    handlers that follow in the chain, not the caller. *)
Definition ResponseFailure (e : ErrCode) (detail : string) : Handler unit :=
  write (fst (errSpec e)) (FailureBody (fst (errSpec e)) (snd (errSpec e)) detail).

(** [saveStore] of both revisions of the controller: [os.MkdirAll] of the
    directory of [storeFile], then write-to-temp and rename. *)
Definition controller_saveStore (env : PublishEnv) : Handler (option string) :=
  err <- os_MkdirAll (save_mkdir_err env) (filepath_Dir storeFile) ;;
  match err with
  | Some e => ret (Some e)
  | None =>
      match save_err env with
      | Some e => ret (Some e)
      | None =>
          on_world (fun w => set_storeFile (inr (json_Store (store w))) w) ;; ret None
      end
  end.

(** ** First revision of controller/file.go *)

Module ControllerOld.

Definition saveStore := controller_saveStore.

Definition Publish (env : PublishEnv) (r : PublishReq) : Handler unit :=
  let version := strings_TrimSpace (form_version r) in
  (if String.eqb version ""
   then ResponseFailure ErrParam "version is required"
   else ret tt) ;;
  let channel := strings_TrimSpace (form_channel r) in
  let channel := if String.eqb channel "" then "stable" else channel in
  let notes := strings_TrimSpace (form_notes r) in
  let fileHeader := match form_file r with inr f => Some f | inl _ => None end in
  match form_file r with
  | inl e => ResponseFailure ErrParam ("missing file: " +:+ e)
  | inr _ => ret tt
  end ;;
  let vDir := filepath_Join artDir version in
  err <- os_MkdirAll (mkdirall_err env) vDir ;;
  match err with
  | Some e => ResponseFailure ErrInternal e
  | None => ret tt
  end ;;
  let dstPath := filepath_Join vDir "algorithm" in
  err <- os_Create (create_err env) dstPath ;;
  match err with
  | Some e => ResponseFailure ErrInternal ("create dst: " +:+ e) ;; return_
  | None => ret tt
  end ;;
  (* f, err := os.Open(dstPath) *)
  match reopen_err env with
  | Some e => ResponseFailure ErrInternal ("open dst: " +:+ e) ;; return_
  | None => ret tt
  end ;;
  (* src, err := fileHeader.Open() *)
  match fileHeader with
  | None => exit_with Panic
  | Some _ =>
      match upload_open_err env with
      | Some e => ResponseFailure ErrInternal ("open upload: " +:+ e) ;; return_
      | None => ret tt
      end
  end ;;
  (* io.Copy(io.MultiWriter(dst, h), f) *)
  f <- read_file dstPath ;;
  copied <- io_Copy (copy_fault env) dstPath f ;;
  let hashed := fst copied in
  match snd copied with
  | Some e => ResponseFailure ErrInternal ("hash: " +:+ e) ;; return_
  | None => ret tt
  end ;;
  let sum := hex_EncodeToString (sha256_Sum hashed) in
  let url := "/download/" +:+ version in
  let rel := mkRelease version channel url sum notes (now env) dstPath in
  on_world (fun w =>
    set_store (mkStore (<[version := rel]> (ReleasesByVersion (store w)))
                       (<[channel := version]> (LatestByChannel (store w)))) w) ;;
  err <- saveStore env ;;
  match err with
  | Some e => ResponseFailure ErrInternal ("save metadata: " +:+ e) ;; return_
  | None => ret tt
  end ;;
  write StatusOK (ReleaseBody rel).

End ControllerOld.

(** ** Current revision of controller/file.go *)

Module Controller.

(** [loadStore]: decode [storeFile] into a fresh store, then replace both maps
    of the process-wide store. *)
Definition loadStore : Handler (option string) :=
  w <- the_world ;;
  match storeFile_content w with
  | inl e => ret (Some e)
  | inr tmp => on_world (set_store tmp) ;; ret None
  end.

Definition InitStore : Handler (option string) :=
  err <- loadStore ;;
  match err with
  | Some e => ret (Some e)
  | None => ret None
  end.

Definition saveStore := controller_saveStore.

Definition Publish (env : PublishEnv) (r : PublishReq) : Handler unit :=
  let version := strings_TrimSpace (form_version r) in
  (if String.eqb version ""
   then ResponseFailure ErrParam "version is required" ;; return_
   else ret tt) ;;
  let channel := strings_TrimSpace (form_channel r) in
  let channel := if String.eqb channel "" then "stable" else channel in
  let notes := strings_TrimSpace (form_notes r) in
  fileHeader <- match form_file r with
                | inl e => ResponseFailure ErrParam ("missing file: " +:+ e) ;; return_
                | inr f => ret f
                end ;;
  let vDir := filepath_Join artDir version in
  err <- os_MkdirAll (mkdirall_err env) vDir ;;
  match err with
  | Some e => ResponseFailure ErrInternal e ;; return_
  | None => ret tt
  end ;;
  let dstPath := filepath_Join vDir "algorithm" in
  err <- os_Create (create_err env) dstPath ;;
  match err with
  | Some e => ResponseFailure ErrInternal ("create dst: " +:+ e) ;; return_
  | None => ret tt
  end ;;
  (* src, err := fileHeader.Open() *)
  match upload_open_err env with
  | Some e => ResponseFailure ErrInternal ("open upload: " +:+ e) ;; return_
  | None => ret tt
  end ;;
  (* io.Copy(io.MultiWriter(dst, h), src) *)
  copied <- io_Copy (copy_fault env) dstPath (content fileHeader) ;;
  let hashed := fst copied in
  match snd copied with
  | Some e => ResponseFailure ErrInternal ("hash: " +:+ e) ;; return_
  | None => ret tt
  end ;;
  let sum := hex_EncodeToString (sha256_Sum hashed) in
  let url := "/download/" +:+ version in
  let rel := mkRelease version channel url sum notes (now env) dstPath in
  on_world (fun w =>
    set_store (mkStore (<[version := rel]> (ReleasesByVersion (store w)))
                       (<[channel := version]> (LatestByChannel (store w)))) w) ;;
  err <- saveStore env ;;
  match err with
  | Some e => ResponseFailure ErrInternal ("save metadata: " +:+ e) ;; return_
  | None => ret tt
  end ;;
  write StatusOK (ReleaseBody rel).

Definition Check (r : CheckReq) : Handler unit :=
  loadStore ;;                               (* a failure is only logged *)
  let channel := default "stable" (query_channel r) in
  let current := default "" (query_current r) in
  w <- the_world ;;
  match LatestByChannel (store w) !! channel with
  | None => ResponseFailure ErrInternal "no release in channel" ;; return_
  | Some latestVersion =>
      let latest := ReleasesByVersion (store w) !! latestVersion in
      newer <- (if String.eqb current "" then ret true
                else match latest with
                     | None => exit_with Panic            (* latest.Version on nil *)
                     | Some l =>
                         match isNewer (Version l) current with
                         | Some b => ret b
                         | None => exit_with Panic
                         end
                     end) ;;
      if newer : bool
      then write StatusOK (CheckBody true latest "new version available")
      else write StatusOK (CheckBody false latest "up to date")
  end.

End Controller.

(** ** [main] of the gin server (cmd/server/main.go) up to [ListenAndServe],
    in a new process on the disk of [disk] *)

Module GinMain.

Definition main (disk : Server) : Started :=
  let w := set_store empty_store disk in
  match Controller.InitStore (mkConn w []) with
  | (c, inr None) => Serving (world c)                   (* router.SetRouters(g) ... *)
  | (c, _) => Exited (world c)                           (* return *)
  end.

End GinMain.

(* ===================================================================== *)
(** * The device agent (package main of the client) *)
(* ===================================================================== *)

Module Agent.

Module Cfg.
Record Config := mkConfig {
  ServerURL : string;
  DeviceID : string;
  Channel : string;
  InstallDir : string;
  CheckEvery : Z
}.
End Cfg.
Export Cfg (Config).

Record Release := mkRelease {
  Version : string;
  Channel : string;
  URL : string;
  Sha256 : string;
  Notes : string
}.

Record CheckResp := mkCheckResp {
  UpdateAvailable : bool;
  Latest : option Release;
  Message : string
}.

(** A Go [error], by its message. *)
Definition error : Type := string.
Definition errors_New (msg : string) : error := msg.

(** The install directory: regular files with their permission bits, and
    symbolic links. A path names its entry. *)
Inductive Node :=
| File (data : list byte) (perm : Z)
| Symlink (target : string).

(** [exec.Cmd] once started. *)
Record Cmd := mkCmd { Path : string; Pid : Z }.

(** The agent process: the disk and the package variables [currentCmd] and
    [currentVerFP]. *)
Record Device := mkDevice {
  fs : gmap string Node;
  currentCmd : option Cmd;
  currentVerFP : string
}.

(** The calls a cycle makes on the network, the disk and the payload
    process, in order. *)
Inductive Event :=
| EvGet (url : string)
| EvCreate (name : string)
| EvCopy (name : string) (written : list byte)
| EvRemove (name : string)
| EvRename (oldpath newpath : string)
| EvChmod (name : string) (mode : Z)
| EvSymlink (oldname newname : string)
| EvSignal (pid : Z)
| EvKill (pid : Z)
| EvSleep (ms : Z)
| EvStart (bin : string) (result : error + Z)
| EvWriteFile (name : string) (data : list byte).

Record Run := mkRun { dev : Device; log : list Event }.

Definition M (A : Type) : Type := @SE Run error A.

Definition emit (e : Event) : M unit :=
  modify (fun r => mkRun (dev r) (log r ++ [e])).

Definition on_dev (f : Device -> Device) : M unit :=
  modify (fun r => mkRun (f (dev r)) (log r)).

Definition the_dev : M Device := r <- get ;; ret (dev r).

Definition set_fs (f : gmap string Node) (d : Device) : Device :=
  mkDevice f (currentCmd d) (currentVerFP d).
Definition set_currentCmd (c : option Cmd) (d : Device) : Device :=
  mkDevice (fs d) c (currentVerFP d).
Definition set_currentVerFP (p : string) (d : Device) : Device :=
  mkDevice (fs d) (currentCmd d) p.

(** [if err != nil { return err }] *)
Definition check_err (err : option error) : M unit :=
  match err with
  | Some e => exit_with e
  | None => ret tt
  end.

Inductive HttpResult :=
| GetFailed (err : error)
| Got (StatusCode : Z) (Body : list byte).

Inductive WriteFault :=
| OpenFails (err : error)
| WriteFails (n : nat) (err : error).

(** What the network, the disk and the payload answer during one cycle: the
    responses to the two GET requests, the JSON decoder on the body of the
    check, and the error, if any, of [os.Create], [io.Copy] to the file (with
    the bytes copied before it), [os.Open] and [io.Copy] to the hash in the
    verifier, [os.Rename], [os.Chmod], [os.Symlink], [Process.Signal],
    [cmd.Start] (or the process id) and [os.WriteFile]. *)
Record CycleEnv := mkCycleEnv {
  check_Get : string -> HttpResult;
  decode_CheckResp : list byte -> error + CheckResp;
  download_Get : string -> HttpResult;
  create_err : option error;
  copy_fault : option (nat * error);
  open_err : option error;
  read_err : option error;
  rename_err : option error;
  chmod_err : option error;
  symlink_err : option error;
  signal_err : option error;
  start_result : error + Z;
  writefile_fault : option WriteFault
}.

(** The octal modes [0o666] ([os.Create]), [0o644] and [0o755]. *)
Definition mode_0666 : Z := 438.
Definition mode_0644 : Z := 420.
Definition mode_0755 : Z := 493.

Definition node_bytes (n : option Node) : list byte :=
  match n with
  | Some (File data _) => data
  | _ => []
  end.

(** A file opened with [O_CREATE|O_TRUNC] and permission [perm]: emptied, and
    created with [perm] if it was not there. *)
Definition truncated (n : option Node) (perm : Z) : Node :=
  match n with
  | Some (File _ m) => File [] m
  | _ => File [] perm
  end.

Definition with_bytes (n : option Node) (data : list byte) (perm : Z) : Node :=
  match n with
  | Some (File _ m) => File data m
  | _ => File data perm
  end.

Definition readCurrentVersion (d : Device) : string :=
  match fs d !! currentVerFP d with
  | Some (File b _) => string_of_bytes b
  | _ => ""
  end.

Definition downloadToFile (env : CycleEnv) (url dst : string) : M unit :=
  emit (EvGet url) ;;
  match download_Get env url with
  | GetFailed err => exit_with err
  | Got StatusCode Body =>
      (if negb (StatusCode =? 200)
       then exit_with (errors_New ("download failed: " +:+ string_of_bytes Body))
       else ret tt) ;;
      emit (EvCreate dst) ;;
      check_err (create_err env) ;;
      on_dev (fun d => set_fs (<[dst := truncated (fs d !! dst) mode_0666]> (fs d)) d) ;;
      (* _, err = io.Copy(f, resp.Body) *)
      let written := match copy_fault env with
                     | Some (n, _) => firstn n Body
                     | None => Body
                     end in
      emit (EvCopy dst written) ;;
      on_dev (fun d => set_fs (<[dst := with_bytes (fs d !! dst) written mode_0666]> (fs d)) d) ;;
      check_err (snd <$> copy_fault env)
  end.

Definition verifySha256 (env : CycleEnv) (fp want : string) : M bool :=
  check_err (open_err env) ;;
  d <- the_dev ;;
  check_err (read_err env) ;;
  let got := hex_EncodeToString (sha256_Sum (node_bytes (fs d !! fp))) in
  ret (String.eqb got want).

(** The goroutine that waits for the payload to exit only logs. *)
Definition startAlgorithm (env : CycleEnv) (bin : string) : M unit :=
  emit (EvStart bin (start_result env)) ;;
  match start_result env with
  | inl err => exit_with err
  | inr pid => on_dev (set_currentCmd (Some (mkCmd bin pid)))
  end.

(** [currentCmd] is only ever set to a started command, whose [Process] is
    not nil. The error of [Kill] is discarded. *)
Definition stopAlgorithm (env : CycleEnv) : M unit :=
  d <- the_dev ;;
  match currentCmd d with
  | None => ret tt
  | Some cmd =>
      emit (EvSignal (Pid cmd)) ;;
      match signal_err env with
      | Some _ => emit (EvKill (Pid cmd))
      | None => ret tt
      end ;;
      on_dev (set_currentCmd None)
  end.

Definition restartAlgorithm (env : CycleEnv) (bin : string) : M unit :=
  stopAlgorithm env ;;
  emit (EvSleep 300) ;;
  startAlgorithm env bin.

(** [os.WriteFile(name, data, 0o644)] *)
Definition os_WriteFile (env : CycleEnv) (name : string) (data : list byte) : M unit :=
  emit (EvWriteFile name data) ;;
  match writefile_fault env with
  | Some (OpenFails err) => exit_with err
  | Some (WriteFails n err) =>
      on_dev (fun d => set_fs (<[name := with_bytes (fs d !! name) (firstn n data) mode_0644]> (fs d)) d) ;;
      exit_with err
  | None =>
      on_dev (fun d => set_fs (<[name := with_bytes (fs d !! name) data mode_0644]> (fs d)) d)
  end.

(** [os.Remove], its error discarded by both callers. *)
Definition os_Remove (name : string) : M unit :=
  emit (EvRemove name) ;;
  on_dev (fun d => set_fs (delete name (fs d)) d).

Definition os_Rename (env : CycleEnv) (oldpath newpath : string) : M unit :=
  emit (EvRename oldpath newpath) ;;
  check_err (rename_err env) ;;
  on_dev (fun d =>
    match fs d !! oldpath with
    | Some n => set_fs (delete oldpath (<[newpath := n]> (fs d))) d
    | None => d
    end).

Definition os_Chmod (env : CycleEnv) (name : string) (mode : Z) : M unit :=
  emit (EvChmod name mode) ;;
  check_err (chmod_err env) ;;
  on_dev (fun d =>
    match fs d !! name with
    | Some (File data _) => set_fs (<[name := File data mode]> (fs d)) d
    | _ => d
    end).

Definition os_Symlink (env : CycleEnv) (oldname newname : string) : M unit :=
  emit (EvSymlink oldname newname) ;;
  check_err (symlink_err env) ;;
  on_dev (fun d => set_fs (<[newname := Symlink oldname]> (fs d)) d).

Definition runOnce (env : CycleEnv) (cfg : Config) (current : string) : M unit :=
  let u := Cfg.ServerURL cfg +:+ "/check?channel=" +:+ Cfg.Channel cfg
             +:+ "&current=" +:+ current +:+ "&device_id=" +:+ Cfg.DeviceID cfg in
  emit (EvGet u) ;;
  ck <- match check_Get env u with
        | GetFailed err => exit_with err
        | Got StatusCode Body =>
            if negb (StatusCode =? 200)
            then exit_with (errors_New ("check failed: " +:+ string_of_bytes Body))
            else match decode_CheckResp env Body with
                 | inl err => exit_with err
                 | inr ck => ret ck
                 end
        end ;;
  match UpdateAvailable ck, Latest ck with
  | true, Some latest =>
      (* download to a temporary file *)
      let downloadURL := Cfg.ServerURL cfg +:+ URL latest in
      let tmpFile := filepath_Join (Cfg.InstallDir cfg) ("download_" +:+ Version latest) in
      downloadToFile env downloadURL tmpFile ;;
      (* verify sha256 *)
      ok <- verifySha256 env tmpFile (Sha256 latest) ;;
      (if negb ok
       then os_Remove tmpFile ;; exit_with (errors_New "sha256 mismatch")
       else ret tt) ;;
      (* install as algo_<version> *)
      let dst := filepath_Join (Cfg.InstallDir cfg) ("algo_" +:+ Version latest) in
      os_Rename env tmpFile dst ;;
      os_Chmod env dst mode_0755 ;;
      (* switch the symbolic link *)
      let currLink := filepath_Join (Cfg.InstallDir cfg) "algo_current" in
      os_Remove currLink ;;
      os_Symlink env dst currLink ;;
      (* restart *)
      restartAlgorithm env currLink ;;
      (* record the current version *)
      d <- the_dev ;;
      os_WriteFile env (currentVerFP d) (bytes_of_string (Version latest))
  | _, _ => ret tt                          (* no update *)
  end.

(** The outcome of running part of the agent from [d]: the device after it,
    the calls made, and the error returned if any. *)
Record Outcome := mkOutcome { device : Device; calls : list Event; result : error + unit }.

Definition exec (m : M unit) (d : Device) : Outcome :=
  let '(r, res) := m (mkRun d []) in mkOutcome (dev r) (log r) res.

(** One iteration of the loop of [main]: [runOnce(cfg, readCurrentVersion())];
    the error is logged and dropped by the caller. *)
Definition poll (env : CycleEnv) (cfg : Config) (d : Device) : Outcome :=
  exec (runOnce env cfg (readCurrentVersion d)) d.

(** [os.Stat] succeeds on [name]: the entry exists, links followed. *)
Fixpoint stat_ok (fuel : nat) (f : gmap string Node) (name : string) : bool :=
  match fuel with
  | O => false
  | S fuel' =>
      match f !! name with
      | Some (File _ _) => true
      | Some (Symlink target) => stat_ok fuel' f target
      | None => false
      end
  end.

(** [main] before its loop: [currentVerFP] is set, and the installed payload,
    if there is one, is started (a failure to start it is only logged). *)
Definition boot (env : CycleEnv) (cfg : Config) (d : Device) : Device :=
  let d := set_currentVerFP (filepath_Join (Cfg.InstallDir cfg) "current_version") d in
  let currLink := filepath_Join (Cfg.InstallDir cfg) "algo_current" in
  if stat_ok 40 (fs d) currLink
  then device (exec (startAlgorithm env currLink) d)
  else d.

(** The ticks of [main]'s loop, one environment per tick. *)
Fixpoint main_loop (envs : list CycleEnv) (cfg : Config) (d : Device) : Device :=
  match envs with
  | [] => d
  | env :: envs' => main_loop envs' cfg (device (poll env cfg d))
  end.

(** ** What the claims about a cycle speak of *)

(** The URL of the check request. *)
Definition check_url (cfg : Config) (current : string) : string :=
  Cfg.ServerURL cfg +:+ "/check?channel=" +:+ Cfg.Channel cfg
    +:+ "&current=" +:+ current +:+ "&device_id=" +:+ Cfg.DeviceID cfg.

Definition tmpFile_of (cfg : Config) (latest : Release) : string :=
  filepath_Join (Cfg.InstallDir cfg) ("download_" +:+ Version latest).

Definition dst_of (cfg : Config) (latest : Release) : string :=
  filepath_Join (Cfg.InstallDir cfg) ("algo_" +:+ Version latest).

Definition currLink_of (cfg : Config) : string :=
  filepath_Join (Cfg.InstallDir cfg) "algo_current".

(** The value [main] gives [currentVerFP]. *)
Definition currentVerFP_of (cfg : Config) : string :=
  filepath_Join (Cfg.InstallDir cfg) "current_version".

(** The check of this cycle answers 200 with an update to [latest]. *)
Definition offers (env : CycleEnv) (cfg : Config) (current : string) (latest : Release) : Prop :=
  exists body ck,
    check_Get env (check_url cfg current) = Got 200 body
    /\ decode_CheckResp env body = inr ck
    /\ UpdateAvailable ck = true
    /\ Latest ck = Some latest.

(** The download of [latest] writes [body] to the temporary file. *)
Definition downloads (env : CycleEnv) (cfg : Config) (latest : Release) (body : list byte) : Prop :=
  download_Get env (Cfg.ServerURL cfg +:+ URL latest) = Got 200 body
  /\ create_err env = None
  /\ copy_fault env = None.

(** The temporary file can be opened and read by the verifier. *)
Definition readable (env : CycleEnv) : Prop :=
  open_err env = None /\ read_err env = None.

(** No step of the installation fails: [os.Rename], [os.Chmod], [os.Symlink]. *)
Definition installable (env : CycleEnv) : Prop :=
  rename_err env = None /\ chmod_err env = None /\ symlink_err env = None.

(** The calls [stopAlgorithm] makes from [d]. *)
Definition stop_calls (env : CycleEnv) (d : Device) : list Event :=
  match currentCmd d with
  | None => []
  | Some cmd =>
      EvSignal (Pid cmd) ::
      match signal_err env with
      | Some _ => [EvKill (Pid cmd)]
      | None => []
      end
  end.

(** The calls of a cycle from the check to the switch of the link. *)
Definition install_calls (cfg : Config) (d : Device) (latest : Release) (body : list byte)
  : list Event :=
  [EvGet (check_url cfg (readCurrentVersion d));
   EvGet (Cfg.ServerURL cfg +:+ URL latest);
   EvCreate (tmpFile_of cfg latest);
   EvCopy (tmpFile_of cfg latest) body;
   EvRename (tmpFile_of cfg latest) (dst_of cfg latest);
   EvChmod (dst_of cfg latest) mode_0755;
   EvRemove (currLink_of cfg);
   EvSymlink (dst_of cfg latest) (currLink_of cfg)].

(** In a sequence of calls, every write of the record [verFP] comes after a
    successful start of the payload at [currLink]. *)
Fixpoint restarted_before_recording (currLink verFP : string) (started : bool)
    (l : list Event) : bool :=
  match l with
  | [] => true
  | EvStart bin (inr _) :: l' =>
      restarted_before_recording currLink verFP (started || String.eqb bin currLink) l'
  | EvWriteFile name _ :: l' =>
      (negb (String.eqb name verFP) || started)
      && restarted_before_recording currLink verFP started l'
  | _ :: l' => restarted_before_recording currLink verFP started l'
  end.

(** The payload was started successfully at [currLink] during the calls. *)
Definition restarted (currLink : string) (l : list Event) : Prop :=
  exists pid, In (EvStart currLink (inr pid)) l.

(** ** Assertions about a cycle *)

(** What C6 says of one cycle, as a property of its outcome. *)
Definition record_follows_restart (env : CycleEnv) (cfg : Config) (d : Device)
    (o : Outcome) : Prop :=
  restarted_before_recording (currLink_of cfg) (currentVerFP_of cfg) false (calls o) = true
  /\ (~ restarted (currLink_of cfg) (calls o) ->
      fs (device o) !! currentVerFP_of cfg = fs d !! currentVerFP_of cfg
      /\ readCurrentVersion (device o) = readCurrentVersion d)
  /\ (result o = inr tt -> restarted (currLink_of cfg) (calls o) ->
      exists latest,
        offers env cfg (readCurrentVersion d) latest
        /\ readCurrentVersion (device o) = Version latest)
  /\ currentVerFP (device o) = currentVerFP d.

(** Calls that neither start the payload successfully nor write a file
    with [os.WriteFile]. *)
Definition harmless (e : Event) : Prop :=
  match e with
  | EvStart _ (inr _) | EvWriteFile _ _ => False
  | _ => True
  end.

(** The state of a cycle begun at [d] that has not restarted the payload
    yet: the record is as at the start of the cycle. *)
Definition quiet (cfg : Config) (d : Device) (r : Run) : Prop :=
  fs (dev r) !! currentVerFP_of cfg = fs d !! currentVerFP_of cfg
  /\ currentVerFP (dev r) = currentVerFP d
  /\ Forall harmless (log r).

Definition stays_quiet (cfg : Config) (d : Device) {A} (m : M A) : Prop :=
  forall r, quiet cfg d r -> quiet cfg d (fst (m r)).

Definition outcome_of (x : Run * (error + unit)) : Outcome :=
  mkOutcome (dev (fst x)) (log (fst x)) (snd x).

(** From a quiet state, [m] ends in an outcome of which C6 holds. *)
Definition ends_well (env : CycleEnv) (cfg : Config) (d : Device) (m : M unit) : Prop :=
  forall r, quiet cfg d r -> record_follows_restart env cfg d (outcome_of (m r)).

(** ** A sample device and cycle *)

Definition drone : Config := Cfg.mkConfig "http://ota" "drone-1" "beta" "/opt/algo" 10.

Definition release_2_0_0 : Release :=
  mkRelease "2.0.0" "beta" "/download/2.0.0"
    "ba7816bf8f01cfea414140de5dae2223b00361a396177a9cb410ff61f20015ad" "".

(** A server that offers 2.0.0 and serves [body] for it; nothing fails on the
    device. *)
Definition serving (body : list byte) : CycleEnv :=
  mkCycleEnv (fun _ => Got 200 []) (fun _ => inr (mkCheckResp true (Some release_2_0_0) "new version available"))
             (fun _ => Got 200 body)
             None None None None None None None None (inr 4242) None.

(** A device running 1.5.0. *)
Definition device_1_5_0 : Device :=
  mkDevice {[ "/opt/algo/current_version" := File (bytes_of_string "1.5.0") mode_0644 ]}
           (Some (mkCmd "/opt/algo/algo_current" 4100))
           "/opt/algo/current_version".

(** A server that offers [rel] and serves [body] for it; nothing fails on
    the device. *)
Definition offering (rel : Release) (body : list byte) : CycleEnv :=
  mkCycleEnv (fun _ => Got 200 [])
             (fun _ => inr (mkCheckResp true (Some rel) "new version available"))
             (fun _ => Got 200 body)
             None None None None None None None None (inr 4242) None.

(** The same, except that the payload cannot be started. *)
Definition unstartable (rel : Release) (body : list byte) : CycleEnv :=
  mkCycleEnv (fun _ => Got 200 [])
             (fun _ => inr (mkCheckResp true (Some rel) "new version available"))
             (fun _ => Got 200 body)
             None None None None None None None None (inl "exec format error") None.

(** The same, except that the link cannot be created. *)
Definition unlinkable (rel : Release) (body : list byte) : CycleEnv :=
  mkCycleEnv (fun _ => Got 200 [])
             (fun _ => inr (mkCheckResp true (Some rel) "new version available"))
             (fun _ => Got 200 body)
             None None None None None None (Some "symlink: permission denied") None
             (inr 4242) None.

(** The same as [offering], except that the connection breaks after [n]
    bytes of the download. *)
Definition cut_off (rel : Release) (body : list byte) (n : nat) : CycleEnv :=
  mkCycleEnv (fun _ => Got 200 [])
             (fun _ => inr (mkCheckResp true (Some rel) "new version available"))
             (fun _ => Got 200 body)
             None (Some (n, "unexpected EOF")) None None None None None None (inr 4242) None.

(** A release whose version is the name of the link, and one whose digest is
    written in upper case. *)
Definition release_current : Release :=
  mkRelease "current" "beta" "/download/current"
    "ba7816bf8f01cfea414140de5dae2223b00361a396177a9cb410ff61f20015ad" "".

Definition release_upper_case : Release :=
  mkRelease "2.0.0" "beta" "/download/2.0.0"
    "BA7816BF8F01CFEA414140DE5DAE2223B00361A396177A9CB410FF61F20015AD" "".

(** A server that answers the check with 404. *)
Definition no_release : CycleEnv :=
  mkCycleEnv (fun _ => Got 404 (bytes_of_string "no release in channel"))
             (fun _ => inl "EOF") (fun _ => Got 404 [])
             None None None None None None None None (inr 4242) None.

End Agent.

(* ===================================================================== *)
(** * The three server programs and their requests *)
(* ===================================================================== *)

(** The net/http server, and the gin server at the two revisions of its
    controller. *)
Inductive program := NetHttp | GinOld | Gin.

Definition publish (p : program) : PublishEnv -> PublishReq -> Handler unit :=
  match p with
  | NetHttp => ServerMain.handlePublish
  | GinOld => ControllerOld.Publish
  | Gin => Controller.Publish
  end.

Inductive Request :=
| ReqPublish (env : PublishEnv) (r : PublishReq)
| ReqCheck (r : CheckReq)
| ReqDownload (path : string).

(** A request no route of the program matches. *)
Definition no_route : Handler unit := write StatusNotFound (TextBody "404 page not found").

Section Routes.
Variable strconv_Quote : string -> string.

(** [http.HandleFunc] in [main] of the net/http server; [SetRouters] at the
    two revisions of the router, with the handlers the sources define. *)
Definition route (p : program) (q : Request) : Handler unit :=
  match p, q with
  | NetHttp, ReqPublish env r => ServerMain.handlePublish env r
  | NetHttp, ReqCheck r => ServerMain.handleCheck r
  | NetHttp, ReqDownload path => ServerMain.handleDownload strconv_Quote path
  | GinOld, ReqPublish env r => ControllerOld.Publish env r
  | Gin, ReqPublish env r => Controller.Publish env r
  | Gin, ReqCheck r => Controller.Check r
  | _, _ => no_route
  end.

(** The process after serving the requests in order. *)
Definition run (p : program) (qs : list Request) (w : Server) : Server :=
  fold_left (fun w q => after (serve (route p q) w)) qs w.
End Routes.

(** Every value of [LatestByChannel] is a key of [ReleasesByVersion]. *)
Definition store_inv (st : Store) : Prop :=
  forall channel version,
    LatestByChannel st !! channel = Some version ->
    is_Some (ReleasesByVersion st !! version).

(** The invariant of the process: it holds of the store in memory and of the
    snapshot on disk, if one can be read. *)
Definition server_inv (w : Server) : Prop :=
  store_inv (store w) /\
  (forall st, storeFile_content w = inr st -> store_inv st).

(** The error [saveStore] returns under [env], if any. *)
Definition saveStore_error (p : program) (env : PublishEnv) : option string :=
  match p with
  | NetHttp => save_err env
  | GinOld | Gin =>
      match save_mkdir_err env with
      | Some e => Some e
      | None => save_err env
      end
  end.

(** The request passes the handler's validation. *)
Definition accepted (p : program) (r : PublishReq) (file : Upload) : Prop :=
  strings_TrimSpace (form_version r) <> "" /\
  form_file r = inr file /\
  match p with
  | NetHttp => Method r = "POST" /\ multipart_err r = None
  | GinOld | Gin => True
  end.

(** Every step of the artifact write succeeds under [env]. *)
Definition artifact_written (p : program) (env : PublishEnv) : Prop :=
  mkdirall_err env = None /\ create_err env = None /\ copy_fault env = None /\
  match p with
  | NetHttp => True
  | GinOld => reopen_err env = None /\ upload_open_err env = None
  | Gin => upload_open_err env = None
  end.

(** The channel a publish request names, defaulted. *)
Definition effective_channel (p : program) (r : PublishReq) : string :=
  let c := match p with
           | NetHttp => form_channel r
           | GinOld | Gin => strings_TrimSpace (form_channel r)
           end in
  if String.eqb c "" then "stable" else c.

(** The check handler of a program (the first router has no check route). *)
Definition check (p : program) : CheckReq -> Handler unit :=
  match p with
  | NetHttp => ServerMain.handleCheck
  | GinOld => fun _ => no_route
  | Gin => Controller.Check
  end.

(** The channel a check request names: [q.Get] with the default applied to
    an empty value, [g.DefaultQuery] with the default applied to an absent
    key. *)
Definition checked_channel (p : program) (r : CheckReq) : string :=
  match p with
  | NetHttp =>
      let c := default "" (query_channel r) in
      if String.eqb c "" then "stable" else c
  | GinOld | Gin => default "stable" (query_channel r)
  end.

Definition current_version (r : CheckReq) : string := default "" (query_current r).

(** The store a check looks the channel up in: the store in memory, which the
    controller first reloads from [storeFile]. *)
Definition consulted_store (p : program) (w : Server) : Store :=
  match p with
  | Gin => store (after (serve Controller.loadStore w))
  | NetHttp | GinOld => store w
  end.

(** The one response a check gives on a channel with no release. *)
Definition unknown_channel_response (p : program) : Write :=
  match p with
  | NetHttp => Wrote StatusNotFound (TextBody "no release in channel")
  | GinOld | Gin =>
      Wrote StatusInternalServerError
        (FailureBody StatusInternalServerError "Internal Server Error" "no release in channel")
  end.

(** The one response a publish gives when [saveStore] returns [e]. *)
Definition save_failure_response (p : program) (e : string) : Write :=
  match p with
  | NetHttp => Wrote StatusInternalServerError (TextBody ("save metadata: " +:+ e))
  | GinOld | Gin =>
      Wrote StatusInternalServerError
        (FailureBody StatusInternalServerError "Internal Server Error" ("save metadata: " +:+ e))
  end.

(** A path segment holds no '/'. *)
Fixpoint has_slash (s : string) : bool :=
  match s with
  | EmptyString => false
  | String c s' => Ascii.eqb c "/" || has_slash s'
  end.

(** ** Sample requests *)

(** An environment in which nothing fails. *)
Definition calm : PublishEnv := mkPublishEnv 1700000000 None None None None None None None.

(** The same, except that the snapshot cannot be renamed into place. *)
Definition disk_full : PublishEnv :=
  mkPublishEnv 1700000000 None None None None None None (Some "rename: no space left on device").

Definition payload : Upload := mkUpload "algorithm.bin" (bytes_of_string "abc").

Definition publish_1_0_0 : PublishReq :=
  mkPublishReq "POST" None "1.0.0" "" "first release" (inr payload).

Definition publish_blank_version : PublishReq :=
  mkPublishReq "POST" None "  " "" "no version" (inr payload).

Definition publish_without_file : PublishReq :=
  mkPublishReq "POST" None "1.0.0" "" "no file" (inl "http: no such file").

Definition check_stable_from (current : string) : CheckReq :=
  mkCheckReq (Some "stable") (Some current) None.

(** The net/http server after one successful publish of "1.0.0". *)
Definition one_release : Server :=
  after (serve (ServerMain.handlePublish calm publish_1_0_0) fresh_server).

Definition release_1_0_0 : Release :=
  mkRelease "1.0.0" "stable" "/download/1.0.0"
    "ba7816bf8f01cfea414140de5dae2223b00361a396177a9cb410ff61f20015ad"
    "first release" 1700000000 "../../artifacts/1.0.0/algorithm".

(** A process whose store holds a beta release the snapshot on disk does not
    have yet (an earlier [saveStore] failed). *)
Definition ahead_of_disk : Server :=
  mkServer (mkStore {["2.0.0" := mkRelease "2.0.0" "beta" "/download/2.0.0"
                        "e3b0c44298fc1c149afbf4c8996fb92427ae41e4649b934ca495991b7852b855"
                        "" 1700000000 "../../artifacts/2.0.0/algorithm"]}
                    {["beta" := "2.0.0"]})
           ∅ ∅ (inr empty_store).

(* ===================================================================== *)
(** * The comparator as the specification words it *)
(* ===================================================================== *)

Module VersionSpec.

(** Strip any suffix after the first '-'. *)
Fixpoint strip_suffix (s : string) : string :=
  match s with
  | EmptyString => EmptyString
  | String c s' => if Ascii.eqb c "-" then EmptyString else String c (strip_suffix s')
  end.

(** The [i]-th component of [s] split on '.', [None] when it is missing. *)
Fixpoint component (i : nat) (s : string) : option string :=
  match s with
  | EmptyString => match i with O => Some EmptyString | S _ => None end
  | String c s' =>
      if Ascii.eqb c "."
      then match i with O => Some EmptyString | S i' => component i' s' end
      else match i with
           | O => String c <$> component O s'
           | S _ => component i s'
           end
  end.

Fixpoint all_digits (s : string) : bool :=
  match s with
  | EmptyString => true
  | String c s' => is_digit c && all_digits s'
  end.

(** The decimal digits [s] begins with. *)
Fixpoint digit_prefix (s : string) : string :=
  match s with
  | EmptyString => EmptyString
  | String c s' => if is_digit c then String c (digit_prefix s') else EmptyString
  end.

(** The number [n] followed by the decimal digits of [s]. *)
Fixpoint decimal_from (n : Z) (s : string) : Z :=
  match s with
  | EmptyString => n
  | String c s' => decimal_from (n * 10 + (code c - 48)) s'
  end.

Definition decimal (s : string) : Z := decimal_from 0 s.

(** A numeric component is a non-empty string of decimal digits. *)
Definition numeric (c : string) : bool :=
  negb (String.eqb c "") && all_digits c.

(** The value of a component as the specification states it: its number, 0
    when it is not numeric. *)
Definition stated_value (c : string) : Z :=
  if numeric c then decimal c else 0.

(** The value of a non-empty component once a leading '+' is gone: a string
    of digits counts up to 2^63-1; anything else is 0, unless its leading
    digits already exceed 2^64-1, which also gives 2^63-1. *)
Definition digits_value (d : string) : Z :=
  let v := decimal (digit_prefix d) in
  if all_digits d then Z.min v maxInt64
  else if 2 ^ 64 <=? v then maxInt64 else 0.

(** The value of a component with the cap: an optional leading '+' is
    dropped, an empty rest is 0. *)
Definition saturating_value (c : string) : Z :=
  let d := match c with
           | String ch r => if Ascii.eqb ch "+" then r else c
           | EmptyString => c
           end in
  match d with
  | EmptyString => 0
  | _ => digits_value d
  end.

(** (major, minor, patch) of a version string, for a valuation of components. *)
Definition triplet (value : string -> Z) (s : string) : Z * Z * Z :=
  let p := strip_suffix s in
  let comp (i : nat) := match component i p with
                        | Some c => value c
                        | None => 0
                        end in
  (comp 0%nat, comp 1%nat, comp 2%nat).

(** Strictly greater in the lexicographic order of triplets. *)
Definition triplet_gt (x y : Z * Z * Z) : bool :=
  let '(x1, x2, x3) := x in
  let '(y1, y2, y3) := y in
  (y1 <? x1) || ((x1 =? y1) && ((y2 <? x2) || ((x2 =? y2) && (y3 <? x3)))).

Fixpoint has_dash (s : string) : bool :=
  match s with
  | EmptyString => false
  | String c s' => Ascii.eqb c "-" || has_dash s'
  end.

End VersionSpec.

(* ===================================================================== *)
(** * Invariants of the store, and the wire between server and agent *)
(* ===================================================================== *)

(** A version component's text: no '.' and no '-'. *)
Fixpoint plain (s : string) : bool :=
  match s with
  | EmptyString => true
  | String c s' => negb (Ascii.eqb c ".") && negb (Ascii.eqb c "-") && plain s'
  end.

(** A character of [hextable]. *)
Definition lower_hex (c : ascii) : bool :=
  ((48 <=? code c) && (code c <=? 57)) || ((97 <=? code c) && (code c <=? 102)).

Fixpoint all_lower_hex (s : string) : bool :=
  match s with
  | EmptyString => true
  | String c s' => lower_hex c && all_lower_hex s'
  end.

(** The text of a SHA-256 digest: 64 characters of [hextable]. *)
Definition digest_text (s : string) : Prop :=
  String.length s = 64%nat /\ all_lower_hex s = true.

(** The handlers that return after rejecting a blank version. *)
Definition rejects_blank (p : program) : bool :=
  match p with
  | GinOld => false
  | NetHttp | Gin => true
  end.

(** A release as [publish] records it under the key [v]. *)
Definition release_wf (p : program) (v : string) (rel : Release) : Prop :=
  Version rel = v
  /\ URL rel = "/download/" +:+ v
  /\ Channel rel <> ""
  /\ digest_text (Sha256 rel)
  /\ (rejects_blank p = true -> v <> "").

Definition store_wf (p : program) (st : Store) : Prop :=
  (forall v rel, ReleasesByVersion st !! v = Some rel -> release_wf p v rel)
  /\ (forall c, is_Some (LatestByChannel st !! c) -> c <> "").

(** It holds of the store in memory and of the snapshot on disk, if one can
    be read. *)
Definition server_wf (p : program) (w : Server) : Prop :=
  store_wf p (store w) /\
  (forall st, storeFile_content w = inr st -> store_wf p st).

(** The maps of the store at every key but one. *)
Definition elsewhere (version channel : string) (st0 : Store) (w : Server) : Prop :=
  (forall v, v <> version -> ReleasesByVersion (store w) !! v = ReleasesByVersion st0 !! v)
  /\ (forall c, c <> channel -> LatestByChannel (store w) !! c = LatestByChannel st0 !! c).

(** A start-up in which both directories can be made. *)
Definition plain_start : StartEnv := mkStartEnv None None (fun st => st).

(** The release as the agent decodes it from the JSON the server encodes:
    the members named alike; created_at has no field to go to. *)
Definition wire (rel : Release) : Agent.Release :=
  Agent.mkRelease (Version rel) (Channel rel) (URL rel) (Sha256 rel) (Notes rel).

(** The check of the agent's cycle is answered as the server [p] in the state
    [w] answers a check of the agent's channel and current version (both
    taken as texts the query string carries unchanged): status 200, and a
    body that decodes to the members the server wrote. *)
Definition answers_as (p : program) (w : Server) (env : Agent.CycleEnv)
    (cfg : Agent.Cfg.Config) (current : string) : Prop :=
  exists body update_available latest message,
    response (serve (check p (mkCheckReq (Some (Agent.Cfg.Channel cfg)) (Some current)
                                         (Some (Agent.Cfg.DeviceID cfg)))) w)
    = [Wrote StatusOK (CheckBody update_available latest message)]
    /\ Agent.check_Get env (Agent.check_url cfg current) = Agent.Got 200 body
    /\ Agent.decode_CheckResp env body
       = inr (Agent.mkCheckResp update_available (wire <$> latest) message).

(** A server whose check reports [rel] as the latest and no update. *)
Definition up_to_date_with (rel : Release) : Agent.CycleEnv :=
  Agent.mkCycleEnv (fun _ => Agent.Got 200 [])
    (fun _ => inr (Agent.mkCheckResp false (Some (wire rel)) "up to date"))
    (fun _ => Agent.Got 404 [])
    None None None None None None None None (inr 4242) None.

(** A device on the stable channel that records 1.0.0. *)
Definition drone_stable : Agent.Cfg.Config :=
  Agent.Cfg.mkConfig "http://ota" "drone-1" "stable" "/opt/algo" 10.

Definition device_1_0_0 : Agent.Device :=
  Agent.mkDevice
    {[ "/opt/algo/current_version" := Agent.File (bytes_of_string "1.0.0") Agent.mode_0644 ]}
    (Some (Agent.mkCmd "/opt/algo/algo_current" 4242))
    "/opt/algo/current_version".

(* ===================================================================== *)
(** * Assertions and tactics of the proofs *)
(* ===================================================================== *)

(** Running [m] keeps the assertion [I] about the process, however [m] ends. *)
Definition keeps {A} (I : Server -> Prop) (m : Handler A) : Prop :=
  forall c, I (world c) -> I (world (fst (m c))).

(** Unfold a handler down to the state-and-exit functions it is made of. *)
Ltac unfold_handler :=
  unfold serve, publish, route, no_route,
    ServerMain.handlePublish, ServerMain.handleCheck, ServerMain.handleDownload,
    ServerMain.saveStore,
    ControllerOld.Publish, ControllerOld.saveStore,
    Controller.Publish, Controller.Check, Controller.loadStore, Controller.saveStore,
    controller_saveStore, ResponseFailure, http_Error, return_, write, on_world,
    the_world, os_MkdirAll, os_Create, io_Copy, read_file in *;
  unfold bind, ret, exit_with, modify, get in *.

(** Follow every branch of an unfolded handler. *)
Ltac branches :=
  repeat (simpl in *; simplify_eq; try done; try case_match).

(** The lookup and the answer, shared by both check handlers. *)
Ltac check_answer Hl Hr Ht r :=
  simpl; rewrite ?Hl, ?Hr; simpl;
  let Hc := fresh "Hc" in
  destruct (String.eqb (default "" (query_current r)) "") eqn:Hc;
  [ simpl; do 3 eexists; split; [reflexivity|];
    apply String.eqb_eq in Hc; tauto
  | assert (default "" (query_current r) <> "") by (intros E; rewrite E in Hc; done);
    match goal with
    | |- context [isNewer ?a ?b] =>
        destruct (isNewer a b) as [[]|]; [| |done]; simpl;
        do 3 eexists; (split; [reflexivity|]); split; intros; try tauto; try done;
        match goal with H : _ \/ _ |- _ => destruct H; done end
    end ].

(* ===================================================================== *)
(** * Checks of the library model *)
(* ===================================================================== *)

(** The computed tables begin and end as [_K] and the initial value of
    crypto/sha256 do. *)
Example sha256_tables :
  nth 0 _K 0 = 0x428a2f98 /\ nth 63 _K 0 = 0xc67178f2
  /\ List.length _K = 64%nat
  /\ nth 0 init_h 0 = 0x6a09e667 /\ nth 7 init_h 0 = 0x5be0cd19.
Proof. by vm_compute. Qed.

(** The digests of the empty string, of "abc" and of a two-block message. *)
Example sha256_vectors :
  sha256_hex [] = "e3b0c44298fc1c149afbf4c8996fb92427ae41e4649b934ca495991b7852b855"
  /\ sha256_hex (bytes_of_string "abc")
     = "ba7816bf8f01cfea414140de5dae2223b00361a396177a9cb410ff61f20015ad"
  /\ sha256_hex (bytes_of_string "abcdbcdecdefdefgefghfghighijhijkijkljklmklmnlmnomnopnopq")
     = "248d6a61d20638b8e5c026930c3e6039a33ce45964ff2167f6ecedd419db06c1".
Proof. by vm_compute. Qed.

Example strings_examples :
  strings_TrimSpace "  1.0.0 " = "1.0.0"
  /\ strings_SplitN "1.2.0-rc1-x" "-" 2 = ["1.2.0"; "rc1-x"]
  /\ strings_Split "1.2..0" "." = ["1"; "2"; ""; "0"]
  /\ strings_Split "" "." = [""]
  /\ strconv_Atoi "+12" = (12, None)
  /\ strconv_Atoi "12x" = (0, Some ErrSyntax)
  /\ strconv_Atoi "9223372036854775808" = (9223372036854775807, Some ErrRange)
  /\ path_Base "../../artifacts/1.0.0/algorithm" = "algorithm"
  /\ filepath_Dir storeFile = dataDir.
Proof. by vm_compute. Qed.

(* ===================================================================== *)
(** * Proofs: the version comparator *)
(* ===================================================================== *)

Section ComparatorProofs.
Import VersionSpec.

Lemma code_range c : 0 <= code c < 256.
Proof.
  unfold code. pose proof (N_ascii_bounded c) as Hb. lia.
Qed.

Lemma digit_range c : is_digit c = true -> 0 <= code c - 48 <= 9.
Proof. unfold is_digit. lia. Qed.

Lemma decimal_from_ge s : forall n, 0 <= n -> all_digits s = true -> n <= decimal_from n s.
Proof.
  induction s as [|c s IH]; intros n Hn Hd; simpl in *; [lia|].
  apply andb_true_iff in Hd as [Hc Hs]. apply digit_range in Hc.
  specialize (IH (n * 10 + (code c - 48)) ltac:(lia) Hs). lia.
Qed.

Lemma all_digits_prefix s : all_digits (digit_prefix s) = true.
Proof.
  induction s as [|c s IH]; simpl; [done|].
  destruct (is_digit c) eqn:Hc; simpl; [by rewrite Hc|done].
Qed.

Lemma digit_prefix_all s : all_digits s = true -> digit_prefix s = s.
Proof.
  induction s as [|c s IH]; simpl; [done|].
  intros [Hc Hs]%andb_true_iff. rewrite Hc. by rewrite IH.
Qed.

Lemma decimal_from_lt s : forall n, 0 <= n -> all_digits s = true ->
  decimal_from n s < (n + 1) * 10 ^ Z.of_nat (String.length s).
Proof.
  induction s as [|c s IH]; intros n Hn Hd; simpl String.length; simpl decimal_from.
  - change (10 ^ Z.of_nat 0) with 1. lia.
  - simpl in Hd. apply andb_true_iff in Hd as [Hc Hs]. apply digit_range in Hc.
    specialize (IH (n * 10 + (code c - 48)) ltac:(lia) Hs).
    rewrite Nat2Z.inj_succ, Z.pow_succ_r by lia.
    assert (0 < 10 ^ Z.of_nat (String.length s)) by (apply Z.pow_pos_nonneg; lia).
    nia.
Qed.

Lemma length_digit_prefix s : (String.length (digit_prefix s) <= String.length s)%nat.
Proof.
  induction s as [|c s IH]; simpl; [lia|].
  destruct (is_digit c); simpl; lia.
Qed.

(** The digit loop of ParseUint: overflow beyond 2^64-1 is reported as soon
    as the digits read so far exceed it, a non-digit met before that is a
    syntax error. *)
Lemma parseUint_loop_spec s : forall n, 0 <= n < 2 ^ 64 ->
  parseUint_loop s n =
    if 2 ^ 64 <=? decimal_from n (digit_prefix s) then (maxUint64, Some ErrRange)
    else if all_digits s then (decimal_from n s, None)
    else (0, Some ErrSyntax).
Proof.
  induction s as [|c s IH]; intros n Hn; simpl.
  - destruct (Z.leb_spec (2 ^ 64) n); [lia|done].
  - destruct (is_digit c) eqn:Hc; simpl.
    + pose proof (digit_range c Hc) as Hd.
      change (maxUint64 / 10 + 1) with 1844674407370955162.
      change maxUint64 with 18446744073709551615.
      change (2 ^ 64) with 18446744073709551616 in *.
      pose proof (decimal_from_ge (digit_prefix s) (n * 10 + (code c - 48))
                    ltac:(lia) (all_digits_prefix s)) as Hge.
      destruct (Z.leb_spec 1844674407370955162 n) as [Hcut|Hcut].
      * destruct (Z.leb_spec 18446744073709551616
                    (decimal_from (n * 10 + (code c - 48)) (digit_prefix s))); [done|lia].
      * destruct (Z_lt_le_dec (n * 10 + (code c - 48)) 18446744073709551616) as [Hs|Hb].
        -- rewrite (Z.mod_small (n * 10 + (code c - 48))) by lia.
           destruct (Z.ltb_spec (n * 10 + (code c - 48)) (n * 10)); [lia|].
           destruct (Z.ltb_spec 18446744073709551615 (n * 10 + (code c - 48))); [lia|].
           simpl. apply IH. lia.
        -- assert ((n * 10 + (code c - 48)) mod 18446744073709551616
                   = n * 10 + (code c - 48) - 18446744073709551616) as ->.
           { symmetry. apply (Z.mod_unique _ _ 1); lia. }
           destruct (Z.ltb_spec (n * 10 + (code c - 48) - 18446744073709551616) (n * 10));
             [|lia]. simpl.
           destruct (Z.leb_spec 18446744073709551616
                       (decimal_from (n * 10 + (code c - 48)) (digit_prefix s))); [done|lia].
    + destruct (Z.leb_spec (2 ^ 64) n); [lia|done].
Qed.

(** The digit loop of Atoi's fast path. *)
Lemma atoi_digits_spec s : forall n,
  atoi_digits s n = if all_digits s then Some (decimal_from n s) else None.
Proof.
  induction s as [|c s IH]; intros n; simpl; [done|].
  pose proof (code_range c) as Hr. unfold is_digit.
  destruct (Z.leb_spec 48 (code c)) as [H1|H1]; simpl.
  - rewrite (Z.mod_small (code c - 48)) by lia.
    destruct (Z.leb_spec (code c) 57); simpl.
    + destruct (Z.ltb_spec 9 (code c - 48)); [lia|]. apply IH.
    + destruct (Z.ltb_spec 9 (code c - 48)); [done|lia].
  - assert ((code c - 48) mod 256 = code c - 48 + 256) as ->.
    { symmetry. apply (Z.mod_unique _ _ (-1)); lia. }
    destruct (Z.ltb_spec 9 (code c - 48 + 256)); [done|lia].
Qed.

Lemma decimal_small s : all_digits s = true -> (String.length s <= 18)%nat ->
  decimal s < 10 ^ 18.
Proof.
  intros Hd Hl. unfold decimal.
  pose proof (decimal_from_lt s 0 ltac:(lia) Hd) as Hlt.
  assert (10 ^ Z.of_nat (String.length s) <= 10 ^ 18)
    by (apply Z.pow_le_mono_r; lia).
  lia.
Qed.

Lemma fast_path_value d : (String.length d <= 18)%nat ->
  match atoi_digits d 0 with Some n => n | None => 0 end = digits_value d.
Proof.
  intros Hl. rewrite atoi_digits_spec. unfold digits_value.
  destruct (all_digits d) eqn:Hd.
  - rewrite (digit_prefix_all d Hd). pose proof (decimal_small d Hd Hl).
    unfold decimal in *. unfold maxInt64.
    change (2 ^ 63 - 1) with 9223372036854775807.
    change (10 ^ 18) with 1000000000000000000 in *. lia.
  - pose proof (decimal_small (digit_prefix d) (all_digits_prefix d)
                  ltac:(pose proof (length_digit_prefix d); lia)) as Hs.
    change (10 ^ 18) with 1000000000000000000 in *.
    change (2 ^ 64) with 18446744073709551616.
    destruct (Z.leb_spec 18446744073709551616 (decimal (digit_prefix d))); [lia|done].
Qed.

Lemma slow_path_value d : d <> EmptyString ->
  fst (match strconv_ParseUint d with
       | (_, Some ErrSyntax) => (0, Some ErrSyntax)
       | (un, _) =>
           if negb false && (2 ^ 63 <=? un) then (2 ^ 63 - 1, Some ErrRange)
           else if false && (2 ^ 63 <? un) then (- 2 ^ 63, Some ErrRange)
           else (if false then - un else un, None)
       end) = digits_value d.
Proof.
  intros Hne. unfold strconv_ParseUint, digits_value.
  destruct d as [|c d']; [done|].
  rewrite parseUint_loop_spec by (change (2 ^ 64) with 18446744073709551616; lia).
  fold (decimal (digit_prefix (String c d'))). fold (decimal (String c d')).
  unfold maxInt64, maxUint64.
  change (2 ^ 64) with 18446744073709551616.
  change (2 ^ 63) with 9223372036854775808.
  destruct (Z.leb_spec 18446744073709551616 (decimal (digit_prefix (String c d')))) as [Ho|Ho].
  - change (9223372036854775808 <=? 18446744073709551616 - 1) with true.
    cbn [negb andb fst]. destruct (all_digits (String c d')); [lia|done].
  - destruct (all_digits (String c d')) eqn:Hd; [|done].
    rewrite (digit_prefix_all _ Hd) in *.
    destruct (Z.leb_spec 9223372036854775808 (decimal (String c d')));
      cbn [negb andb fst]; lia.
Qed.

(** [strconv.Atoi] on a string without '-', error discarded. *)
Lemma Atoi_saturating c : has_dash c = false ->
  fst (strconv_Atoi c) = saturating_value c.
Proof.
  intros Hnd. destruct c as [|ch rest]; [done|].
  simpl in Hnd. apply orb_false_iff in Hnd as [Hch _].
  unfold strconv_Atoi, saturating_value.
  set (d := if Ascii.eqb ch "+" then rest else String ch rest).
  destruct ((0 <? Z.of_nat (String.length (String ch rest)))
            && (Z.of_nat (String.length (String ch rest)) <? 19)) eqn:Hfast.
  - apply andb_true_iff in Hfast as [_ Hlen%Z.ltb_lt].
    rewrite Hch. simpl orb.
    fold d.
    assert (String.length d <= 18)%nat as Hd.
    { subst d. simpl in Hlen. destruct (Ascii.eqb ch "+"); simpl; lia. }
    destruct d as [|c0 d'] eqn:Ed.
    + destruct (Ascii.eqb ch "+") eqn:Hp; [done|discriminate].
    + assert ((Ascii.eqb ch "+" && (Z.of_nat (String.length (String c0 d')) <? 1)) = false) as ->.
      { simpl String.length. destruct (Z.ltb_spec (Z.of_nat (S (String.length d'))) 1); [lia|].
        apply andb_false_r. }
      pose proof (fast_path_value (String c0 d') Hd) as Hv.
      fold (digits_value (String c0 d')). rewrite <- Hv.
      destruct (atoi_digits (String c0 d') 0); done.
  - unfold strconv_ParseInt. rewrite Hch, orb_false_r. fold d.
    destruct d as [|c0 d'] eqn:Ed; [done|].
    rewrite (slow_path_value (String c0 d')) by done. done.
Qed.

Lemma SplitN_head s : exists t, strings_SplitN s "-" 2 = strip_suffix s :: t.
Proof.
  induction s as [|c s [t IH]]; [by exists []|].
  cbn [strings_SplitN strip_suffix]. fold (strings_SplitN s "-" 2).
  destruct (Ascii.eqb c "-"); [by eexists|].
  rewrite IH. by eexists.
Qed.

Lemma Split_nonempty s sep : strings_Split s sep <> [].
Proof.
  destruct s as [|c s]; simpl; [done|].
  destruct (Ascii.eqb c sep); [done|]. by destruct (strings_Split s sep).
Qed.

Lemma Split_nth s : forall i, nth_error (strings_Split s ".") i = component i s.
Proof.
  induction s as [|c s IH]; intros i; simpl.
  - destruct i as [|[|i]]; done.
  - destruct (Ascii.eqb c "."); [destruct i; [done|apply IH]|].
    pose proof (Split_nonempty s ".") as Hne.
    destruct (strings_Split s ".") as [|h t] eqn:Es; [done|].
    destruct i as [|i]; simpl.
    + by rewrite <- (IH 0%nat).
    + by rewrite <- (IH (S i)).
Qed.

Lemma has_dash_strip s : has_dash (strip_suffix s) = false.
Proof.
  induction s as [|c s IH]; simpl; [done|].
  destruct (Ascii.eqb c "-") eqn:Hc; simpl; [done|]. by rewrite Hc.
Qed.

Lemma component_no_dash s : forall i c,
  component i s = Some c -> has_dash s = false -> has_dash c = false.
Proof.
  induction s as [|ch s IH]; intros i c Hc Hs; simpl in *.
  - destruct i; by simplify_eq.
  - apply orb_false_iff in Hs as [Hch Hs].
    destruct (Ascii.eqb ch ".").
    + destruct i; [by simplify_eq|]. by eapply IH.
    + destruct i as [|i]; [|by eapply IH].
      destruct (component 0 s) as [c0|] eqn:E0; simplify_eq/=.
      rewrite Hch. simpl. by eapply IH.
Qed.

(** The closure [parse] never panics and yields the triplet of saturated
    component values. *)
Lemma parse_spec s : parse s = Some (triplet saturating_value s).
Proof.
  unfold parse, triplet. destruct (SplitN_head s) as [t ->].
  assert (forall i,
    (if (List.length (strings_Split (strip_suffix s) ".") <=? i)%nat then Some 0
     else match nth_error (strings_Split (strip_suffix s) ".") i with
          | Some p => Some (fst (strconv_Atoi p))
          | None => None
          end)
    = Some match component i (strip_suffix s) with
           | Some c => saturating_value c
           | None => 0
           end) as Hget.
  { intros i. rewrite <- Split_nth.
    destruct (Nat.leb_spec (List.length (strings_Split (strip_suffix s) ".")) i) as [Hle|Hgt].
    - apply nth_error_None in Hle. by rewrite Hle.
    - destruct (nth_error (strings_Split (strip_suffix s) ".") i) as [p|] eqn:Hp.
      + rewrite Atoi_saturating; [done|].
        rewrite Split_nth in Hp.
        eapply component_no_dash; [exact Hp|apply has_dash_strip].
      + apply nth_error_None in Hp. lia. }
  by rewrite !Hget.
Qed.

Lemma isNewer_triplets (x y : Z * Z * Z) :
  (let '(amaj, amin, apat) := x in
   let '(bmaj, bmin, bpat) := y in
   if negb (amaj =? bmaj) then amaj >? bmaj
   else if negb (amin =? bmin) then amin >? bmin
   else apat >? bpat) = triplet_gt x y.
Proof.
  destruct x as [[x1 x2] x3], y as [[y1 y2] y3]. unfold triplet_gt.
  rewrite !Z.gtb_ltb.
  destruct (Z.eqb_spec x1 y1), (Z.eqb_spec x2 y2),
    (Z.ltb_spec y1 x1), (Z.ltb_spec y2 x2), (Z.ltb_spec y3 x3); simpl; lia || done.
Qed.

(** Where the cap does not bite the two valuations agree: a numeric component
    up to 2^63-1 has its number. *)
Lemma saturating_value_numeric c :
  numeric c = true -> decimal c <= maxInt64 -> saturating_value c = stated_value c.
Proof.
  intros Hn Hle. unfold stated_value, saturating_value. rewrite Hn.
  unfold numeric in Hn. apply andb_true_iff in Hn as [Hne Hd].
  destruct c as [|ch r]; [done|].
  assert (Ascii.eqb ch "+" = false) as ->.
  { simpl in Hd. apply andb_true_iff in Hd as [Hc _].
    destruct (Ascii.eqb_spec ch "+") as [->|]; [discriminate|done]. }
  unfold digits_value. rewrite Hd, (digit_prefix_all _ Hd). lia.
Qed.

(** A component with no digit in front (and no '+') is 0. *)
Lemma saturating_value_malformed ch r :
  is_digit ch = false -> Ascii.eqb ch "+" = false -> saturating_value (String ch r) = 0.
Proof.
  intros Hd Hp. unfold saturating_value, digits_value. rewrite Hp.
  simpl. rewrite Hd. simpl. done.
Qed.

Lemma isNewer_value a b :
  isNewer a b = Some (triplet_gt (triplet saturating_value a) (triplet saturating_value b)).
Proof.
  unfold isNewer. rewrite !parse_spec.
  pose proof (isNewer_triplets (triplet saturating_value a) (triplet saturating_value b)) as H.
  destruct (triplet saturating_value a) as [[amaj amin] apat].
  destruct (triplet saturating_value b) as [[bmaj bmin] bpat].
  rewrite <- H.
  destruct (negb (amaj =? bmaj)); [done|]. destruct (negb (amin =? bmin)); done.
Qed.

(** C3 (amended): isNewer never fails; it strips the suffix after the first
    '-', splits the prefix on '.', values each of the first three components
    (0 when missing, empty or malformed; the number of a decimal component,
    capped at 2^63-1) and answers whether the triplet of [a] is strictly
    greater than that of [b] in the lexicographic order. The three examples of
    the specification hold. *)
Theorem isNewer_saturating_triplets :
  (forall a b,
     isNewer a b = Some (triplet_gt (triplet saturating_value a)
                                    (triplet saturating_value b)))
  /\ isNewer "1.2.0" "1.1.9" = Some true
  /\ isNewer "1.2.0-rc1" "1.2.0" = Some false
  /\ isNewer "1.0" "1.0.0" = Some false.
Proof.
  split; [apply isNewer_value|by vm_compute].
Qed.

(** C3 as stated fails: two numeric majors above 2^63-1 are both read as
    2^63-1, so the greater one is not reported as newer. *)
Lemma isNewer_stated_value_counterexample :
  isNewer "99999999999999999999" "99999999999999999998" = Some false
  /\ triplet_gt (triplet stated_value "99999999999999999999")
                (triplet stated_value "99999999999999999998") = true.
Proof. by vm_compute. Qed.

(** A component that is not numeric is not always read as 0 either. *)
Example isNewer_overflow_then_garbage :
  isNewer "99999999999999999999x" "1.0.0" = Some true
  /\ triplet stated_value "99999999999999999999x" = (0, 0, 0).
Proof. by vm_compute. Qed.
End ComparatorProofs.

(** ** The comparator as an order, and what it ignores *)

Section ComparatorOrder.
Import VersionSpec.

Lemma triplet_gt_irrefl x : triplet_gt x x = false.
Proof.
  destruct x as [[x1 x2] x3]. unfold triplet_gt.
  rewrite !Z.ltb_irrefl, !Z.eqb_refl. done.
Qed.

Lemma triplet_gt_asym x y : triplet_gt x y = true -> triplet_gt y x = false.
Proof.
  destruct x as [[x1 x2] x3], y as [[y1 y2] y3]. unfold triplet_gt.
  destruct (Z.eqb_spec x1 y1), (Z.eqb_spec x2 y2), (Z.eqb_spec y1 x1), (Z.eqb_spec y2 x2),
    (Z.ltb_spec y1 x1), (Z.ltb_spec y2 x2), (Z.ltb_spec y3 x3),
    (Z.ltb_spec x1 y1), (Z.ltb_spec x2 y2), (Z.ltb_spec x3 y3); simpl; lia || done.
Qed.

Lemma triplet_gt_trans x y z :
  triplet_gt x y = true -> triplet_gt y z = true -> triplet_gt x z = true.
Proof.
  destruct x as [[x1 x2] x3], y as [[y1 y2] y3], z as [[z1 z2] z3]. unfold triplet_gt.
  rewrite !orb_true_iff, !andb_true_iff, !orb_true_iff, !andb_true_iff,
    !Z.ltb_lt, !Z.eqb_eq. lia.
Qed.

Lemma isNewer_irreflexive a : isNewer a a = Some false.
Proof. by rewrite isNewer_value, triplet_gt_irrefl. Qed.

(** isNewer is asymmetric: of two versions at most one is newer than the
    other. *)
Theorem isNewer_asymmetric (a b : string) :
  isNewer a b = Some true -> isNewer b a = Some false.
Proof.
  rewrite !isNewer_value.
  generalize (triplet saturating_value a), (triplet saturating_value b).
  intros x y [= H]. by rewrite (triplet_gt_asym _ _ H).
Qed.

Lemma isNewer_asymmetric_witness :
  isNewer "1.2.0" "1.1.9" = Some true /\ isNewer "1.1.9" "1.2.0" = Some false.
Proof.
  split; [by vm_compute|]. apply (isNewer_asymmetric "1.2.0" "1.1.9"). by vm_compute.
Defined.

(** isNewer is transitive. *)
Theorem isNewer_transitive (a b c : string) :
  isNewer a b = Some true -> isNewer b c = Some true -> isNewer a c = Some true.
Proof.
  rewrite !isNewer_value.
  generalize (triplet saturating_value a), (triplet saturating_value b),
    (triplet saturating_value c).
  intros x y z [= H1] [= H2]. by rewrite (triplet_gt_trans _ _ _ H1 H2).
Qed.

Lemma isNewer_transitive_witness : isNewer "2.0.0" "1.9" = Some true.
Proof.
  apply (isNewer_transitive "2.0.0" "1.10.0-rc1" "1.9"); by vm_compute.
Defined.

Lemma strip_suffix_app a s : strip_suffix (a +:+ "-" +:+ s) = strip_suffix a.
Proof.
  induction a as [|c a IH]; simpl; [done|].
  destruct (Ascii.eqb c "-"); [done|]. by rewrite <- IH.
Qed.

Lemma triplet_suffix value a s : triplet value (a +:+ "-" +:+ s) = triplet value a.
Proof. unfold triplet. by rewrite strip_suffix_app. Qed.

(** What follows the first '-' never counts, on either side: a version with
    a suffix compares as the version without it, and neither of the two is
    newer than the other. *)
Theorem isNewer_ignores_suffix (a s b : string) :
  isNewer (a +:+ "-" +:+ s) b = isNewer a b
  /\ isNewer b (a +:+ "-" +:+ s) = isNewer b a
  /\ isNewer (a +:+ "-" +:+ s) a = Some false
  /\ isNewer a (a +:+ "-" +:+ s) = Some false.
Proof.
  rewrite !isNewer_value, !triplet_suffix, triplet_gt_irrefl. done.
Qed.

Lemma strip_suffix_plain m rest :
  plain m = true ->
  strip_suffix (m +:+ "." +:+ rest) = m +:+ "." +:+ strip_suffix rest.
Proof.
  induction m as [|c m IH]; simpl; [done|].
  intros [[_ Hc%negb_true_iff]%andb_true_iff Hm]%andb_true_iff.
  rewrite Hc. by rewrite (IH Hm).
Qed.

Lemma component_plain_head m p :
  plain m = true -> component 0 (m +:+ "." +:+ p) = Some m.
Proof.
  induction m as [|c m IH]; simpl; [done|].
  intros [[Hc%negb_true_iff _]%andb_true_iff Hm]%andb_true_iff.
  rewrite Hc. change (String.append m (String "." p)) with (m +:+ "." +:+ p).
  by rewrite (IH Hm).
Qed.

Lemma component_plain_tail m p i :
  plain m = true -> component (S i) (m +:+ "." +:+ p) = component i p.
Proof.
  induction m as [|c m IH]; simpl; [done|].
  intros [[Hc%negb_true_iff _]%andb_true_iff Hm]%andb_true_iff.
  rewrite Hc. by apply IH.
Qed.

Lemma triplet_leading_letter ch m rest :
  is_digit ch = false -> Ascii.eqb ch "+" = false ->
  plain (String ch m) = true ->
  triplet saturating_value (String ch m +:+ "." +:+ rest)
  = triplet saturating_value ("0." +:+ rest).
Proof.
  intros Hd Hp Hm. unfold triplet.
  rewrite (strip_suffix_plain _ _ Hm).
  change ("0." +:+ rest) with ("0" +:+ "." +:+ rest).
  rewrite (strip_suffix_plain "0" rest) by done.
  rewrite !component_plain_head, !component_plain_tail by done.
  by rewrite (saturating_value_malformed ch m Hd Hp).
Qed.

(** A first component that begins with a character that is neither a digit
    nor a sign is read as 0: on either side such a version compares as the
    version with major 0 and the same remaining components ("v2.0.0" is not
    newer than "v1.0.0"). *)
Theorem isNewer_leading_letter (ch : ascii) (m rest b : string) :
  is_digit ch = false ->
  Ascii.eqb ch "+" = false ->
  plain (String ch m) = true ->
  isNewer (String ch m +:+ "." +:+ rest) b = isNewer ("0." +:+ rest) b
  /\ isNewer b (String ch m +:+ "." +:+ rest) = isNewer b ("0." +:+ rest).
Proof.
  intros Hd Hp Hm. by rewrite !isNewer_value, (triplet_leading_letter _ _ _ Hd Hp Hm).
Qed.

Lemma isNewer_leading_letter_witness :
  isNewer "v2.0.0" "v1.0.0" = isNewer "0.0.0" "v1.0.0"
  /\ isNewer "v1.0.0" "v2.0.0" = isNewer "v1.0.0" "0.0.0".
Proof.
  apply (isNewer_leading_letter "v" "2" "0.0" "v1.0.0"); reflexivity.
Defined.

Lemma strip_suffix_of_plain m : plain m = true -> strip_suffix m = m.
Proof.
  induction m as [|c m IH]; simpl; [done|].
  intros [[_ Hc%negb_true_iff]%andb_true_iff Hm]%andb_true_iff.
  rewrite Hc. by rewrite (IH Hm).
Qed.

Lemma component_of_plain m : plain m = true -> component 0 m = Some m.
Proof.
  induction m as [|c m IH]; simpl; [done|].
  intros [[Hc%negb_true_iff _]%andb_true_iff Hm]%andb_true_iff.
  rewrite Hc. by rewrite (IH Hm).
Qed.

Lemma triplet_fourth_component value m1 m2 m3 rest :
  plain m1 = true -> plain m2 = true -> plain m3 = true ->
  triplet value (m1 +:+ "." +:+ m2 +:+ "." +:+ m3 +:+ "." +:+ rest)
  = triplet value (m1 +:+ "." +:+ m2 +:+ "." +:+ m3).
Proof.
  intros H1 H2 H3. unfold triplet.
  rewrite !(strip_suffix_plain m1) by done.
  rewrite !(strip_suffix_plain m2) by done.
  rewrite (strip_suffix_plain m3), (strip_suffix_of_plain m3) by done.
  rewrite !(component_plain_head m1) by done.
  rewrite !(component_plain_tail m1) by done.
  rewrite !(component_plain_head m2) by done.
  rewrite !(component_plain_tail m2) by done.
  by rewrite (component_plain_head m3), (component_of_plain m3).
Qed.

(** Only the first three components count: what follows a third '.' is
    ignored, on either side ("1.2.3.9" is not newer than "1.2.3.4"). *)
Theorem isNewer_ignores_fourth_component (m1 m2 m3 rest b : string) :
  plain m1 = true -> plain m2 = true -> plain m3 = true ->
  isNewer (m1 +:+ "." +:+ m2 +:+ "." +:+ m3 +:+ "." +:+ rest) b
  = isNewer (m1 +:+ "." +:+ m2 +:+ "." +:+ m3) b
  /\ isNewer b (m1 +:+ "." +:+ m2 +:+ "." +:+ m3 +:+ "." +:+ rest)
     = isNewer b (m1 +:+ "." +:+ m2 +:+ "." +:+ m3).
Proof.
  intros H1 H2 H3.
  by rewrite !isNewer_value, (triplet_fourth_component _ _ _ _ _ H1 H2 H3).
Qed.

Lemma isNewer_ignores_fourth_component_witness :
  isNewer "1.2.3.9" "1.2.3.4" = isNewer "1.2.3" "1.2.3.4"
  /\ isNewer "1.2.3.4" "1.2.3.9" = isNewer "1.2.3.4" "1.2.3".
Proof.
  apply (isNewer_ignores_fourth_component "1" "2" "3" "9" "1.2.3.4"); reflexivity.
Defined.

End ComparatorOrder.

(* ===================================================================== *)
(** * Proofs: the release servers *)
(* ===================================================================== *)

#[local] Arguments strings_TrimSpace : simpl never.
#[local] Arguments filepath_Join : simpl never.
#[local] Arguments filepath_Dir : simpl never.
#[local] Arguments sha256_Sum : simpl never.
#[local] Arguments hex_EncodeToString : simpl never.
#[local] Arguments String.eqb : simpl never.
#[local] Arguments String.append : simpl never.

Lemma handlePublish_digest env r w rel :
  response (serve (ServerMain.handlePublish env r) w) = [Wrote StatusOK (ReleaseBody rel)] ->
  exists file,
    form_file r = inr file
    /\ Sha256 rel = sha256_hex (content file)
    /\ files (after (serve (ServerMain.handlePublish env r) w)) !! FilePath rel
       = Some (content file)
    /\ ReleasesByVersion (store (after (serve (ServerMain.handlePublish env r) w)))
         !! strings_TrimSpace (form_version r) = Some rel.
Proof.
  destruct env as [now mk cr ro uo cf smk sv], r as [m me fv fc fn ff].
  unfold_handler. simpl. intros H.
  branches; eexists; split_and!; by simplify_map_eq.
Qed.

Lemma Controller_Publish_digest env r w rel :
  response (serve (Controller.Publish env r) w) = [Wrote StatusOK (ReleaseBody rel)] ->
  exists file,
    form_file r = inr file
    /\ Sha256 rel = sha256_hex (content file)
    /\ files (after (serve (Controller.Publish env r) w)) !! FilePath rel
       = Some (content file)
    /\ ReleasesByVersion (store (after (serve (Controller.Publish env r) w)))
         !! strings_TrimSpace (form_version r) = Some rel.
Proof.
  destruct env as [now mk cr ro uo cf smk sv], r as [m me fv fc fn ff].
  unfold_handler. simpl. intros H.
  branches; eexists; split_and!; by simplify_map_eq.
Qed.


(** ** Assertions kept along a handler *)

Create HintDb keeps discriminated.

Lemma keeps_ret {A} I (a : A) : keeps I (ret a).
Proof. by intros c. Qed.

Lemma keeps_exit {A} I e : keeps I (exit_with e : Handler A).
Proof. by intros c. Qed.

Lemma keeps_return {A} I : keeps I (return_ : Handler A).
Proof. by intros c. Qed.

Lemma keeps_bind {A B} I (m : Handler A) (k : A -> Handler B) :
  keeps I m -> (forall a, keeps I (k a)) -> keeps I (bind m k).
Proof.
  intros Hm Hk c Hc. unfold bind. specialize (Hm c Hc).
  destruct (m c) as [c' [e|a]]; [done|]. by apply Hk.
Qed.

Lemma keeps_write I code b : keeps I (write code b).
Proof. by intros c. Qed.

Lemma keeps_http_Error I msg code : keeps I (http_Error msg code).
Proof. by intros c. Qed.

Lemma keeps_ResponseFailure I e detail : keeps I (ResponseFailure e detail).
Proof. by intros c. Qed.

Lemma keeps_the_world I : keeps I the_world.
Proof. by intros c. Qed.

Lemma keeps_read_file I p : keeps I (read_file p).
Proof. by intros c. Qed.

Lemma keeps_on_world I f : (forall w, I w -> I (f w)) -> keeps I (on_world f).
Proof. intros Hf c Hc. by apply Hf. Qed.

Lemma keeps_append_out I (f : Conn -> list Write) :
  keeps I (modify (fun c => mkConn (world c) (f c))).
Proof. by intros c. Qed.

#[local] Hint Resolve keeps_ret keeps_exit keeps_return keeps_write keeps_http_Error
  keeps_ResponseFailure keeps_the_world keeps_read_file keeps_append_out : keeps.
#[local] Hint Extern 2 (keeps _ (bind _ _)) => apply keeps_bind; [|intros ?] : keeps.
#[local] Hint Extern 3 (keeps _ (match ?x with _ => _ end)) => destruct x : keeps.
#[local] Hint Extern 3 (keeps _ (let _ := _ in _)) => progress cbv zeta : keeps.

Lemma keeps_serve {A} I (h : Handler A) w : keeps I h -> I w -> I (after (serve h w)).
Proof.
  intros Hh Hw. unfold serve. specialize (Hh (mkConn w []) Hw).
  destruct (h (mkConn w [])) as [c [[]|a]]; done.
Qed.

(** ** The store invariant *)

Lemma store_inv_empty : store_inv empty_store.
Proof. intros c v H. simpl in H. by rewrite lookup_empty in H. Qed.

Lemma store_inv_publish st version channel rel :
  store_inv st ->
  store_inv (mkStore (<[version := rel]> (ReleasesByVersion st))
                     (<[channel := version]> (LatestByChannel st))).
Proof.
  intros Hst c v. simpl. intros H.
  destruct (decide (v = version)) as [->|Hne].
  - rewrite lookup_insert_eq. eauto.
  - rewrite lookup_insert_ne by done.
    destruct (decide (channel = c)) as [->|Hc].
    + rewrite lookup_insert_eq in H. congruence.
    + rewrite lookup_insert_ne in H by done. eauto.
Qed.

Lemma store_inv_json st : store_inv st -> store_inv (json_Store st).
Proof.
  intros Hst c v H. simpl in *. rewrite lookup_fmap.
  destruct (Hst c v H) as [rel ->]. by eexists.
Qed.

Lemma server_inv_fresh : server_inv fresh_server.
Proof. split; [apply store_inv_empty|done]. Qed.

(** Publishing: both maps are updated together. *)
Lemma keeps_publish_update version channel rel :
  keeps server_inv (on_world (fun w =>
    set_store (mkStore (<[version := rel]> (ReleasesByVersion (store w)))
                       (<[channel := version]> (LatestByChannel (store w)))) w)).
Proof.
  apply keeps_on_world. intros w [Hs Hf]. split; [|done].
  by apply store_inv_publish.
Qed.

Lemma keeps_os_MkdirAll fault p : keeps server_inv (os_MkdirAll fault p).
Proof. destruct fault; intros c Hc; done. Qed.

Lemma keeps_os_Create fault p : keeps server_inv (os_Create fault p).
Proof. destruct fault; intros c Hc; done. Qed.

Lemma keeps_io_Copy fault p src : keeps server_inv (io_Copy fault p src).
Proof. intros c Hc; done. Qed.

Lemma keeps_saveStore fault : keeps server_inv (ServerMain.saveStore fault).
Proof.
  destruct fault; intros c [Hs Hf]; [done|]. split; [done|].
  simpl. intros st [= <-]. by apply store_inv_json.
Qed.

Lemma keeps_controller_saveStore env : keeps server_inv (controller_saveStore env).
Proof.
  unfold controller_saveStore. apply keeps_bind; [apply keeps_os_MkdirAll|].
  intros [e|]; [apply keeps_ret|].
  destruct (save_err env); [apply keeps_ret|].
  intros c [Hs Hf]. split; [done|].
  simpl. intros st [= <-]. by apply store_inv_json.
Qed.

Lemma keeps_loadStore : keeps server_inv Controller.loadStore.
Proof.
  intros c [Hs Hf]. unfold Controller.loadStore, the_world, on_world.
  cbv [bind get ret modify]. simpl.
  destruct (storeFile_content (world c)) as [e|tmp] eqn:E; simpl.
  - split; [done|]. by rewrite E.
  - split; simpl; [by apply Hf|]. by rewrite E.
Qed.

#[local] Hint Resolve keeps_publish_update keeps_os_MkdirAll keeps_os_Create keeps_io_Copy
  keeps_saveStore keeps_controller_saveStore keeps_loadStore : keeps.

Lemma keeps_handlePublish env r : keeps server_inv (ServerMain.handlePublish env r).
Proof. unfold ServerMain.handlePublish. auto 40 with keeps. Qed.


Lemma keeps_handleCheck r : keeps server_inv (ServerMain.handleCheck r).
Proof. unfold ServerMain.handleCheck. auto 40 with keeps. Qed.

Lemma keeps_handleDownload quote path :
  keeps server_inv (ServerMain.handleDownload quote path).
Proof. unfold ServerMain.handleDownload. auto 40 with keeps. Qed.

Lemma keeps_ControllerOld_Publish env r : keeps server_inv (ControllerOld.Publish env r).
Proof. unfold ControllerOld.Publish, ControllerOld.saveStore. auto 60 with keeps. Qed.

Lemma keeps_Controller_Publish env r : keeps server_inv (Controller.Publish env r).
Proof. unfold Controller.Publish, Controller.saveStore. auto 60 with keeps. Qed.

Lemma keeps_Controller_Check r : keeps server_inv (Controller.Check r).
Proof. unfold Controller.Check. auto 40 with keeps. Qed.

(** Every route of every program keeps the invariant. *)
Lemma keeps_route quote p q : keeps server_inv (route quote p q).
Proof.
  destruct p, q; simpl; unfold no_route;
    auto using keeps_handlePublish, keeps_handleCheck, keeps_handleDownload,
      keeps_ControllerOld_Publish, keeps_Controller_Publish, keeps_Controller_Check,
      keeps_write.
Qed.

Lemma run_keeps_inv quote p qs : forall w, server_inv w -> server_inv (run quote p qs w).
Proof.
  induction qs as [|q qs IH]; intros w Hw; [done|].
  simpl. apply IH. apply keeps_serve; [apply keeps_route|done].
Qed.

(** C7: starting from the empty store, after any sequence of publish, check
    and download requests served by any of the three programs, every value of
    latestByChannel is a key of releasesByVersion (and the same holds of the
    snapshot on disk); each request keeps the invariant, from any state that
    has it. *)
Theorem latest_is_published quote p qs :
  store_inv (store (run quote p qs fresh_server))
  /\ server_inv (run quote p qs fresh_server)
  /\ (forall w q, server_inv w -> server_inv (after (serve (route quote p q) w))).
Proof.
  split_and!.
  - apply run_keeps_inv, server_inv_fresh.
  - apply run_keeps_inv, server_inv_fresh.
  - intros w q Hw. apply keeps_serve; [apply keeps_route|done].
Qed.

(** ** check *)

Lemma String_eqb_empty s : String.eqb s "" = true <-> s = "".
Proof. apply String.eqb_eq. Qed.

Lemma String_eqb_empty_false s : s <> "" -> String.eqb s "" = false.
Proof. intros H. by apply String.eqb_neq. Qed.

Lemma isNewer_total a b : isNewer a b <> None.
Proof. by rewrite isNewer_value. Qed.

Lemma loadStore_run c :
  Controller.loadStore c =
    match storeFile_content (world c) with
    | inl e => (c, inr (Some e))
    | inr tmp => (mkConn (set_store tmp (world c)) (out c), inr None)
    end.
Proof.
  unfold Controller.loadStore, the_world, on_world. cbv [bind get ret modify]. simpl.
  by destruct (storeFile_content (world c)).
Qed.

(** The store a check consults, spelled out. *)
Lemma consulted_store_Gin w :
  consulted_store Gin w =
    match storeFile_content w with
    | inl _ => store w
    | inr tmp => tmp
    end.
Proof.
  unfold consulted_store, serve. rewrite loadStore_run. simpl.
  by destruct (storeFile_content w).
Qed.

(** C4: on a channel that has a release, check answers 200 with that release
    as latest, and update_available is true iff the current version is empty
    or isNewer(latest.version, current) holds. *)
Theorem check_update_available (p : program) (r : CheckReq) (w : Server)
    (version : string) (latest : Release) :
  p <> GinOld ->
  LatestByChannel (consulted_store p w) !! checked_channel p r = Some version ->
  ReleasesByVersion (consulted_store p w) !! version = Some latest ->
  exists update_available message,
    response (serve (check p r) w)
      = [Wrote StatusOK (CheckBody update_available (Some latest) message)]
    /\ panicked (serve (check p r) w) = false
    /\ (update_available = true <->
        current_version r = "" \/ isNewer (Version latest) (current_version r) = Some true).
Proof.
  intros Hp Hl Hr. pose proof (isNewer_total (Version latest) (current_version r)) as Ht.
  enough (exists ua msg w',
    serve (check p r) w
      = mkServed w' [Wrote StatusOK (CheckBody ua (Some latest) msg)] false
    /\ (ua = true <->
        current_version r = "" \/ isNewer (Version latest) (current_version r) = Some true))
    as (ua & msg & w' & -> & H); [by exists ua, msg|].
  unfold current_version in *.
  destruct p; [|done|]; unfold check, serve.
  - simpl in Hl, Hr.
    unfold ServerMain.handleCheck, the_world, write. cbv [bind get ret modify exit_with].
    check_answer Hl Hr Ht r.
  - rewrite consulted_store_Gin in Hl, Hr. simpl in Hl.
    unfold Controller.Check. unfold bind at 1. rewrite loadStore_run. simpl.
    destruct (storeFile_content w) as [e|tmp];
      unfold the_world, write; cbv [bind get ret modify exit_with];
      check_answer Hl Hr Ht r.
Qed.

Lemma check_update_available_witness :
  exists update_available message,
    response (serve (check NetHttp (check_stable_from "0.9.0")) one_release)
      = [Wrote StatusOK (CheckBody update_available (Some release_1_0_0) message)]
    /\ panicked (serve (check NetHttp (check_stable_from "0.9.0")) one_release) = false
    /\ (update_available = true <->
        current_version (check_stable_from "0.9.0") = ""
        \/ isNewer (Version release_1_0_0) (current_version (check_stable_from "0.9.0"))
           = Some true).
Proof.
  apply (check_update_available NetHttp (check_stable_from "0.9.0") one_release "1.0.0").
  - discriminate.
  - vm_compute. reflexivity.
  - vm_compute. reflexivity.
Defined.

(** C5 as stated fails on the gin controller: with no release in the channel
    its Check answers 500, the Internal class, not NotFound; and a Check is
    not without effect on the store, which it first reloads from the
    snapshot. *)
Lemma Check_unknown_channel_counterexample :
  LatestByChannel (store fresh_server) !! "stable" = None
  /\ final_status (serve (Controller.Check (check_stable_from "")) fresh_server)
     = Some StatusInternalServerError
  /\ LatestByChannel (store ahead_of_disk) !! "stable" = None
  /\ store (after (serve (Controller.Check (check_stable_from "")) ahead_of_disk))
     <> store ahead_of_disk.
Proof.
  split_and!; [by vm_compute..|].
  vm_compute. intros H. discriminate H.
Qed.

(** C5 (amended): where latestByChannel, in the store the handler consults,
    has no entry for the channel, check fails with exactly one error
    response: NotFound (404) from the net/http handler, the Internal class
    (500) from the gin controller. The net/http handler leaves the process
    as it was; the controller leaves it as its reload of the snapshot made
    it, and the disk as it was. *)
Theorem check_unknown_channel (p : program) (r : CheckReq) (w : Server) :
  p <> GinOld ->
  LatestByChannel (consulted_store p w) !! checked_channel p r = None ->
  serve (check p r) w
    = mkServed (set_store (consulted_store p w) w) [unknown_channel_response p] false
  /\ set_store (store w) w = w.
Proof.
  intros Hp Hl. split; [|by destruct w].
  destruct p; [|done|]; unfold check, serve.
  - simpl in Hl. unfold ServerMain.handleCheck, the_world, http_Error, write, return_.
    cbv [bind get ret modify exit_with]. simpl. rewrite Hl. simpl. by destruct w.
  - rewrite consulted_store_Gin in *. simpl in Hl.
    unfold Controller.Check. unfold bind at 1. rewrite loadStore_run. simpl.
    destruct (storeFile_content w) as [e|tmp];
      unfold the_world, ResponseFailure, write, return_;
      cbv [bind get ret modify exit_with]; simpl; rewrite Hl; simpl; [by destruct w|done].
Qed.

Lemma check_unknown_channel_witness :
  serve (check Gin (check_stable_from "1.0.0")) ahead_of_disk
    = mkServed (set_store (consulted_store Gin ahead_of_disk) ahead_of_disk)
        [unknown_channel_response Gin] false
  /\ set_store (store ahead_of_disk) ahead_of_disk = ahead_of_disk.
Proof.
  apply (check_unknown_channel Gin (check_stable_from "1.0.0") ahead_of_disk).
  - discriminate.
  - vm_compute. reflexivity.
Defined.

(** ** publish *)

(** C9: when the request is accepted, the artifact is written and saveStore
    then fails, publish answers with one 500 response (its persistence
    failure), and the mutation made in memory stays: releasesByVersion holds
    the new release under the version and latestByChannel maps the channel to
    it, while the snapshot on disk is the old one. *)
Theorem publish_failed_save_keeps_mutation (p : program) (env : PublishEnv)
    (r : PublishReq) (w : Server) (file : Upload) (e : string) :
  accepted p r file ->
  artifact_written p env ->
  saveStore_error p env = Some e ->
  response (serve (publish p env r) w) = [save_failure_response p e]
  /\ final_status (serve (publish p env r) w) = Some StatusInternalServerError
  /\ panicked (serve (publish p env r) w) = false
  /\ (exists rel,
        ReleasesByVersion (store (after (serve (publish p env r) w)))
          !! strings_TrimSpace (form_version r) = Some rel
        /\ Version rel = strings_TrimSpace (form_version r)
        /\ Channel rel = effective_channel p r)
  /\ LatestByChannel (store (after (serve (publish p env r) w))) !! effective_channel p r
     = Some (strings_TrimSpace (form_version r))
  /\ storeFile_content (after (serve (publish p env r) w)) = storeFile_content w.
Proof.
  intros (Hv & Hf & Hm) (Hmk & Hcr & Hcp & Hopen) Hsave.
  apply String_eqb_empty_false in Hv.
  destruct env as [now mk cr ro uo cf smk sv], r as [m me fv fc fn ff].
  simpl in *. subst.
  destruct p; simpl in Hm, Hopen, Hsave; destruct_and?; subst;
    unfold_handler; simpl; rewrite ?Hv; simpl.
  - split_and!; try done; [eexists; split_and!; [apply lookup_insert_eq|done..]|].
    apply lookup_insert_eq.
  - destruct smk as [e'|]; simplify_eq; simpl;
      (split_and!; try done; [eexists; split_and!; [apply lookup_insert_eq|done..]|]);
      apply lookup_insert_eq.
  - destruct smk as [e'|]; simplify_eq; simpl;
      (split_and!; try done; [eexists; split_and!; [apply lookup_insert_eq|done..]|]);
      apply lookup_insert_eq.
Qed.

Lemma publish_failed_save_keeps_mutation_witness :
  response (serve (publish Gin disk_full publish_1_0_0) fresh_server)
    = [save_failure_response Gin "rename: no space left on device"]
  /\ final_status (serve (publish Gin disk_full publish_1_0_0) fresh_server)
     = Some StatusInternalServerError
  /\ panicked (serve (publish Gin disk_full publish_1_0_0) fresh_server) = false
  /\ (exists rel,
        ReleasesByVersion (store (after (serve (publish Gin disk_full publish_1_0_0) fresh_server)))
          !! strings_TrimSpace (form_version publish_1_0_0) = Some rel
        /\ Version rel = strings_TrimSpace (form_version publish_1_0_0)
        /\ Channel rel = effective_channel Gin publish_1_0_0)
  /\ LatestByChannel (store (after (serve (publish Gin disk_full publish_1_0_0) fresh_server)))
       !! effective_channel Gin publish_1_0_0
     = Some (strings_TrimSpace (form_version publish_1_0_0))
  /\ storeFile_content (after (serve (publish Gin disk_full publish_1_0_0) fresh_server))
     = storeFile_content fresh_server.
Proof.
  apply (publish_failed_save_keeps_mutation Gin disk_full publish_1_0_0 fresh_server payload).
  - split_and!; [by vm_compute|reflexivity|exact I].
  - split_and!; reflexivity.
  - reflexivity.
Defined.

(** C8 (the code at the failing input): the first revision of the controller
    answers 400 to a blank version and goes on; it creates the artifact file,
    records a release under the empty version and makes it the latest of the
    channel. With the file missing it creates the directory and the empty
    artifact before it panics on the nil file header. *)
Theorem ControllerOld_Publish_goes_on_after_rejecting :
  strings_TrimSpace (form_version publish_blank_version) = ""
  /\ final_status (serve (ControllerOld.Publish calm publish_blank_version) fresh_server)
     = Some StatusBadRequest
  /\ files (after (serve (ControllerOld.Publish calm publish_blank_version) fresh_server))
       !! "../../artifacts/algorithm" = Some []
  /\ is_Some (ReleasesByVersion
                (store (after (serve (ControllerOld.Publish calm publish_blank_version)
                                 fresh_server))) !! "")
  /\ LatestByChannel
       (store (after (serve (ControllerOld.Publish calm publish_blank_version) fresh_server)))
       !! "stable" = Some ""
  /\ final_status (serve (ControllerOld.Publish calm publish_without_file) fresh_server)
     = Some StatusBadRequest
  /\ panicked (serve (ControllerOld.Publish calm publish_without_file) fresh_server) = true
  /\ files (after (serve (ControllerOld.Publish calm publish_without_file) fresh_server))
       !! "../../artifacts/1.0.0/algorithm" = Some []
  /\ dirs (after (serve (ControllerOld.Publish calm publish_without_file) fresh_server))
     = {["../../artifacts/1.0.0"]}.
Proof.
  split_and!; first [vm_compute; reflexivity | vm_compute; eexists; reflexivity].
Qed.

(** What C8 states holds of the net/http handler and of the current
    controller: a blank version or a missing file is answered 400 and the
    process and the disk are as before. *)
Lemma publish_rejected_without_effect (p : program) (env : PublishEnv) (r : PublishReq)
    (w : Server) :
  p <> GinOld ->
  (p = NetHttp -> Method r = "POST" /\ multipart_err r = None) ->
  strings_TrimSpace (form_version r) = "" \/ (exists e, form_file r = inl e) ->
  after (serve (publish p env r) w) = w
  /\ final_status (serve (publish p env r) w) = Some StatusBadRequest
  /\ length (response (serve (publish p env r) w)) = 1%nat
  /\ panicked (serve (publish p env r) w) = false.
Proof.
  intros Hp Hm Hbad.
  destruct env as [now mk cr ro uo cf smk sv], r as [m me fv fc fn ff]. simpl in *.
  destruct p; [destruct Hm as [-> ->]; [done|]|done|];
    unfold_handler; simpl;
    (destruct (String.eqb (strings_TrimSpace fv) "") eqn:Hv; simpl; [done|]);
    (destruct Hbad as [Hbad|[e ->]];
       [rewrite Hbad in Hv; discriminate|done]).
Qed.

Lemma publish_rejected_without_effect_witness :
  after (serve (publish Gin calm publish_without_file) one_release) = one_release
  /\ final_status (serve (publish Gin calm publish_without_file) one_release)
     = Some StatusBadRequest
  /\ length (response (serve (publish Gin calm publish_without_file) one_release)) = 1%nat
  /\ panicked (serve (publish Gin calm publish_without_file) one_release) = false.
Proof.
  apply (publish_rejected_without_effect Gin calm publish_without_file one_release).
  - discriminate.
  - discriminate.
  - right. eexists. reflexivity.
Defined.

(** C1 (the code at the failing input): the first revision of the controller
    copies from the file it has just created instead of the upload; the
    publish succeeds, the stored artifact is empty and the digest returned and
    recorded is that of the empty string, not that of the uploaded bytes. *)
Theorem ControllerOld_Publish_digest_of_nothing :
  exists rel,
    response (serve (ControllerOld.Publish calm publish_1_0_0) fresh_server)
      = [Wrote StatusOK (ReleaseBody rel)]
    /\ ReleasesByVersion (store (after (serve (ControllerOld.Publish calm publish_1_0_0)
                                          fresh_server))) !! "1.0.0" = Some rel
    /\ files (after (serve (ControllerOld.Publish calm publish_1_0_0) fresh_server))
         !! FilePath rel = Some []
    /\ Sha256 rel = sha256_hex []
    /\ Sha256 rel <> sha256_hex (content payload).
Proof.
  eexists. split_and!; [by vm_compute..|]. by vm_compute.
Qed.

Lemma handlePublish_digest_witness :
  exists file,
    form_file publish_1_0_0 = inr file
    /\ Sha256 release_1_0_0 = sha256_hex (content file)
    /\ files (after (serve (ServerMain.handlePublish calm publish_1_0_0) fresh_server))
         !! FilePath release_1_0_0 = Some (content file)
    /\ ReleasesByVersion (store (after (serve (ServerMain.handlePublish calm publish_1_0_0)
                                          fresh_server)))
         !! strings_TrimSpace (form_version publish_1_0_0) = Some release_1_0_0.
Proof.
  apply (handlePublish_digest calm publish_1_0_0 fresh_server release_1_0_0).
  vm_compute. reflexivity.
Defined.

Lemma Controller_Publish_digest_witness :
  exists file,
    form_file publish_1_0_0 = inr file
    /\ Sha256 release_1_0_0 = sha256_hex (content file)
    /\ files (after (serve (Controller.Publish calm publish_1_0_0) fresh_server))
         !! FilePath release_1_0_0 = Some (content file)
    /\ ReleasesByVersion (store (after (serve (Controller.Publish calm publish_1_0_0)
                                          fresh_server)))
         !! strings_TrimSpace (form_version publish_1_0_0) = Some release_1_0_0.
Proof.
  apply (Controller_Publish_digest calm publish_1_0_0 fresh_server release_1_0_0).
  vm_compute. reflexivity.
Defined.

(** In the first revision of the controller an accepted publish in which
    nothing fails stores an empty artifact and the digest of the empty
    string, whatever was uploaded. *)
Lemma ControllerOld_Publish_stores_nothing (env : PublishEnv) (r : PublishReq) (w : Server)
    (file : Upload) :
  accepted GinOld r file ->
  artifact_written GinOld env ->
  saveStore_error GinOld env = None ->
  exists rel,
    response (serve (ControllerOld.Publish env r) w) = [Wrote StatusOK (ReleaseBody rel)]
    /\ Sha256 rel = sha256_hex []
    /\ files (after (serve (ControllerOld.Publish env r) w)) !! FilePath rel = Some []
    /\ ReleasesByVersion (store (after (serve (ControllerOld.Publish env r) w)))
         !! strings_TrimSpace (form_version r) = Some rel.
Proof.
  intros (Hv & Hf & _) (Hmk & Hcr & Hcp & Hro & Huo) Hsave.
  apply String_eqb_empty_false in Hv.
  destruct env as [now mk cr ro uo cf smk sv], r as [m me fv fc fn ff].
  simpl in *. subst. destruct smk; [done|]. subst.
  unfold_handler. simpl. rewrite Hv. simpl. rewrite lookup_insert_eq. simpl.
  unfold sha256_hex. eexists. split; [reflexivity|]. simpl.
  split; [reflexivity|]. split; apply lookup_insert_eq.
Qed.

Lemma ControllerOld_Publish_stores_nothing_witness :
  exists rel,
    response (serve (ControllerOld.Publish calm publish_1_0_0) one_release)
      = [Wrote StatusOK (ReleaseBody rel)]
    /\ Sha256 rel = sha256_hex []
    /\ files (after (serve (ControllerOld.Publish calm publish_1_0_0) one_release))
         !! FilePath rel = Some []
    /\ ReleasesByVersion (store (after (serve (ControllerOld.Publish calm publish_1_0_0)
                                          one_release)))
         !! strings_TrimSpace (form_version publish_1_0_0) = Some rel.
Proof.
  apply (ControllerOld_Publish_stores_nothing calm publish_1_0_0 one_release payload).
  - split_and!; [by vm_compute|reflexivity|exact I].
  - split_and!; reflexivity.
  - reflexivity.
Defined.

(** ** publish, then check *)

Lemma effective_channel_not_empty p r : effective_channel p r <> "".
Proof.
  unfold effective_channel.
  destruct p;
    match goal with
    | |- (if String.eqb ?c "" then _ else _) <> _ =>
        destruct (String.eqb c "") eqn:E; [done|by apply String.eqb_neq in E]
    end.
Qed.

(** The store and the snapshot after a publish that succeeded, in the
    net/http server and in the current controller. *)
Lemma publish_success_state (p : program) (env : PublishEnv) (r : PublishReq) (w : Server)
    (rel : Release) :
  p <> GinOld ->
  response (serve (publish p env r) w) = [Wrote StatusOK (ReleaseBody rel)] ->
  exists file,
    form_file r = inr file
    /\ Version rel = strings_TrimSpace (form_version r)
    /\ Sha256 rel = sha256_hex (content file)
    /\ LatestByChannel (store (after (serve (publish p env r) w))) !! effective_channel p r
       = Some (Version rel)
    /\ ReleasesByVersion (store (after (serve (publish p env r) w))) !! Version rel = Some rel
    /\ storeFile_content (after (serve (publish p env r) w))
       = inr (json_Store (store (after (serve (publish p env r) w)))).
Proof.
  intros Hp.
  destruct env as [now mk cr ro uo cf smk sv], r as [m me fv fc fn ff].
  destruct p; [|done|]; unfold_handler; simpl; intros H;
    branches; eexists; split_and!; try by simplify_map_eq.
  all: unfold effective_channel; simpl;
    match goal with H : String.eqb _ "" = _ |- _ => rewrite H end;
    apply lookup_insert_eq.
Qed.



(** ** download *)

Lemma TrimPrefix_download rest :
  strings_TrimPrefix ("/download/" +:+ rest) "/download/" = rest.
Proof. reflexivity. Qed.

Lemma Split_segment v rest :
  has_slash v = false ->
  strings_Split (v +:+ "/" +:+ rest) "/" = v :: strings_Split rest "/".
Proof.
  induction v as [|c v IH]; simpl; [done|].
  intros [Hc Hv]%orb_false_iff. rewrite Hc.
  change (String.append v (String "/" rest)) with (v +:+ "/" +:+ rest).
  by rewrite (IH Hv).
Qed.

Lemma Split_single v : has_slash v = false -> strings_Split v "/" = [v].
Proof.
  induction v as [|c v IH]; simpl; [done|].
  intros [Hc Hv]%orb_false_iff. rewrite Hc. by rewrite (IH Hv).
Qed.

(** The first segment alone decides what [handleDownload] does. *)
Lemma handleDownload_first_segment quote v parts c path :
  strings_Split (strings_TrimPrefix path "/download/") "/" = v :: parts ->
  ServerMain.handleDownload quote path c =
    (if String.eqb v ""
     then (mkConn (world c) (out c ++ [Wrote StatusBadRequest (TextBody "version required")]),
           inl Return)
     else match ReleasesByVersion (store (world c)) !! v with
          | None =>
              (mkConn (world c) (out c ++ [Wrote StatusNotFound (TextBody "unknown version")]),
               inl Return)
          | Some rel =>
              (mkConn (world c)
                 (out c ++ [ServeFile ("attachment; filename=" +:+ quote (path_Base (FilePath rel)))
                                      (FilePath rel)]),
               inr tt)
          end).
Proof.
  intros Hs. unfold ServerMain.handleDownload. rewrite Hs.
  unfold http_Error, write, return_, the_world. cbv [bind get ret modify exit_with]. simpl.
  destruct (String.eqb v ""); [done|].
  by destruct (ReleasesByVersion (store (world c)) !! v).
Qed.

Lemma serve_handleDownload quote v parts w path :
  strings_Split (strings_TrimPrefix path "/download/") "/" = v :: parts ->
  serve (ServerMain.handleDownload quote path) w =
    mkServed w
      (if String.eqb v "" then [Wrote StatusBadRequest (TextBody "version required")]
       else match ReleasesByVersion (store w) !! v with
            | None => [Wrote StatusNotFound (TextBody "unknown version")]
            | Some rel =>
                [ServeFile ("attachment; filename=" +:+ quote (path_Base (FilePath rel)))
                           (FilePath rel)]
            end)
      false.
Proof.
  intros Hs. unfold serve. rewrite (handleDownload_first_segment _ _ _ _ _ Hs). simpl.
  destruct (String.eqb v ""); [done|].
  by destruct (ReleasesByVersion (store w) !! v).
Qed.



(* ===================================================================== *)
(** * Proofs: invariants, failures and restarts of the release servers *)
(* ===================================================================== *)

(** ** The text of a digest *)

Lemma block_length h chunk : List.length (block h chunk) = 8%nat.
Proof. unfold block. by destruct (rounds _ _ _). Qed.

Lemma blocks_length n : forall h p, List.length h = 8%nat -> List.length (blocks n h p) = 8%nat.
Proof.
  induction n as [|n IH]; intros h p Hh; simpl; [done|].
  apply IH, block_length.
Qed.

Lemma be_bytes_length k x : List.length (be_bytes k x) = k.
Proof. induction k as [|k IH]; simpl; [done|]. by rewrite IH. Qed.

Lemma flat_be_bytes_length h :
  List.length (flat_map (be_bytes 4) h) = (4 * List.length h)%nat.
Proof.
  induction h as [|x h IH]; [done|].
  cbn [flat_map]. rewrite length_app, be_bytes_length, IH. simpl. lia.
Qed.

Lemma sha256_Sum_length data : List.length (sha256_Sum data) = 32%nat.
Proof.
  unfold sha256_Sum. cbv zeta. rewrite length_map, flat_be_bytes_length.
  by rewrite blocks_length.
Qed.

Lemma hex_digit_lower n : lower_hex (hex_digit n) = true.
Proof.
  unfold hex_digit. destruct (Z.to_nat n) as [|k]; [done|].
  do 15 (destruct k as [|k]; [done|]). done.
Qed.

Lemma hex_EncodeToString_text src :
  String.length (hex_EncodeToString src) = (2 * List.length src)%nat
  /\ all_lower_hex (hex_EncodeToString src) = true.
Proof.
  induction src as [|v src [IH1 IH2]]; [done|].
  unfold hex_EncodeToString; fold hex_EncodeToString.
  cbn [String.length List.length all_lower_hex].
  rewrite !hex_digit_lower, IH1, IH2. split; [lia|done].
Qed.

Lemma sha256_hex_text data : digest_text (hex_EncodeToString (sha256_Sum data)).
Proof.
  destruct (hex_EncodeToString_text (sha256_Sum data)) as [H1 H2].
  split; [|done]. by rewrite H1, sha256_Sum_length.
Qed.

(** ** What every stored release looks like *)

Lemma store_wf_empty p : store_wf p empty_store.
Proof.
  split; simpl.
  - intros v rel H. by rewrite lookup_empty in H.
  - intros c [x H]. by rewrite lookup_empty in H.
Qed.

Lemma server_wf_fresh p : server_wf p fresh_server.
Proof. split; [apply store_wf_empty|done]. Qed.

Lemma release_wf_json p v rel : release_wf p v rel -> release_wf p v (json_Release rel).
Proof. by intros (? & ? & ? & ? & ?). Qed.

Lemma store_wf_json p st : store_wf p st -> store_wf p (json_Store st).
Proof.
  intros [Hr Hc]. split; simpl; [|done].
  intros v rel. rewrite lookup_fmap.
  destruct (ReleasesByVersion st !! v) as [rel0|] eqn:E; simpl; [|done].
  intros [= <-]. by apply release_wf_json, Hr.
Qed.

Lemma default_channel_not_empty c : (if String.eqb c "" then "stable" else c) <> "".
Proof. destruct (String.eqb c "") eqn:E; [done|]. by apply String.eqb_neq in E. Qed.

(** The update [publish] makes to both maps. *)
Lemma keeps_wf_update p version c hashed notes t path :
  (rejects_blank p = true -> String.eqb version "" = false) ->
  keeps (server_wf p) (on_world (fun w =>
    set_store
      (mkStore (<[version := mkRelease version (if String.eqb c "" then "stable" else c)
                               ("/download/" +:+ version)
                               (hex_EncodeToString (sha256_Sum hashed)) notes t path]>
                  (ReleasesByVersion (store w)))
               (<[(if String.eqb c "" then "stable" else c) := version]>
                  (LatestByChannel (store w)))) w)).
Proof.
  intros Hv. apply keeps_on_world. intros w [[Hr Hc] Hf]. split; [|done].
  split; simpl.
  - intros v rel. destruct (decide (v = version)) as [->|Hne].
    + rewrite lookup_insert_eq. intros [= <-].
      split_and!; simpl; [done..|apply default_channel_not_empty|apply sha256_hex_text|].
      intros Hp. by apply String.eqb_neq, Hv.
    + rewrite lookup_insert_ne by done. apply Hr.
  - intros ch. destruct (decide (ch = if String.eqb c "" then "stable" else c)) as [->|Hne].
    + intros _. apply default_channel_not_empty.
    + rewrite lookup_insert_ne by done. apply Hc.
Qed.

Lemma keeps_wf_MkdirAll p fault d : keeps (server_wf p) (os_MkdirAll fault d).
Proof. destruct fault; intros c Hc; done. Qed.

Lemma keeps_wf_Create p fault d : keeps (server_wf p) (os_Create fault d).
Proof. destruct fault; intros c Hc; done. Qed.

Lemma keeps_wf_Copy p fault d src : keeps (server_wf p) (io_Copy fault d src).
Proof. intros c Hc; done. Qed.

Lemma keeps_wf_saveStore p fault : keeps (server_wf p) (ServerMain.saveStore fault).
Proof.
  destruct fault; intros c [Hs Hf]; [done|]. split; [done|].
  simpl. intros st [= <-]. by apply store_wf_json.
Qed.

Lemma keeps_wf_controller_saveStore p env : keeps (server_wf p) (controller_saveStore env).
Proof.
  unfold controller_saveStore. apply keeps_bind; [apply keeps_wf_MkdirAll|].
  intros [e|]; [apply keeps_ret|].
  destruct (save_err env); [apply keeps_ret|].
  intros c [Hs Hf]. split; [done|].
  simpl. intros st [= <-]. by apply store_wf_json.
Qed.

Lemma keeps_wf_loadStore p : keeps (server_wf p) Controller.loadStore.
Proof.
  intros c [Hs Hf]. rewrite loadStore_run.
  destruct (storeFile_content (world c)) as [e|tmp] eqn:E; simpl.
  - split; [done|]. by rewrite E.
  - split; simpl; [by apply Hf|]. by rewrite E.
Qed.

(** A guard that returns: what follows runs only where the guard let it. *)
Lemma keeps_guard {A} I (b : bool) (m : Handler unit) (k : Handler A) :
  keeps I m -> (b = false -> keeps I k) ->
  keeps I ((if b then m ;; return_ else ret tt) ;; k).
Proof.
  intros Hm Hk. destruct b.
  - intros c Hc. unfold bind, return_, exit_with. specialize (Hm c Hc).
    by destruct (m c) as [c' [e|a]].
  - apply keeps_bind; [apply keeps_ret|]. intros _. by apply Hk.
Qed.

#[local] Hint Resolve keeps_wf_update keeps_wf_MkdirAll keeps_wf_Create keeps_wf_Copy
  keeps_wf_saveStore keeps_wf_controller_saveStore keeps_wf_loadStore : keeps.

Lemma keeps_wf_handlePublish env r :
  keeps (server_wf NetHttp) (ServerMain.handlePublish env r).
Proof.
  unfold ServerMain.handlePublish.
  apply keeps_bind; [auto with keeps|intros _].
  apply keeps_bind; [auto with keeps|intros _].
  cbv zeta. apply keeps_guard; [auto with keeps|intros Hv].
  auto 60 with keeps.
Qed.

Lemma keeps_wf_Controller_Publish env r :
  keeps (server_wf Gin) (Controller.Publish env r).
Proof.
  unfold Controller.Publish, Controller.saveStore.
  cbv zeta. apply keeps_guard; [auto with keeps|intros Hv].
  auto 60 with keeps.
Qed.

Lemma keeps_wf_ControllerOld_Publish env r :
  keeps (server_wf GinOld) (ControllerOld.Publish env r).
Proof.
  unfold ControllerOld.Publish, ControllerOld.saveStore.
  assert (forall version, rejects_blank GinOld = true -> String.eqb version "" = false)
    by done.
  auto 60 with keeps.
Qed.

Lemma keeps_wf_route quote p q : keeps (server_wf p) (route quote p q).
Proof.
  destruct p, q; simpl; unfold no_route, ServerMain.handleCheck, ServerMain.handleDownload,
    Controller.Check;
    auto 40 using keeps_wf_handlePublish, keeps_wf_ControllerOld_Publish,
      keeps_wf_Controller_Publish with keeps.
Qed.

Lemma run_keeps_wf quote p qs : forall w, server_wf p w -> server_wf p (run quote p qs w).
Proof.
  induction qs as [|q qs IH]; intros w Hw; [done|].
  simpl. apply IH. apply keeps_serve; [apply keeps_wf_route|done].
Qed.

(** After any sequence of requests served by any of the three programs from
    the empty store, a release stored under a version carries that version,
    the URL /download/<version>, a channel that is not empty and a digest of
    64 lower-case hexadecimal characters; in the net/http server and in the
    current controller the version is not empty. *)
Theorem stored_release_well_formed (quote : string -> string) (p : program)
    (qs : list Request) (v : string) (rel : Release) :
  ReleasesByVersion (store (run quote p qs fresh_server)) !! v = Some rel ->
  Version rel = v
  /\ URL rel = "/download/" +:+ v
  /\ Channel rel <> ""
  /\ String.length (Sha256 rel) = 64%nat
  /\ all_lower_hex (Sha256 rel) = true
  /\ (p <> GinOld -> v <> "").
Proof.
  intros H.
  destruct (run_keeps_wf quote p qs _ (server_wf_fresh p)) as [[Hr _] _].
  destruct (Hr v rel H) as (? & ? & ? & [? ?] & Hb).
  split_and!; [done..|]. intros Hp. apply Hb. by destruct p.
Qed.

Lemma stored_release_well_formed_witness :
  Version release_1_0_0 = "1.0.0"
  /\ URL release_1_0_0 = "/download/" +:+ "1.0.0"
  /\ Channel release_1_0_0 <> ""
  /\ String.length (Sha256 release_1_0_0) = 64%nat
  /\ all_lower_hex (Sha256 release_1_0_0) = true
  /\ (NetHttp <> GinOld -> "1.0.0" <> "").
Proof.
  apply (stored_release_well_formed (fun s => s) NetHttp [ReqPublish calm publish_1_0_0]).
  vm_compute. reflexivity.
Defined.

(** ** publish changes one key of each map *)

Lemma keeps_elsewhere_update version channel st0 rel :
  keeps (elsewhere version channel st0) (on_world (fun w =>
    set_store (mkStore (<[version := rel]> (ReleasesByVersion (store w)))
                       (<[channel := version]> (LatestByChannel (store w)))) w)).
Proof.
  apply keeps_on_world. intros w [Hr Hc]. split; simpl.
  - intros v Hv. rewrite lookup_insert_ne by done. by apply Hr.
  - intros c Hne. rewrite lookup_insert_ne by done. by apply Hc.
Qed.

Lemma keeps_elsewhere_MkdirAll v c st0 fault d : keeps (elsewhere v c st0) (os_MkdirAll fault d).
Proof. destruct fault; intros x Hx; done. Qed.

Lemma keeps_elsewhere_Create v c st0 fault d : keeps (elsewhere v c st0) (os_Create fault d).
Proof. destruct fault; intros x Hx; done. Qed.

Lemma keeps_elsewhere_Copy v c st0 fault d src : keeps (elsewhere v c st0) (io_Copy fault d src).
Proof. intros x Hx; done. Qed.

Lemma keeps_elsewhere_saveStore v c st0 fault :
  keeps (elsewhere v c st0) (ServerMain.saveStore fault).
Proof. destruct fault; intros x Hx; done. Qed.

Lemma keeps_elsewhere_controller_saveStore v c st0 env :
  keeps (elsewhere v c st0) (controller_saveStore env).
Proof.
  unfold controller_saveStore. apply keeps_bind; [apply keeps_elsewhere_MkdirAll|].
  intros [e|]; [apply keeps_ret|].
  destruct (save_err env); [apply keeps_ret|]. intros x Hx; done.
Qed.

Lemma keeps_elsewhere_publish p env r st0 :
  keeps (elsewhere (strings_TrimSpace (form_version r)) (effective_channel p r) st0)
        (publish p env r).
Proof.
  destruct p; unfold publish, effective_channel,
    ServerMain.handlePublish, ControllerOld.Publish, Controller.Publish,
    ControllerOld.saveStore, Controller.saveStore;
    auto 60 using keeps_elsewhere_update, keeps_elsewhere_MkdirAll, keeps_elsewhere_Create,
      keeps_elsewhere_Copy, keeps_elsewhere_saveStore, keeps_elsewhere_controller_saveStore
      with keeps.
Qed.

(** Whatever its outcome, a publish leaves the release of every other
    version and the latest version of every other channel as they were. *)
Theorem publish_touches_one_key (p : program) (env : PublishEnv) (r : PublishReq)
    (w : Server) (v c : string) :
  v <> strings_TrimSpace (form_version r) ->
  c <> effective_channel p r ->
  ReleasesByVersion (store (after (serve (publish p env r) w))) !! v
  = ReleasesByVersion (store w) !! v
  /\ LatestByChannel (store (after (serve (publish p env r) w))) !! c
     = LatestByChannel (store w) !! c.
Proof.
  intros Hv Hc.
  assert (elsewhere (strings_TrimSpace (form_version r)) (effective_channel p r) (store w)
            (after (serve (publish p env r) w))) as [Hr Hl].
  { apply keeps_serve; [apply keeps_elsewhere_publish|]. by split. }
  split; [by apply Hr|by apply Hl].
Qed.

Lemma publish_touches_one_key_witness :
  ReleasesByVersion (store (after (serve (publish Gin calm publish_1_0_0) ahead_of_disk)))
    !! "2.0.0"
  = ReleasesByVersion (store ahead_of_disk) !! "2.0.0"
  /\ LatestByChannel (store (after (serve (publish Gin calm publish_1_0_0) ahead_of_disk)))
       !! "beta"
     = LatestByChannel (store ahead_of_disk) !! "beta".
Proof.
  apply (publish_touches_one_key Gin calm publish_1_0_0 ahead_of_disk "2.0.0" "beta");
    vm_compute; discriminate.
Defined.

(** ** check and download only read *)

Lemma check_run_NetHttp r w :
  store_inv (store w) ->
  exists ua latest msg,
    serve (ServerMain.handleCheck r) w
    = mkServed w [match LatestByChannel (store w) !! checked_channel NetHttp r with
                  | None => unknown_channel_response NetHttp
                  | Some _ => Wrote StatusOK (CheckBody ua latest msg)
                  end] false.
Proof.
  intros Hinv. unfold serve, ServerMain.handleCheck, the_world, http_Error, write, return_.
  cbv [bind get ret modify exit_with]. simpl.
  destruct (LatestByChannel (store w) !! _) as [version|] eqn:Hl; simpl;
    [|by exists true, None, ""].
  destruct (Hinv _ _ Hl) as [latest Hr]. rewrite Hr.
  destruct (String.eqb (default "" (query_current r)) ""); simpl; [by do 3 eexists|].
  pose proof (isNewer_total (Version latest) (default "" (query_current r))) as Ht.
  destruct (isNewer _ _) as [[]|]; [| |done]; simpl; by do 3 eexists.
Qed.

Lemma check_run_Gin r w :
  store_inv (consulted_store Gin w) ->
  exists ua latest msg,
    serve (Controller.Check r) w
    = mkServed (set_store (consulted_store Gin w) w)
        [match LatestByChannel (consulted_store Gin w) !! checked_channel Gin r with
         | None => unknown_channel_response Gin
         | Some _ => Wrote StatusOK (CheckBody ua latest msg)
         end] false.
Proof.
  rewrite consulted_store_Gin. intros Hinv.
  unfold serve, Controller.Check. unfold bind at 1. rewrite loadStore_run. simpl.
  destruct (storeFile_content w) as [e|tmp] eqn:Hs;
    unfold the_world, ResponseFailure, write, return_;
    cbv [bind get ret modify exit_with]; simpl.
  - assert (set_store (store w) w = w) as -> by (by destruct w).
    destruct (LatestByChannel (store w) !! _) as [version|] eqn:Hl; simpl;
      [|by exists true, None, ""].
    destruct (Hinv _ _ Hl) as [latest Hr]. rewrite Hr.
    destruct (String.eqb (default "" (query_current r)) ""); simpl; [by do 3 eexists|].
    pose proof (isNewer_total (Version latest) (default "" (query_current r))) as Ht.
    destruct (isNewer _ _) as [[]|]; [| |done]; simpl; by do 3 eexists.
  - destruct (LatestByChannel tmp !! _) as [version|] eqn:Hl; simpl;
      [|by exists true, None, ""].
    destruct (Hinv _ _ Hl) as [latest Hr]. rewrite Hr.
    destruct (String.eqb (default "" (query_current r)) ""); simpl; [by do 3 eexists|].
    pose proof (isNewer_total (Version latest) (default "" (query_current r))) as Ht.
    destruct (isNewer _ _) as [[]|]; [| |done]; simpl; by do 3 eexists.
Qed.

Lemma consulted_store_inv p w : server_inv w -> store_inv (consulted_store p w).
Proof.
  intros [Hs Hf]. destruct p; [done..|].
  rewrite consulted_store_Gin. destruct (storeFile_content w) as [e|tmp] eqn:E; [done|].
  by apply Hf.
Qed.

(** In a state reached from the empty store a check never panics (the
    latest version of a channel always has its release) and writes exactly
    one response; it leaves the disk as it was, and the store as the reload
    of the snapshot made it (untouched by the net/http handler). A download,
    in any state, writes exactly one response and changes nothing. *)
Theorem check_and_download_only_read (quote : string -> string) (p : program)
    (qs : list Request) (r : CheckReq) (path : string) :
  let w := run quote p qs fresh_server in
  panicked (serve (check p r) w) = false
  /\ length (response (serve (check p r) w)) = 1%nat
  /\ after (serve (check p r) w) = set_store (consulted_store p w) w
  /\ (p = NetHttp -> after (serve (check p r) w) = w)
  /\ (forall w', panicked (serve (ServerMain.handleDownload quote path) w') = false
                 /\ length (response (serve (ServerMain.handleDownload quote path) w')) = 1%nat
                 /\ after (serve (ServerMain.handleDownload quote path) w') = w').
Proof.
  intros w.
  pose proof (run_keeps_inv quote p qs _ server_inv_fresh) as Hinv. fold w in Hinv.
  pose proof (consulted_store_inv p w Hinv) as Hc.
  assert (forall w', panicked (serve (ServerMain.handleDownload quote path) w') = false
          /\ length (response (serve (ServerMain.handleDownload quote path) w')) = 1%nat
          /\ after (serve (ServerMain.handleDownload quote path) w') = w') as Hdl.
  { intros w'.
    pose proof (Split_nonempty (strings_TrimPrefix path "/download/") "/") as Hne.
    destruct (strings_Split (strings_TrimPrefix path "/download/") "/") as [|v parts] eqn:Hs;
      [done|].
    rewrite (serve_handleDownload quote v parts w' path Hs). simpl.
    split_and!; [done| |done].
    destruct (String.eqb v ""); [done|]. by destruct (ReleasesByVersion (store w') !! v). }
  assert (set_store (store w) w = w) as Hw by (by destruct w).
  destruct p; unfold check.
  - destruct (check_run_NetHttp r w Hc) as (ua & latest & msg & ->). simpl.
    by rewrite Hw.
  - unfold no_route, serve at 1 2 3 4, write. cbv [modify]. simpl. by rewrite Hw.
  - by destruct (check_run_Gin r w Hc) as (ua & latest & msg & ->).
Qed.

(** A check whose query holds the channel key with an empty value: the
    controller looks the empty channel up, which no publish ever records,
    and answers 500 in every state reached from the empty store; the net/http
    handler treats it as the absent key. *)
Theorem Check_empty_channel (quote : string -> string) (qs : list Request)
    (current device_id : option string) :
  response (serve (Controller.Check (mkCheckReq (Some "") current device_id))
                  (run quote Gin qs fresh_server))
  = [unknown_channel_response Gin]
  /\ forall w, serve (ServerMain.handleCheck (mkCheckReq (Some "") current device_id)) w
               = serve (ServerMain.handleCheck (mkCheckReq None current device_id)) w.
Proof.
  split; [|done].
  set (w := run quote Gin qs fresh_server).
  pose proof (run_keeps_inv quote Gin qs _ server_inv_fresh) as Hinv. fold w in Hinv.
  pose proof (run_keeps_wf quote Gin qs _ (server_wf_fresh Gin)) as [Hw Hf]. fold w in Hw, Hf.
  assert (LatestByChannel (consulted_store Gin w) !! "" = None) as Hnone.
  { rewrite consulted_store_Gin.
    destruct (storeFile_content w) as [e|tmp] eqn:E.
    - destruct Hw as [_ Hc]. destruct (LatestByChannel (store w) !! "") eqn:El; [|done].
      by destruct (Hc "" (mk_is_Some _ _ El)).
    - destruct (Hf tmp eq_refl) as [_ Hc].
      destruct (LatestByChannel tmp !! "") eqn:El; [|done].
      by destruct (Hc "" (mk_is_Some _ _ El)). }
  destruct (check_run_Gin (mkCheckReq (Some "") current device_id) w
              (consulted_store_inv Gin w Hinv)) as (ua & latest & msg & ->).
  unfold checked_channel. cbn [query_channel response].
  change (default "stable" (Some "")) with "". by rewrite Hnone.
Qed.

(** ** The outcome of a publish *)

Lemma eqb_POST m : negb (String.eqb m "POST") = false -> m = "POST".
Proof. intros H. apply negb_false_iff in H. by apply String.eqb_eq. Qed.

(** The net/http handler and the current controller answer a publish exactly
    once and never panic. The status is 200 exactly when the request is
    accepted, every step of the artifact write succeeds and saveStore returns
    no error; it is 405 exactly when the net/http handler gets a method other
    than POST; otherwise it is 400 or 500. A 400 or 405 leaves the process and
    the disk as they were. *)
Theorem publish_answers_once (p : program) (env : PublishEnv) (r : PublishReq) (w : Server) :
  p <> GinOld ->
  exists status body,
    response (serve (publish p env r) w) = [Wrote status body]
    /\ panicked (serve (publish p env r) w) = false
    /\ In status [StatusOK; StatusBadRequest; StatusMethodNotAllowed;
                  StatusInternalServerError]
    /\ (status = StatusOK <->
        (exists file, accepted p r file) /\ artifact_written p env
        /\ saveStore_error p env = None)
    /\ (status = StatusMethodNotAllowed <-> p = NetHttp /\ Method r <> "POST")
    /\ (status = StatusBadRequest \/ status = StatusMethodNotAllowed ->
        after (serve (publish p env r) w) = w).
Proof.
  intros Hp.
  destruct env as [now mk cr ro uo cf smk sv], r as [m me fv fc fn ff].
  unfold accepted, artifact_written, saveStore_error.
  destruct p; [|done|]; unfold_handler; simpl.
  - destruct (negb (String.eqb m "POST")) eqn:Hm; simpl.
    { do 2 eexists. split_and!; [done..|by right; right; left| | |by destruct w].
      - split; [done|]. intros ([file (_ & _ & -> & _)] & _). done.
      - split; [|done]. intros _. split; [done|]. intros ->. done. }
    apply eqb_POST in Hm. subst m.
    destruct me as [e|]; simpl.
    { do 2 eexists. split_and!; [done..|by right; left| | |by destruct w].
      - split; [done|]. intros ([file (_ & _ & _ & ?)] & _). done.
      - split; [done|]. by intros [_ ?]. }
    destruct (String.eqb (strings_TrimSpace fv) "") eqn:Hv; simpl.
    { apply String.eqb_eq in Hv.
      do 2 eexists. split_and!; [done..|by right; left| | |by destruct w].
      - split; [done|]. intros ([file (? & _)] & _). done.
      - split; [done|]. by intros [_ ?]. }
    apply String.eqb_neq in Hv.
    destruct ff as [e|file]; simpl.
    { do 2 eexists. split_and!; [done..|by right; left| | |by destruct w].
      - split; [done|]. intros ([file (_ & ? & _)] & _). done.
      - split; [done|]. by intros [_ ?]. }
    destruct mk as [e|]; simpl.
    { do 2 eexists. split_and!; [done..|by right; right; right; left| | |by intros [|]].
      - split; [done|]. intros (_ & (? & _) & _). done.
      - split; [done|]. by intros [_ ?]. }
    destruct cr as [e|]; simpl.
    { do 2 eexists. split_and!; [done..|by right; right; right; left| | |by intros [|]].
      - split; [done|]. intros (_ & (_ & ? & _) & _). done.
      - split; [done|]. by intros [_ ?]. }
    destruct cf as [[n e]|]; simpl.
    { do 2 eexists. split_and!; [done..|by right; right; right; left| | |by intros [|]].
      - split; [done|]. intros (_ & (_ & _ & ? & _) & _). done.
      - split; [done|]. by intros [_ ?]. }
    destruct sv as [e|]; simpl.
    { do 2 eexists. split_and!; [done..|by right; right; right; left| | |by intros [|]].
      - split; [done|]. intros (_ & _ & ?). done.
      - split; [done|]. by intros [_ ?]. }
    do 2 eexists. split_and!; [done..|by left| | |by intros [|]].
    + split; [|done]. intros _. split_and!; try done. by exists file.
    + split; [done|]. by intros [_ ?].
  - destruct (String.eqb (strings_TrimSpace fv) "") eqn:Hv; simpl.
    { apply String.eqb_eq in Hv.
      do 2 eexists. split_and!; [done..|by right; left| | |by destruct w].
      - split; [done|]. intros ([file (? & _)] & _). done.
      - split; [done|]. by intros [? _]. }
    apply String.eqb_neq in Hv.
    destruct ff as [e|file]; simpl.
    { do 2 eexists. split_and!; [done..|by right; left| | |by destruct w].
      - split; [done|]. intros ([file (_ & ? & _)] & _). done.
      - split; [done|]. by intros [? _]. }
    destruct mk as [e|]; simpl.
    { do 2 eexists. split_and!; [done..|by right; right; right; left| | |by intros [|]].
      - split; [done|]. intros (_ & (? & _) & _). done.
      - split; [done|]. by intros [? _]. }
    destruct cr as [e|]; simpl.
    { do 2 eexists. split_and!; [done..|by right; right; right; left| | |by intros [|]].
      - split; [done|]. intros (_ & (_ & ? & _) & _). done.
      - split; [done|]. by intros [? _]. }
    destruct uo as [e|]; simpl.
    { do 2 eexists. split_and!; [done..|by right; right; right; left| | |by intros [|]].
      - split; [done|]. intros (_ & (_ & _ & _ & ?) & _). done.
      - split; [done|]. by intros [? _]. }
    destruct cf as [[n e]|]; simpl.
    { do 2 eexists. split_and!; [done..|by right; right; right; left| | |by intros [|]].
      - split; [done|]. intros (_ & (_ & _ & ? & _) & _). done.
      - split; [done|]. by intros [? _]. }
    destruct smk as [e|]; simpl.
    { do 2 eexists. split_and!; [done..|by right; right; right; left| | |by intros [|]].
      - split; [done|]. intros (_ & _ & ?). done.
      - split; [done|]. by intros [? _]. }
    destruct sv as [e|]; simpl.
    { do 2 eexists. split_and!; [done..|by right; right; right; left| | |by intros [|]].
      - split; [done|]. intros (_ & _ & ?). done.
      - split; [done|]. by intros [? _]. }
    do 2 eexists. split_and!; [done..|by left| | |by intros [|]].
    + split; [|done]. intros _. split_and!; try done. by exists file.
    + split; [done|]. by intros [? _].
Qed.

Lemma publish_answers_once_witness :
  exists status body,
    response (serve (publish Gin calm publish_1_0_0) fresh_server) = [Wrote status body]
    /\ panicked (serve (publish Gin calm publish_1_0_0) fresh_server) = false
    /\ In status [StatusOK; StatusBadRequest; StatusMethodNotAllowed;
                  StatusInternalServerError]
    /\ (status = StatusOK <->
        (exists file, accepted Gin publish_1_0_0 file) /\ artifact_written Gin calm
        /\ saveStore_error Gin calm = None)
    /\ (status = StatusMethodNotAllowed <-> Gin = NetHttp /\ Method publish_1_0_0 <> "POST")
    /\ (status = StatusBadRequest \/ status = StatusMethodNotAllowed ->
        after (serve (publish Gin calm publish_1_0_0) fresh_server) = fresh_server).
Proof.
  apply (publish_answers_once Gin calm publish_1_0_0 fresh_server). discriminate.
Defined.

(** When the copy of the upload fails after [n] bytes, the publish answers
    500 and the store and the snapshot are as before, but the artifact file
    of the version now holds the first [n] bytes of the upload, also where an
    earlier publish of the version had stored its artifact. *)
Theorem publish_failed_copy_leaves_partial_artifact (p : program) (env : PublishEnv)
    (r : PublishReq) (w : Server) (file : Upload) (n : nat) (e : string) :
  p <> GinOld ->
  accepted p r file ->
  mkdirall_err env = None ->
  create_err env = None ->
  (p = Gin -> upload_open_err env = None) ->
  copy_fault env = Some (n, e) ->
  final_status (serve (publish p env r) w) = Some StatusInternalServerError
  /\ length (response (serve (publish p env r) w)) = 1%nat
  /\ store (after (serve (publish p env r) w)) = store w
  /\ storeFile_content (after (serve (publish p env r) w)) = storeFile_content w
  /\ files (after (serve (publish p env r) w))
       !! filepath_Join (filepath_Join artDir (strings_TrimSpace (form_version r))) "algorithm"
     = Some (firstn n (content file)).
Proof.
  intros Hp (Hv & Hf & Hm) Hmk Hcr Huo Hcf.
  apply String_eqb_empty_false in Hv.
  destruct env as [now mk cr ro uo cf smk sv], r as [m me fv fc fn ff].
  simpl in *. subst.
  destruct p; [destruct Hm as [-> ->]|done|rewrite (Huo eq_refl)];
    unfold_handler; simpl; rewrite Hv; simpl;
    (split_and!; [done..|]); by rewrite lookup_insert_eq.
Qed.

Lemma publish_failed_copy_leaves_partial_artifact_witness :
  final_status (serve (publish NetHttp
     (mkPublishEnv 1700000100 None None None None (Some (1%nat, "unexpected EOF")) None None)
     publish_1_0_0) one_release) = Some StatusInternalServerError
  /\ length (response (serve (publish NetHttp
       (mkPublishEnv 1700000100 None None None None (Some (1%nat, "unexpected EOF")) None None)
       publish_1_0_0) one_release)) = 1%nat
  /\ store (after (serve (publish NetHttp
       (mkPublishEnv 1700000100 None None None None (Some (1%nat, "unexpected EOF")) None None)
       publish_1_0_0) one_release)) = store one_release
  /\ storeFile_content (after (serve (publish NetHttp
       (mkPublishEnv 1700000100 None None None None (Some (1%nat, "unexpected EOF")) None None)
       publish_1_0_0) one_release)) = storeFile_content one_release
  /\ files (after (serve (publish NetHttp
       (mkPublishEnv 1700000100 None None None None (Some (1%nat, "unexpected EOF")) None None)
       publish_1_0_0) one_release))
       !! filepath_Join (filepath_Join artDir (strings_TrimSpace (form_version publish_1_0_0)))
            "algorithm"
     = Some (firstn 1 (content payload)).
Proof.
  apply (publish_failed_copy_leaves_partial_artifact NetHttp
           (mkPublishEnv 1700000100 None None None None (Some (1%nat, "unexpected EOF")) None None)
           publish_1_0_0 one_release payload 1 "unexpected EOF").
  - discriminate.
  - split_and!; [by vm_compute|reflexivity..].
  - reflexivity.
  - reflexivity.
  - discriminate.
  - reflexivity.
Defined.

(** ** publish, then check from a device that runs the version *)

Lemma publish_success_version (p : program) (env : PublishEnv) (r : PublishReq) (w : Server)
    (rel : Release) :
  p <> GinOld ->
  response (serve (publish p env r) w) = [Wrote StatusOK (ReleaseBody rel)] ->
  strings_TrimSpace (form_version r) <> "".
Proof.
  intros Hp H Hv.
  destruct env as [now mk cr ro uo cf smk sv], r as [m me fv fc fn ff]. simpl in Hv.
  destruct p; [|done|]; unfold_handler; simpl in H; rewrite Hv in H; simpl in H.
  - destruct (negb (String.eqb m "POST")); simpl in H; [done|].
    destruct me; simpl in H; done.
  - done.
Qed.



(** ** Start-up and restart *)

Lemma decode_into_empty st : ServerMain.decode_into st empty_store = st.
Proof.
  destruct st as [rs ls]. unfold ServerMain.decode_into. simpl.
  by rewrite !(right_id_L ∅ (∪)).
Qed.

Lemma ServerMain_main_run env disk st :
  data_mkdir_err env = None -> art_mkdir_err env = None ->
  storeFile_content disk = inr st ->
  ServerMain.main env disk
  = Serving (mkServer st ({[artDir]} ∪ ({[dataDir]} ∪ dirs disk)) (files disk) (inr st)).
Proof.
  intros Hd Ha Hs. unfold ServerMain.main. rewrite Hd, Ha. cbv zeta.
  unfold serve, ServerMain.loadStore, the_world, on_world.
  cbv [bind get ret modify exit_with]. simpl. rewrite Hs. simpl.
  rewrite decode_into_empty. unfold set_store, set_dirs. simpl. by rewrite Hs.
Qed.



Lemma GinMain_main_run disk :
  GinMain.main disk
  = match storeFile_content disk with
    | inl _ => Exited (set_store empty_store disk)
    | inr st => Serving (set_store st disk)
    end.
Proof.
  unfold GinMain.main, Controller.InitStore. cbv zeta. unfold bind at 1.
  rewrite loadStore_run. simpl. by destruct (storeFile_content disk).
Qed.


(** ** A check after a publish that could not be saved *)

Lemma Check_store r w :
  store (after (serve (Controller.Check r) w)) = consulted_store Gin w
  /\ storeFile_content (after (serve (Controller.Check r) w)) = storeFile_content w.
Proof.
  rewrite consulted_store_Gin. unfold Controller.Check.
  match goal with |- context [bind Controller.loadStore ?k] => set (rest := k) end.
  assert (forall x w0, keeps (fun y => y = w0) (rest x)) as Hrest
    by (intros x w0; subst rest; cbv beta; auto 40 with keeps).
  unfold serve, bind. rewrite loadStore_run. simpl.
  destruct (storeFile_content w) as [e|tmp] eqn:Hs; simpl.
  - pose proof (Hrest (Some e) w (mkConn w []) eq_refl) as H.
    destruct (rest (Some e) (mkConn w [])) as [c [[]|]]; simpl in *; by subst.
  - pose proof (Hrest None (set_store tmp w) (mkConn (set_store tmp w) []) eq_refl) as H.
    destruct (rest None (mkConn (set_store tmp w) [])) as [c [[]|]]; simpl in *;
      by rewrite H.
Qed.

Lemma Controller_Publish_unsaved env r w file e :
  accepted Gin r file ->
  artifact_written Gin env ->
  saveStore_error Gin env = Some e ->
  LatestByChannel (store (after (serve (Controller.Publish env r) w))) !! effective_channel Gin r
  = Some (strings_TrimSpace (form_version r))
  /\ storeFile_content (after (serve (Controller.Publish env r) w)) = storeFile_content w.
Proof.
  intros (Hv & Hf & _) (Hmk & Hcr & Hcp & Hopen) Hsave.
  apply String_eqb_empty_false in Hv.
  destruct env as [now mk cr ro uo cf smk sv], r as [m me fv fc fn ff].
  simpl in *. subst.
  unfold_handler; simpl; rewrite ?Hv; simpl.
  destruct smk as [e'|]; simplify_eq; simpl; (split; [apply lookup_insert_eq|done]).
Qed.

(** A publish whose saveStore failed is in the store of the controller until
    the next check: the check reloads the snapshot, which does not have it,
    and the store is the snapshot again (it stays as it was only where the
    snapshot cannot be read). *)
Theorem Check_forgets_unsaved_release (env : PublishEnv) (r : PublishReq) (w : Server)
    (file : Upload) (e : string) (q : CheckReq) :
  accepted Gin r file ->
  artifact_written Gin env ->
  saveStore_error Gin env = Some e ->
  let w1 := after (serve (Controller.Publish env r) w) in
  LatestByChannel (store w1) !! effective_channel Gin r
  = Some (strings_TrimSpace (form_version r))
  /\ store (after (serve (Controller.Check q) w1))
     = match storeFile_content w with
       | inr snapshot => snapshot
       | inl _ => store w1
       end
  /\ storeFile_content (after (serve (Controller.Check q) w1)) = storeFile_content w.
Proof.
  intros Ha Hw Hs w1.
  destruct (Controller_Publish_unsaved env r w file e Ha Hw Hs) as [Hl Hf].
  fold w1 in Hl, Hf.
  destruct (Check_store q w1) as [Hst Hsf].
  rewrite Hst, Hsf, consulted_store_Gin, Hf. done.
Qed.

Lemma Check_forgets_unsaved_release_witness :
  let w1 := after (serve (Controller.Publish disk_full publish_1_0_0) ahead_of_disk) in
  LatestByChannel (store w1) !! effective_channel Gin publish_1_0_0
  = Some (strings_TrimSpace (form_version publish_1_0_0))
  /\ store (after (serve (Controller.Check (check_stable_from "")) w1))
     = match storeFile_content ahead_of_disk with
       | inr snapshot => snapshot
       | inl _ => store w1
       end
  /\ storeFile_content (after (serve (Controller.Check (check_stable_from "")) w1))
     = storeFile_content ahead_of_disk.
Proof.
  apply (Check_forgets_unsaved_release disk_full publish_1_0_0 ahead_of_disk payload
           "rename: no space left on device" (check_stable_from "")).
  - split_and!; [by vm_compute|reflexivity|exact I].
  - split_and!; reflexivity.
  - reflexivity.
Defined.

(* ===================================================================== *)
(** * Proofs: the device agent *)
(* ===================================================================== *)

Section AgentProofs.
Import Agent.

Lemma append_inj_l (p a b : string) : p +:+ a = p +:+ b -> a = b.
Proof. induction p as [|c p IH]; simpl; [done|]. intros [= H]. by apply IH. Qed.

(** Two names in one directory are one path only if they are one name. *)
Lemma Join_inj dir a b :
  a <> "" -> b <> "" -> filepath_Join dir a = filepath_Join dir b -> a = b.
Proof.
  unfold filepath_Join. intros Ha Hb.
  destruct dir as [|c dir]; [done|]. destruct a; [done|]. destruct b; [done|].
  intros H. apply append_inj_l in H. by apply (append_inj_l "/") in H.
Qed.

Lemma tmpFile_not_record cfg latest : tmpFile_of cfg latest <> currentVerFP_of cfg.
Proof. intros H. apply Join_inj in H; done. Qed.

Lemma dst_not_record cfg latest : dst_of cfg latest <> currentVerFP_of cfg.
Proof. intros H. apply Join_inj in H; done. Qed.

Lemma currLink_not_record cfg : currLink_of cfg <> currentVerFP_of cfg.
Proof. intros H. apply Join_inj in H; done. Qed.

Lemma tmpFile_not_dst cfg latest : tmpFile_of cfg latest <> dst_of cfg latest.
Proof. intros H. apply Join_inj in H; done. Qed.

Lemma tmpFile_not_currLink cfg latest : tmpFile_of cfg latest <> currLink_of cfg.
Proof. intros H. apply Join_inj in H; done. Qed.

Lemma node_bytes_with_bytes n data perm : node_bytes (Some (with_bytes n data perm)) = data.
Proof. by destruct n as [[]|]. Qed.

(** A download that succeeds leaves the body in the temporary file. *)
Lemma downloadToFile_run env cfg latest body r :
  downloads env cfg latest body ->
  downloadToFile env (Cfg.ServerURL cfg +:+ URL latest) (tmpFile_of cfg latest) r
  = (mkRun (set_fs (<[tmpFile_of cfg latest :=
                        with_bytes (Some (truncated (fs (dev r) !! tmpFile_of cfg latest) mode_0666))
                                   body mode_0666]> (fs (dev r))) (dev r))
           (log r ++ [EvGet (Cfg.ServerURL cfg +:+ URL latest);
                      EvCreate (tmpFile_of cfg latest);
                      EvCopy (tmpFile_of cfg latest) body]),
     inr tt).
Proof.
  intros (Hget & Hcreate & Hcopy). unfold downloadToFile, emit, on_dev, check_err.
  cbv [bind get ret modify exit_with]. simpl. rewrite Hget, Hcreate, Hcopy. simpl.
  rewrite lookup_insert_eq, insert_insert_eq. simpl.
  by rewrite <- !app_assoc.
Qed.

(** The verifier compares the digest of the file's bytes with the one
    declared. *)
Lemma verifySha256_run env fp want r :
  readable env ->
  verifySha256 env fp want r
  = (r, inr (String.eqb (sha256_hex (node_bytes (fs (dev r) !! fp))) want)).
Proof.
  intros (Hopen & Hread). unfold verifySha256, check_err, the_dev.
  cbv [bind get ret modify exit_with]. by rewrite Hopen, Hread.
Qed.



(** The record is read back as written. *)
Lemma string_of_bytes_of_string s : string_of_bytes (bytes_of_string s) = s.
Proof. apply String.string_of_list_byte_of_string. Qed.

(** ** A cycle up to the restart is quiet *)

Section Cycle.
Variable env : CycleEnv.
Variable cfg : Config.
Variable d : Device.
Hypothesis main_set_the_path : currentVerFP d = currentVerFP_of cfg.

Lemma stays_ret {A} (a : A) : stays_quiet cfg d (ret a).
Proof. by intros r. Qed.

Lemma stays_exit {A} e : stays_quiet cfg d (exit_with e : M A).
Proof. by intros r. Qed.

Lemma stays_bind {A B} (m : M A) (k : A -> M B) :
  stays_quiet cfg d m -> (forall a, stays_quiet cfg d (k a)) -> stays_quiet cfg d (bind m k).
Proof.
  intros Hm Hk r Hr. unfold bind. specialize (Hm r Hr).
  destruct (m r) as [r' [e|a]]; [done|]. by apply Hk.
Qed.

Lemma stays_emit e : harmless e -> stays_quiet cfg d (emit e).
Proof.
  intros He r (Hfs & Hp & Hl). split_and!; [done..|].
  simpl. apply Forall_app. split; [done|]. by constructor.
Qed.

Lemma stays_on_dev f :
  (forall x, fs (f x) !! currentVerFP_of cfg = fs x !! currentVerFP_of cfg
             /\ currentVerFP (f x) = currentVerFP x) ->
  stays_quiet cfg d (on_dev f).
Proof.
  intros Hf r (Hfs & Hp & Hl). destruct (Hf (dev r)) as [H1 H2].
  split_and!; simpl; [by rewrite H1|by rewrite H2|done].
Qed.

Lemma stays_the_dev : stays_quiet cfg d the_dev.
Proof. by intros r. Qed.

Lemma stays_check_err err : stays_quiet cfg d (check_err err).
Proof. destruct err; by intros r. Qed.

Lemma stays_set_fs_insert p n :
  p <> currentVerFP_of cfg ->
  stays_quiet cfg d (on_dev (fun x => set_fs (<[p := n x]> (fs x)) x)).
Proof. intros Hp. apply stays_on_dev. intros x. simpl. by rewrite lookup_insert_ne. Qed.

Lemma stays_set_currentCmd c : stays_quiet cfg d (on_dev (set_currentCmd c)).
Proof. by apply stays_on_dev. Qed.

Create HintDb quiet discriminated.
#[local] Hint Resolve stays_ret stays_exit stays_the_dev stays_check_err
  stays_set_currentCmd : quiet.
#[local] Hint Extern 2 (stays_quiet _ _ (bind _ _)) => apply stays_bind; [|intros ?] : quiet.
#[local] Hint Extern 2 (stays_quiet _ _ (emit _)) => apply stays_emit; exact I : quiet.
#[local] Hint Extern 3 (stays_quiet _ _ (match ?x with _ => _ end)) => destruct x : quiet.
#[local] Hint Extern 3 (stays_quiet _ _ (let _ := _ in _)) => progress cbv zeta : quiet.

Lemma stays_downloadToFile url p :
  p <> currentVerFP_of cfg -> stays_quiet cfg d (downloadToFile env url p).
Proof.
  intros Hp. unfold downloadToFile.
  pose proof (stays_set_fs_insert p (fun x => truncated (fs x !! p) mode_0666) Hp).
  assert (forall w, stays_quiet cfg d (on_dev (fun x =>
            set_fs (<[p := with_bytes (fs x !! p) w mode_0666]> (fs x)) x)))
    by (intros w; apply (stays_set_fs_insert p (fun x => with_bytes (fs x !! p) w mode_0666) Hp)).
  auto 30 with quiet.
Qed.

Lemma stays_verifySha256 fp want : stays_quiet cfg d (verifySha256 env fp want).
Proof. unfold verifySha256. auto 20 with quiet. Qed.

Lemma stays_os_Remove p : p <> currentVerFP_of cfg -> stays_quiet cfg d (os_Remove p).
Proof.
  intros Hp. unfold os_Remove. apply stays_bind; [auto with quiet|intros _].
  apply stays_on_dev. intros x. simpl. by rewrite lookup_delete_ne.
Qed.

Lemma stays_os_Rename a b :
  a <> currentVerFP_of cfg -> b <> currentVerFP_of cfg -> stays_quiet cfg d (os_Rename env a b).
Proof.
  intros Ha Hb. unfold os_Rename.
  apply stays_bind; [auto with quiet|intros _].
  apply stays_bind; [auto with quiet|intros _].
  apply stays_on_dev. intros x. destruct (fs x !! a); simpl; [|done].
  by rewrite lookup_delete_ne, lookup_insert_ne.
Qed.

Lemma stays_os_Chmod p mode : p <> currentVerFP_of cfg -> stays_quiet cfg d (os_Chmod env p mode).
Proof.
  intros Hp. unfold os_Chmod.
  apply stays_bind; [auto with quiet|intros _].
  apply stays_bind; [auto with quiet|intros _].
  apply stays_on_dev. intros x. destruct (fs x !! p) as [[]|]; simpl; [|done..].
  by rewrite lookup_insert_ne.
Qed.

Lemma stays_os_Symlink a p : p <> currentVerFP_of cfg -> stays_quiet cfg d (os_Symlink env a p).
Proof.
  intros Hp. unfold os_Symlink.
  apply stays_bind; [auto with quiet|intros _].
  apply stays_bind; [auto with quiet|intros _].
  apply (stays_set_fs_insert p (fun _ => Symlink a) Hp).
Qed.

Lemma stays_stopAlgorithm : stays_quiet cfg d (stopAlgorithm env).
Proof. unfold stopAlgorithm. auto 20 with quiet. Qed.

Lemma harmless_before_recording b l :
  Forall harmless l ->
  forall l', restarted_before_recording (currLink_of cfg) (currentVerFP_of cfg) b (l ++ l')
             = restarted_before_recording (currLink_of cfg) (currentVerFP_of cfg) b l'.
Proof.
  induction 1 as [|e l He Hl IH]; intros l'; [done|].
  simpl. destruct e as [| | | | | | | | | |bin [err|pid]|]; simpl in He; done.
Qed.

Lemma harmless_not_restarted l : Forall harmless l -> ~ restarted (currLink_of cfg) l.
Proof.
  intros Hl [pid Hin]. rewrite Forall_forall in Hl.
  apply list_elem_of_In in Hin. exact (Hl _ Hin).
Qed.

(** Whatever a cycle returns from a quiet state, C6 holds of it. *)
Lemma quiet_outcome r res : quiet cfg d r -> record_follows_restart env cfg d (outcome_of (r, res)).
Proof.
  intros (Hfs & Hp & Hl). unfold record_follows_restart, outcome_of. simpl.
  split_and!.
  - rewrite <- (app_nil_r (log r)). by rewrite harmless_before_recording.
  - intros _. split; [done|]. unfold readCurrentVersion.
    by rewrite Hp, main_set_the_path, Hfs.
  - intros _ Hr. by apply harmless_not_restarted in Hr.
  - done.
Qed.

Lemma ends_well_bind {A} (m : M A) (k : A -> M unit) :
  stays_quiet cfg d m -> (forall a, ends_well env cfg d (k a)) -> ends_well env cfg d (bind m k).
Proof.
  intros Hm Hk r Hr. specialize (Hm r Hr). unfold bind.
  destruct (m r) as [r' [e|a]] eqn:E; simpl in Hm.
  - by apply quiet_outcome.
  - by apply Hk.
Qed.

Lemma ends_well_ret : ends_well env cfg d (ret tt).
Proof. intros r Hr. by apply quiet_outcome. Qed.

Lemma ends_well_exit e : ends_well env cfg d (exit_with e).
Proof. intros r Hr. by apply quiet_outcome. Qed.

Lemma ends_well_bind_ret {A} (a : A) (k : A -> M unit) :
  ends_well env cfg d (k a) -> ends_well env cfg d (bind (ret a) k).
Proof. intros H r Hr. exact (H r Hr). Qed.

Lemma ends_well_ext (m m' : M unit) : (forall r, m r = m' r) -> ends_well env cfg d m' -> ends_well env cfg d m.
Proof. intros E H r Hr. rewrite E. by apply H. Qed.

Lemma bind_assoc {S E A B C} (m : @SE S E A) (f : A -> @SE S E B) (g : B -> @SE S E C) s :
  bind (bind m f) g s = bind m (fun x => bind (f x) g) s.
Proof. unfold bind. by destruct (m s) as [s' [e|a]]. Qed.

(** The last two steps: start the payload, then write the record. *)
Lemma start_then_record latest :
  offers env cfg (readCurrentVersion d) latest ->
  ends_well env cfg d (startAlgorithm env (currLink_of cfg) ;;
             d0 <- the_dev ;;
             os_WriteFile env (currentVerFP d0) (bytes_of_string (Version latest))).
Proof.
  intros Hoffer r (Hfs & Hp & Hl).
  unfold startAlgorithm, os_WriteFile, the_dev, emit, on_dev.
  cbv [bind get ret modify exit_with]. simpl.
  destruct (start_result env) as [err|pid] eqn:Hstart; simpl.
  - apply quiet_outcome. split_and!; [done..|]. simpl.
    apply Forall_app. split; [done|]. by constructor.
  - assert (restarted (currLink_of cfg)
              (log r ++ [EvStart (currLink_of cfg) (inr pid)])) as Hres.
    { exists pid. apply in_or_app. right. by left. }
    assert (forall data,
      restarted_before_recording (currLink_of cfg) (currentVerFP_of cfg) false
        ((log r ++ [EvStart (currLink_of cfg) (inr pid)])
           ++ [EvWriteFile (currentVerFP_of cfg) data]) = true) as Hord.
    { intros data. rewrite <- app_assoc, harmless_before_recording by done.
      simpl. by rewrite !String.eqb_refl. }
    assert (forall x, restarted (currLink_of cfg) x -> restarted (currLink_of cfg) (x ++ [EvWriteFile (currentVerFP_of cfg) (bytes_of_string (Version latest))])) as Hmore.
    { intros x [q Hq]. exists q. apply in_or_app. by left. }
    rewrite Hp, main_set_the_path.
    unfold record_follows_restart, outcome_of.
    destruct (writefile_fault env) as [[err|n err]|]; simpl;
      (split_and!;
       [ by rewrite Hord
       | intros Hno; exfalso; apply Hno; by apply Hmore
       | first [ discriminate
               | intros _ _; exists latest; split; [done|];
                 unfold readCurrentVersion; simpl;
                 rewrite Hp, main_set_the_path, lookup_insert_eq;
                 destruct (fs (dev r) !! currentVerFP_of cfg) as [[]|]; simpl;
                 apply string_of_bytes_of_string ]
       | done ]).
Qed.

Lemma quiet_start : quiet cfg d (mkRun d []).
Proof. split_and!; by simpl. Qed.

Lemma poll_outcome :
  poll env cfg d = outcome_of (runOnce env cfg (readCurrentVersion d) (mkRun d [])).
Proof.
  unfold poll, exec, outcome_of.
  by destruct (runOnce env cfg (readCurrentVersion d) (mkRun d [])).
Qed.

(** The install steps, from the download to the switch of the link. *)
Lemma install_steps latest :
  offers env cfg (readCurrentVersion d) latest ->
  ends_well env cfg d
    (downloadToFile env (Cfg.ServerURL cfg +:+ URL latest) (tmpFile_of cfg latest) ;;
     ok <- verifySha256 env (tmpFile_of cfg latest) (Sha256 latest) ;;
     (if negb ok
      then os_Remove (tmpFile_of cfg latest) ;; exit_with (errors_New "sha256 mismatch")
      else ret tt) ;;
     os_Rename env (tmpFile_of cfg latest) (dst_of cfg latest) ;;
     os_Chmod env (dst_of cfg latest) mode_0755 ;;
     os_Remove (currLink_of cfg) ;;
     os_Symlink env (dst_of cfg latest) (currLink_of cfg) ;;
     restartAlgorithm env (currLink_of cfg) ;;
     d0 <- the_dev ;;
     os_WriteFile env (currentVerFP d0) (bytes_of_string (Version latest))).
Proof.
  intros Hoffer.
  apply ends_well_bind; [apply stays_downloadToFile, tmpFile_not_record|intros _].
  apply ends_well_bind; [apply stays_verifySha256|intros ok].
  apply ends_well_bind; [|intros _].
  { destruct (negb ok); [|apply stays_ret].
    apply stays_bind; [apply stays_os_Remove, tmpFile_not_record|intros _; apply stays_exit]. }
  apply ends_well_bind;
    [apply stays_os_Rename; [apply tmpFile_not_record|apply dst_not_record]|intros _].
  apply ends_well_bind; [apply stays_os_Chmod, dst_not_record|intros _].
  apply ends_well_bind; [apply stays_os_Remove, currLink_not_record|intros _].
  apply ends_well_bind; [apply stays_os_Symlink, currLink_not_record|intros _].
  unfold restartAlgorithm.
  eapply ends_well_ext; [intros r; rewrite bind_assoc; reflexivity|].
  apply ends_well_bind; [apply stays_stopAlgorithm|intros _].
  eapply ends_well_ext; [intros r; rewrite bind_assoc; reflexivity|].
  apply ends_well_bind; [by apply stays_emit|intros _].
  by apply start_then_record.
Qed.

Lemma runOnce_ends_well : ends_well env cfg d (runOnce env cfg (readCurrentVersion d)).
Proof.
  unfold runOnce. fold (check_url cfg (readCurrentVersion d)).
  apply ends_well_bind; [by apply stays_emit|intros _].
  destruct (check_Get env (check_url cfg (readCurrentVersion d))) as [e|code cbody] eqn:Hget;
    [by intros r Hr; apply quiet_outcome|].
  destruct (code =? 200) eqn:Hcode; simpl; [|by intros r Hr; apply quiet_outcome].
  apply Z.eqb_eq in Hcode. subst code.
  destruct (decode_CheckResp env cbody) as [e|ck] eqn:Hdec;
    [by intros r Hr; apply quiet_outcome|].
  apply ends_well_bind_ret. cbv beta.
  destruct (UpdateAvailable ck) eqn:Hua; [|apply ends_well_ret].
  destruct (Latest ck) as [latest|] eqn:Hlatest; [|apply ends_well_ret].
  apply install_steps. by exists cbody, ck.
Qed.

End Cycle.

(** One cycle, from any device whose [currentVerFP] is the path [main] sets. *)
Lemma cycle_record_follows_restart (env : CycleEnv) (cfg : Config) (d : Device) :
  currentVerFP d = currentVerFP_of cfg ->
  restarted_before_recording (currLink_of cfg) (currentVerFP_of cfg) false
    (calls (poll env cfg d)) = true
  /\ (~ restarted (currLink_of cfg) (calls (poll env cfg d)) ->
      fs (device (poll env cfg d)) !! currentVerFP_of cfg = fs d !! currentVerFP_of cfg
      /\ readCurrentVersion (device (poll env cfg d)) = readCurrentVersion d)
  /\ (result (poll env cfg d) = inr tt ->
      restarted (currLink_of cfg) (calls (poll env cfg d)) ->
      exists latest,
        offers env cfg (readCurrentVersion d) latest
        /\ readCurrentVersion (device (poll env cfg d)) = Version latest)
  /\ (fs d !! currentVerFP d = None -> readCurrentVersion d = "").
Proof.
  intros Hfp.
  pose proof (runOnce_ends_well env cfg d Hfp _ (quiet_start cfg d)) as H.
  rewrite <- poll_outcome in H. destruct H as (H1 & H2 & H3 & _).
  split_and!; [done..|].
  intros Hnone. unfold readCurrentVersion. by rewrite Hnone.
Qed.

Lemma boot_sets_the_path env0 cfg d0 : currentVerFP (boot env0 cfg d0) = currentVerFP_of cfg.
Proof.
  unfold boot. destruct (stat_ok _ _ _); [|done].
  unfold exec, startAlgorithm, emit, on_dev. cbv [bind modify exit_with]. simpl.
  by destruct (start_result env0).
Qed.

Lemma poll_keeps_the_path env cfg d :
  currentVerFP d = currentVerFP_of cfg ->
  currentVerFP (device (poll env cfg d)) = currentVerFP_of cfg.
Proof.
  intros Hfp.
  pose proof (runOnce_ends_well env cfg d Hfp _ (quiet_start cfg d)) as H.
  rewrite <- poll_outcome in H. destruct H as (_ & _ & _ & H). by rewrite H.
Qed.

Lemma main_loop_keeps_the_path envs cfg : forall d,
  currentVerFP d = currentVerFP_of cfg ->
  currentVerFP (main_loop envs cfg d) = currentVerFP_of cfg.
Proof.
  induction envs as [|env envs IH]; intros d Hfp; [done|].
  simpl. apply IH. by apply poll_keeps_the_path.
Qed.


(** The cycle of the sample device against a server that serves the bytes
    the release declares: the payload is restarted and the record then names
    2.0.0; with other bytes the record still names 1.5.0. *)
Example poll_installs_2_0_0 :
  result (poll (serving (bytes_of_string "abc")) drone device_1_5_0) = inr tt
  /\ readCurrentVersion (device (poll (serving (bytes_of_string "abc")) drone device_1_5_0))
     = "2.0.0"
  /\ currentCmd (device (poll (serving (bytes_of_string "abc")) drone device_1_5_0))
     = Some (mkCmd "/opt/algo/algo_current" 4242)
  /\ fs (device (poll (serving (bytes_of_string "abc")) drone device_1_5_0))
       !! "/opt/algo/algo_current" = Some (Symlink "/opt/algo/algo_2.0.0")
  /\ fs (device (poll (serving (bytes_of_string "abc")) drone device_1_5_0))
       !! "/opt/algo/algo_2.0.0" = Some (File (bytes_of_string "abc") mode_0755)
  /\ readCurrentVersion (device (poll (serving (bytes_of_string "abd")) drone device_1_5_0))
     = "1.5.0".
Proof. split_and!; vm_compute; reflexivity. Qed.

(* ===================================================================== *)
(** * Proofs: the steps of an installation and their failures *)
(* ===================================================================== *)

(** ** A cycle that is offered nothing *)

(** A cycle whose check does not come back with an update (the request
    fails, the status is not 200, the body does not decode, or no update is
    offered) makes that one request and leaves the device as it was; it
    returns nil exactly when the check answered 200 with a body that
    decodes. *)
Theorem cycle_without_offer_changes_nothing (env : CycleEnv) (cfg : Config) (d : Device) :
  (forall latest, ~ offers env cfg (readCurrentVersion d) latest) ->
  device (poll env cfg d) = d
  /\ calls (poll env cfg d) = [EvGet (check_url cfg (readCurrentVersion d))]
  /\ (result (poll env cfg d) = inr tt <->
      exists body ck,
        check_Get env (check_url cfg (readCurrentVersion d)) = Got 200 body
        /\ decode_CheckResp env body = inr ck).
Proof.
  intros Hno. unfold poll, exec, runOnce. fold (check_url cfg (readCurrentVersion d)).
  unfold emit. cbv [bind modify ret exit_with]. simpl.
  destruct (check_Get env (check_url cfg (readCurrentVersion d))) as [e|code cbody] eqn:Hget.
  { simpl. split_and!; [by destruct d|done|]. split; [done|]. by intros (? & ? & ? & _). }
  destruct (code =? 200) eqn:Hcode; simpl.
  2:{ split_and!; [by destruct d|done|]. split; [done|].
      intros (? & ? & [= -> _] & _). done. }
  apply Z.eqb_eq in Hcode. subst code.
  destruct (decode_CheckResp env cbody) as [e|ck] eqn:Hdec; simpl.
  { split_and!; [by destruct d|done|]. split; [done|].
    intros (? & ? & [= <-] & Hd). by rewrite Hdec in Hd. }
  destruct (UpdateAvailable ck) eqn:Hua.
  - destruct (Latest ck) as [latest|] eqn:Hl.
    + destruct (Hno latest). by exists cbody, ck.
    + simpl. split_and!; [by destruct d|done|]. split; [|done]. intros _. by exists cbody, ck.
  - simpl. split_and!; [by destruct d|done|]. split; [|done]. intros _. by exists cbody, ck.
Qed.

Lemma cycle_without_offer_changes_nothing_witness :
  device (poll no_release drone device_1_5_0) = device_1_5_0
  /\ calls (poll no_release drone device_1_5_0)
     = [EvGet (check_url drone (readCurrentVersion device_1_5_0))]
  /\ (result (poll no_release drone device_1_5_0) = inr tt <->
      exists body ck,
        check_Get no_release (check_url drone (readCurrentVersion device_1_5_0)) = Got 200 body
        /\ decode_CheckResp no_release body = inr ck).
Proof.
  apply (cycle_without_offer_changes_nothing no_release drone device_1_5_0).
  intros latest (body & ck & H & _). vm_compute in H. discriminate H.
Defined.

(** ** The installation, step by step *)

(** From the check to the switch of the link. *)
Lemma runOnce_linked env cfg d latest body :
  offers env cfg (readCurrentVersion d) latest ->
  downloads env cfg latest body ->
  readable env ->
  sha256_hex body = Sha256 latest ->
  installable env ->
  exists f,
    runOnce env cfg (readCurrentVersion d) (mkRun d [])
    = (restartAlgorithm env (currLink_of cfg) ;;
       d0 <- the_dev ;;
       os_WriteFile env (currentVerFP d0) (bytes_of_string (Version latest)))
        (mkRun (set_fs f d) (install_calls cfg d latest body))
    /\ f !! currLink_of cfg = Some (Symlink (dst_of cfg latest))
    /\ f !! tmpFile_of cfg latest = None
    /\ (dst_of cfg latest <> currLink_of cfg ->
        f !! dst_of cfg latest = Some (File body mode_0755))
    /\ (forall p, p <> tmpFile_of cfg latest -> p <> dst_of cfg latest ->
                  p <> currLink_of cfg -> f !! p = fs d !! p).
Proof.
  intros (cbody & ck & Hget & Hdec & Hua & Hlatest) Hdl Hrd Hsum (Hrn & Hch & Hsl).
  pose proof (tmpFile_not_dst cfg latest) as Htd.
  pose proof (tmpFile_not_currLink cfg latest) as Htl.
  destruct (truncated (fs d !! tmpFile_of cfg latest) mode_0666) as [data0 m0|t0] eqn:Htr;
    [|by destruct (fs d !! tmpFile_of cfg latest) as [[]|]].
  eexists. split.
  - unfold runOnce. fold (check_url cfg (readCurrentVersion d)).
    unfold bind at 1. unfold emit at 1. cbv [modify]. simpl.
    unfold bind at 1. rewrite Hget. simpl. rewrite Hdec. cbv [ret].
    rewrite Hua, Hlatest.
    fold (tmpFile_of cfg latest) (dst_of cfg latest) (currLink_of cfg).
    unfold bind at 1. rewrite (downloadToFile_run env cfg latest body _ Hdl).
    unfold bind at 1. rewrite (verifySha256_run env _ _ _ Hrd).
    cbn [dev fs set_fs]. rewrite lookup_insert_eq, node_bytes_with_bytes.
    rewrite Hsum, String.eqb_refl. cbn [negb].
    unfold bind at 1. cbv [ret].
    unfold bind at 1. unfold os_Rename, emit, on_dev, check_err. rewrite Hrn.
    cbv [bind modify ret]. cbn [dev fs set_fs log currentCmd currentVerFP].
    rewrite lookup_insert_eq.
    unfold os_Chmod, emit, on_dev, check_err. rewrite Hch.
    cbv [bind modify ret]. cbn [dev fs set_fs log currentCmd currentVerFP].
    rewrite lookup_delete_ne, lookup_insert_eq by done.
    rewrite Htr.
    cbn [with_bytes set_fs fs currentCmd currentVerFP].
    unfold os_Remove, os_Symlink, emit, on_dev, check_err. rewrite Hsl.
    cbv [bind modify ret]. cbn [dev fs set_fs log currentCmd currentVerFP].
    unfold install_calls, set_fs. cbn [app fs currentCmd currentVerFP]. reflexivity.
  - split_and!.
    + apply lookup_insert_eq.
    + rewrite lookup_insert_ne by done. rewrite lookup_delete_ne by done.
      rewrite lookup_insert_ne by done. apply lookup_delete_eq.
    + intros Hdl'. rewrite lookup_insert_ne by done. rewrite lookup_delete_ne by done.
      apply lookup_insert_eq.
    + intros p Hp1 Hp2 Hp3.
      rewrite lookup_insert_ne by done. rewrite lookup_delete_ne by done.
      rewrite lookup_insert_ne by done. rewrite lookup_delete_ne by done.
      rewrite lookup_insert_ne by done. by rewrite lookup_insert_ne.
Qed.

(** The stop of the running payload. *)
Lemma stopAlgorithm_run env r :
  stopAlgorithm env r
  = (mkRun (set_currentCmd None (dev r)) (log r ++ stop_calls env (dev r)), inr tt).
Proof.
  unfold stopAlgorithm, stop_calls, the_dev, emit, on_dev. cbv [bind get modify ret].
  destruct r as [[f [cmd|] vfp] l]; simpl.
  - destruct (signal_err env); simpl; [by rewrite <- app_assoc|done].
  - by rewrite app_nil_r.
Qed.

(** The restart, then the write of the record. *)
Lemma restart_and_record_run env r link data :
  (restartAlgorithm env link ;;
   d0 <- the_dev ;;
   os_WriteFile env (currentVerFP d0) data) r
  = match start_result env with
    | inl err =>
        (mkRun (set_currentCmd None (dev r))
               (log r ++ stop_calls env (dev r) ++ [EvSleep 300; EvStart link (inl err)]),
         inl err)
    | inr pid =>
        let l := log r ++ stop_calls env (dev r)
                   ++ [EvSleep 300; EvStart link (inr pid);
                       EvWriteFile (currentVerFP (dev r)) data] in
        let started := set_currentCmd (Some (mkCmd link pid)) (dev r) in
        match writefile_fault env with
        | Some (OpenFails err) => (mkRun started l, inl err)
        | Some (WriteFails n err) =>
            (mkRun (set_fs (<[currentVerFP (dev r) :=
                                with_bytes (fs (dev r) !! currentVerFP (dev r)) (firstn n data)
                                           mode_0644]> (fs (dev r))) started) l,
             inl err)
        | None =>
            (mkRun (set_fs (<[currentVerFP (dev r) :=
                                with_bytes (fs (dev r) !! currentVerFP (dev r)) data mode_0644]>
                              (fs (dev r))) started) l,
             inr tt)
        end
    end.
Proof.
  unfold restartAlgorithm. unfold bind at 1. unfold bind at 1.
  rewrite stopAlgorithm_run.
  unfold startAlgorithm, os_WriteFile, the_dev, emit, on_dev.
  cbv [bind get modify ret exit_with]. simpl.
  destruct (start_result env) as [err|pid]; simpl.
  - by rewrite <- !app_assoc.
  - destruct (writefile_fault env) as [[err|n err]|]; simpl; by rewrite <- !app_assoc.
Qed.

Lemma dst_not_currLink cfg latest :
  Version latest <> "current" -> dst_of cfg latest <> currLink_of cfg.
Proof.
  intros Hcur H. apply Join_inj in H; [|done..]. by apply (append_inj_l "algo_") in H.
Qed.

(** A cycle in which nothing fails, as one outcome: the disk [f] after the
    switch of the link, the payload started, then the record written. *)
Lemma poll_installs (env : CycleEnv) (cfg : Config) (d : Device)
    (latest : Release) (body : list byte) (pid : Z) :
  currentVerFP d = currentVerFP_of cfg ->
  offers env cfg (readCurrentVersion d) latest ->
  downloads env cfg latest body ->
  readable env ->
  sha256_hex body = Sha256 latest ->
  installable env ->
  start_result env = inr pid ->
  writefile_fault env = None ->
  exists f,
    poll env cfg d
    = mkOutcome
        (set_fs (<[currentVerFP_of cfg :=
                     with_bytes (f !! currentVerFP_of cfg) (bytes_of_string (Version latest))
                                mode_0644]> f)
                (set_currentCmd (Some (mkCmd (currLink_of cfg) pid)) (set_fs f d)))
        (install_calls cfg d latest body ++ stop_calls env d
           ++ [EvSleep 300; EvStart (currLink_of cfg) (inr pid);
               EvWriteFile (currentVerFP_of cfg) (bytes_of_string (Version latest))])
        (inr tt)
    /\ f !! currLink_of cfg = Some (Symlink (dst_of cfg latest))
    /\ f !! tmpFile_of cfg latest = None
    /\ (dst_of cfg latest <> currLink_of cfg ->
        f !! dst_of cfg latest = Some (File body mode_0755))
    /\ (forall p, p <> tmpFile_of cfg latest -> p <> dst_of cfg latest ->
                  p <> currLink_of cfg -> f !! p = fs d !! p).
Proof.
  intros Hfp Hoffer Hdl Hrd Hsum Hinst Hstart Hwrite.
  destruct (runOnce_linked env cfg d latest body Hoffer Hdl Hrd Hsum Hinst)
    as (f & Hrun & Hf).
  exists f. split; [|done].
  unfold poll, exec. rewrite Hrun, restart_and_record_run, Hstart, Hwrite.
  cbn [dev log]. simpl. by rewrite Hfp.
Qed.



(** What the restart and the write of the record leave of the disk. *)
Lemma restart_and_record_fs env r link data p :
  p <> currentVerFP (dev r) ->
  fs (dev (fst ((restartAlgorithm env link ;;
                 d0 <- the_dev ;;
                 os_WriteFile env (currentVerFP d0) data) r))) !! p
  = fs (dev r) !! p.
Proof.
  intros Hp. rewrite restart_and_record_run.
  destruct (start_result env) as [err|pid]; [done|].
  destruct (writefile_fault env) as [[err|n err]|]; simpl; [done|..];
    by rewrite lookup_insert_ne.
Qed.



Lemma stat_ok_self_link f name : forall fuel,
  f !! name = Some (Symlink name) -> stat_ok fuel f name = false.
Proof. induction fuel as [|fuel IH]; intros H; simpl; [done|]. rewrite H. by apply IH. Qed.





(** ** The digest a release declares *)

(** The cycle on a digest that does not match. *)
Lemma poll_on_mismatch env cfg d latest body :
  offers env cfg (readCurrentVersion d) latest ->
  downloads env cfg latest body ->
  readable env ->
  sha256_hex body <> Sha256 latest ->
  poll env cfg d
  = mkOutcome (set_fs (delete (tmpFile_of cfg latest) (fs d)) d)
      [EvGet (check_url cfg (readCurrentVersion d));
       EvGet (Cfg.ServerURL cfg +:+ URL latest);
       EvCreate (tmpFile_of cfg latest);
       EvCopy (tmpFile_of cfg latest) body;
       EvRemove (tmpFile_of cfg latest)]
      (inl (errors_New "sha256 mismatch")).
Proof.
  intros (cbody & ck & Hget & Hdec & Hua & Hlatest) Hdl Hrd Hne.
  unfold poll, exec, runOnce. fold (check_url cfg (readCurrentVersion d)).
  unfold bind at 1. unfold emit at 1. cbv [modify]. simpl.
  unfold bind at 1. rewrite Hget. simpl. rewrite Hdec. cbv [ret].
  rewrite Hua, Hlatest.
  fold (tmpFile_of cfg latest).
  unfold bind at 1. rewrite (downloadToFile_run env cfg latest body _ Hdl).
  unfold bind at 1. rewrite (verifySha256_run env _ _ _ Hrd).
  cbn [dev fs set_fs]. rewrite lookup_insert_eq, node_bytes_with_bytes.
  destruct (String.eqb (sha256_hex body) (Sha256 latest)) eqn:Heq;
    [by apply String.eqb_eq in Heq|].
  unfold bind at 1. unfold os_Remove, emit, on_dev. cbv [bind modify exit_with]. simpl.
  by rewrite delete_insert_eq.
Qed.



(** ** A download that breaks off *)



End AgentProofs.

(* ===================================================================== *)
(** * Proofs: from the publish to the device *)
(* ===================================================================== *)



(** ** The next cycle, and the next start of the agent *)

(** The check of a channel on the version that is its latest. *)
Lemma check_on_latest p w channel version rel device_id :
  p <> GinOld ->
  channel <> "" -> version <> "" ->
  LatestByChannel (consulted_store p w) !! channel = Some version ->
  ReleasesByVersion (consulted_store p w) !! version = Some rel ->
  Version rel = version ->
  response (serve (check p (mkCheckReq (Some channel) (Some version) device_id)) w)
  = [Wrote StatusOK (CheckBody false (Some rel) "up to date")].
Proof.
  intros Hp Hc Hv Hl Hr Hrel.
  apply String_eqb_empty_false in Hc. apply String_eqb_empty_false in Hv.
  destruct p; [|done|]; unfold check, serve.
  - simpl in Hl, Hr.
    unfold ServerMain.handleCheck, the_world, write. cbv [bind get ret modify exit_with].
    simpl. rewrite Hc, Hl, Hr, Hv, Hrel. simpl. by rewrite isNewer_irreflexive.
  - rewrite consulted_store_Gin in Hl, Hr.
    unfold Controller.Check. unfold bind at 1. rewrite loadStore_run. simpl.
    destruct (storeFile_content w) as [e|tmp];
      unfold the_world, write; cbv [bind get ret modify exit_with];
      simpl; rewrite Hl, Hr, Hv, Hrel; simpl; by rewrite isNewer_irreflexive.
Qed.

(** A cycle whose check offers nothing. *)
Lemma poll_idle env cfg d body ck :
  Agent.check_Get env (Agent.check_url cfg (Agent.readCurrentVersion d)) = Agent.Got 200 body ->
  Agent.decode_CheckResp env body = inr ck ->
  Agent.UpdateAvailable ck = false ->
  Agent.poll env cfg d
  = Agent.mkOutcome d [Agent.EvGet (Agent.check_url cfg (Agent.readCurrentVersion d))] (inr tt).
Proof.
  intros Hget Hdec Hua. unfold Agent.poll, Agent.exec, Agent.runOnce.
  fold (Agent.check_url cfg (Agent.readCurrentVersion d)).
  unfold Agent.emit. cbv [bind modify ret exit_with]. simpl.
  rewrite Hget. simpl. rewrite Hdec, Hua. simpl. by destruct d.
Qed.



Section Reboot.
Import Agent.



End Reboot.
